(** * Pair-analytics backend: tick buffer, resampling cache, analytics, alerts

    A shallow embedding of the real-time core of the backend
    ([core/data_manager.py], [utils/helpers.py], [core/analytics.py],
    [core/alerts_engine.py]) and the properties checked against it.

    Conventions.
    - Python [float] is IEEE-754 binary64: Rocq's primitive [float].
    - Python [str] is modelled by [string] (symbols, operators and
      timestamps are ASCII text).
    - [dict]/[defaultdict] are [gmap]s; a [defaultdict] read that creates the
      missing entry is written out ([touch]).
    - [threading.Lock] objects only serialise access; the sequential
      semantics below is the one every lock-protected block has.
    - Library calls that are not part of the repository (pandas timestamp
      parsing and printing, rolling statistics, regression fits, the ADF
      test) are section variables; a [None] result stands for a raised
      exception. *)

From Stdlib Require Import ZArith List Floats Lia Bool Ascii String.
From Stdlib Require Import Sorted.
From stdpp Require Import gmap strings list.

Local Open Scope Z_scope.

(* ===================================================================== *)
(** ** Floating-point helpers (numpy / pandas conventions)               *)
(* ===================================================================== *)

Module Fl.

(** [np.isnan] / the negation of [pd.notna] on a float. *)
Definition isnan (x : float) : bool := PrimFloat.is_nan x.
Definition notna (x : float) : bool := negb (isnan x).

(** [np.nan]. *)
Definition NaN : float := PrimFloat.nan.

(** [np.isfinite]. *)
Definition isfinite (x : float) : bool :=
  PrimFloat.ltb (PrimFloat.abs x) PrimFloat.infinity.

(** Row-wise [max]/[min] with [skipna=True]: NaN entries are ignored and
    the result is NaN only when every entry is NaN. *)
Definition fmax2 (acc x : float) : float :=
  if isnan x then acc
  else if isnan acc then x
  else if PrimFloat.ltb acc x then x else acc.

Definition fmin2 (acc x : float) : float :=
  if isnan x then acc
  else if isnan acc then x
  else if PrimFloat.ltb x acc then x else acc.

Definition nanmax (l : list float) : float := fold_left fmax2 l NaN.
Definition nanmin (l : list float) : float := fold_left fmin2 l NaN.

(** Sum of the non-NaN entries, [NaN] when fewer than [min_count] of them
    ([Series.sum(min_count=1)]).  The additions are done left to right; the
    compensated summation of the library, which can differ in the last bits
    of a volume, is not modelled. *)
Definition nansum_min1 (l : list float) : float :=
  match List.filter notna l with
  | [] => NaN
  | x :: r => fold_left PrimFloat.add r x
  end.

(** First / last non-NaN entry (the [ohlc] aggregation skips NaN). *)
Definition first_valid (l : list float) : float :=
  match List.filter notna l with
  | [] => NaN
  | x :: _ => x
  end.

Definition last_valid (l : list float) : float :=
  first_valid (rev l).

(** [Series.replace(0, np.nan)] on one entry ([-0.0 == 0] holds too). *)
Definition zero_to_nan (x : float) : float :=
  if PrimFloat.eqb x 0%float then NaN else x.

(** [Series.ffill()]: a NaN takes the last earlier non-NaN value. *)
Fixpoint ffill_from (prev : float) (l : list float) : list float :=
  match l with
  | [] => []
  | x :: r => let y := if isnan x then prev else x in y :: ffill_from y r
  end.

Definition ffill (l : list float) : list float := ffill_from NaN l.

(** [Series.bfill()]: a NaN takes the next later non-NaN value. *)
Definition bfill (l : list float) : list float := rev (ffill (rev l)).

(** [Series.fillna(v)] on one entry. *)
Definition fillna (v x : float) : float := if isnan x then v else x.

End Fl.

(* ===================================================================== *)
(** ** Strings: [str.strip], [str.upper], [str.lower], slices            *)
(* ===================================================================== *)

Module Str.

(** [str.isspace] on an ASCII character: TAB..CR, FS..US and space. *)
Definition is_space (c : ascii) : bool :=
  let n := nat_of_ascii c in
  ((9 <=? n)%nat && (n <=? 13)%nat) || ((28 <=? n)%nat && (n <=? 32)%nat).

Definition upper_char (c : ascii) : ascii :=
  let n := nat_of_ascii c in
  if ((97 <=? n)%nat && (n <=? 122)%nat) then ascii_of_nat (n - 32) else c.

Definition lower_char (c : ascii) : ascii :=
  let n := nat_of_ascii c in
  if ((65 <=? n)%nat && (n <=? 90)%nat) then ascii_of_nat (n + 32) else c.

Fixpoint map_string (f : ascii -> ascii) (s : string) : string :=
  match s with
  | EmptyString => EmptyString
  | String c r => String (f c) (map_string f r)
  end.

Definition upper : string -> string := map_string upper_char.
Definition lower : string -> string := map_string lower_char.

Fixpoint lstrip (s : string) : string :=
  match s with
  | EmptyString => EmptyString
  | String c r => if is_space c then lstrip r else s
  end.

Definition reverse (s : string) : string :=
  string_of_list_ascii (rev (list_ascii_of_string s)).

Definition rstrip (s : string) : string := reverse (lstrip (reverse s)).

Definition strip (s : string) : string := rstrip (lstrip s).

(** Python truthiness of an optional string argument ([if from_ts:]). *)
Definition truthy (o : option string) : option string :=
  match o with
  | Some EmptyString => None
  | _ => o
  end.

(** [a >= b] and [a <= b] on [str]: code-point lexicographic order. *)
Definition ge (a b : string) : bool := String.leb b a.
Definition le (a b : string) : bool := String.leb a b.

End Str.

(** [helpers.normalize_symbol]: [symbol.strip().upper()]. *)
Definition normalize_symbol (symbol : string) : string :=
  Str.upper (Str.strip symbol).

(* ===================================================================== *)
(** ** Python sequence slices                                            *)
(* ===================================================================== *)

Module Py.

(** Normalisation of one slice bound against a sequence of length [n]. *)
Definition clamp (n : nat) (i : Z) : nat :=
  if i <? 0 then Z.to_nat (Z.max (Z.of_nat n + i) 0)
  else Nat.min (Z.to_nat i) n.

(** [l[a:b]]. *)
Definition slice {A} (a b : Z) (l : list A) : list A :=
  let lo := clamp (length l) a in
  let hi := clamp (length l) b in
  firstn (hi - lo) (skipn lo l).

(** [l[a:]]. *)
Definition slice_from {A} (a : Z) (l : list A) : list A :=
  skipn (clamp (length l) a) l.

(** [l[-k:]] as written in the source (for [k = 0] the guard
    [if limit:] is false, so the slice is never taken with [k = 0]). *)
Definition tail_limit {A} (k : Z) (l : list A) : list A := slice_from (- k) l.

(** [range(a, b)]. *)
Definition range (a b : Z) : list Z :=
  map (fun k => a + Z.of_nat k) (seq 0 (Z.to_nat (b - a))).

End Py.

(* ===================================================================== *)
(** ** Data model                                                        *)
(* ===================================================================== *)

(** A trade tick: the dict [{symbol, price, qty, ts}] built by the stream
    client ([ts] is an ISO-8601 string). *)
Record Tick := mkTick {
  tick_symbol : string;
  tick_price  : float;
  tick_qty    : float;
  tick_ts     : string;
}.

(** One row of the OHLCV frame returned by [resample_to_ohlcv]. *)
Record Candle := mkCandle {
  c_ts     : string;
  c_open   : float;
  c_high   : float;
  c_low    : float;
  c_close  : float;
  c_volume : float;
}.

(** The universal [{ts, value}] point of the analytics series. *)
Record Point := mkPoint {
  p_ts    : string;
  p_value : float;
}.

(** [collections.deque(maxlen=n).append(x)]: the item is appended on the
    right and, when the length then exceeds [maxlen], the leftmost item is
    dropped. *)
Definition deque_append {A} (maxlen : nat) (d : list A) (x : A) : list A :=
  let d' := d ++ [x] in
  if (maxlen <? length d')%nat then tail d' else d'.

(* ===================================================================== *)
(** ** [core/data_manager.py]: class [DataManager]                       *)
(* ===================================================================== *)

(** The mutable attributes of a [DataManager].  The cached [DataFrame] of a
    [(symbol, timeframe)] key is its list of rows. *)
Record DataManager := mkDM {
  tick_buffers   : gmap string (list Tick);
  ohlcv_cache    : gmap (string * string) (list Candle);
  tick_counts    : gmap string Z;
  last_tick_time : gmap string Z;
}.

(** [DataManager.__init__]. *)
Definition DataManager_init : DataManager :=
  {| tick_buffers := ∅; ohlcv_cache := ∅; tick_counts := ∅; last_tick_time := ∅ |}.

(** Reading [d[k]] on a [defaultdict] registers the default under a missing
    key. *)
Definition touch {V} (dflt : V) (k : string) (m : gmap string V) : gmap string V :=
  match m !! k with
  | Some _ => m
  | None => <[k := dflt]> m
  end.

(** The contents of a symbol's deque as every reader sees it: a symbol that
    was never touched has the empty default deque. *)
Definition buffer_of (dm : DataManager) (symbol : string) : list Tick :=
  default [] (tick_buffers dm !! symbol).

Definition count_of (dm : DataManager) (symbol : string) : Z :=
  default 0 (tick_counts dm !! symbol).

Section DataManagerOps.

(** [settings.tick_buffer_size], the [maxlen] of every tick deque. *)
Variable tick_buffer_size : nat.

(** [DataManager.add_tick]; [now] is [datetime.now(timezone.utc)]. *)
Definition add_tick (now : Z) (tick : Tick) (dm : DataManager) : DataManager :=
  let symbol := normalize_symbol (tick_symbol tick) in
  {| tick_buffers :=
       <[symbol := deque_append tick_buffer_size (buffer_of dm symbol) tick]>
         (tick_buffers dm);
     ohlcv_cache := ohlcv_cache dm;
     tick_counts := <[symbol := count_of dm symbol + 1]> (tick_counts dm);
     last_tick_time := <[symbol := now]> (last_tick_time dm) |}.

(** A stream of [add_tick] calls, oldest first. *)
Definition add_ticks (ticks : list (Z * Tick)) (dm : DataManager) : DataManager :=
  fold_left (fun st nt => add_tick (fst nt) (snd nt) st) ticks dm.

(** The state left by a read of [self.tick_buffers[symbol]]. *)
Definition touch_buffer (symbol : string) (dm : DataManager) : DataManager :=
  {| tick_buffers := touch [] symbol (tick_buffers dm);
     ohlcv_cache := ohlcv_cache dm;
     tick_counts := tick_counts dm;
     last_tick_time := last_tick_time dm |}.

(** The filters of [get_ticks] applied to the snapshot [list(deque)]. *)
Definition filter_ticks (limit : option Z) (from_ts to_ts : option string)
    (ticks : list Tick) : list Tick :=
  let ticks1 :=
    match Str.truthy from_ts with
    | Some f => List.filter (fun t => Str.ge (tick_ts t) f) ticks
    | None => ticks
    end in
  let ticks2 :=
    match Str.truthy to_ts with
    | Some u => List.filter (fun t => Str.le (tick_ts t) u) ticks1
    | None => ticks1
    end in
  match limit with
  | Some k => if k =? 0 then ticks2 else Py.tail_limit k ticks2
  | None => ticks2
  end.

(** [DataManager.get_ticks]. *)
Definition get_ticks (symbol : string) (limit : option Z)
    (from_ts to_ts : option string) (dm : DataManager)
    : list Tick * DataManager :=
  let symbol := normalize_symbol symbol in
  (filter_ticks limit from_ts to_ts (buffer_of dm symbol),
   touch_buffer symbol dm).

(** [DataManager.get_latest_price]. *)
Definition get_latest_price (symbol : string) (dm : DataManager)
    : option float * DataManager :=
  let symbol := normalize_symbol symbol in
  (match buffer_of dm symbol with
   | [] => None
   | buf => tick_price <$> last buf
   end,
   touch_buffer symbol dm).

(** [DataManager.clear_buffer]: [if symbol:] is false for [None] and for
    the empty string. *)
Definition clear_buffer (symbol : option string) (dm : DataManager) : DataManager :=
  match Str.truthy symbol with
  | Some s =>
      let symbol := normalize_symbol s in
      {| tick_buffers := <[symbol := []]> (tick_buffers dm);
         ohlcv_cache := filter (fun kv => fst (fst kv) ≠ symbol) (ohlcv_cache dm);
         tick_counts := <[symbol := 0]> (tick_counts dm);
         last_tick_time := last_tick_time dm |}
  | None =>
      {| tick_buffers := (fun _ => []) <$> tick_buffers dm;
         ohlcv_cache := ∅;
         tick_counts := ((fun _ => 0) <$> tick_buffers dm) ∪ tick_counts dm;
         last_tick_time := last_tick_time dm |}
  end.

End DataManagerOps.

(* ===================================================================== *)
(** ** Stateful, fallible computations                                   *)
(* ===================================================================== *)

(** A method of the engine reads and writes the [DataManager] singleton and
    may raise: [None] is a propagated exception, and the state component is
    the singleton as the call left it. *)
Definition M (A : Type) : Type := DataManager -> option A * DataManager.

Definition ret {A} (a : A) : M A := fun dm => (Some a, dm).
Definition raise {A} : M A := fun dm => (None, dm).
Definition bind {A B} (c : M A) (k : A -> M B) : M B :=
  fun dm =>
    match c dm with
    | (Some a, dm') => k a dm'
    | (None, dm') => (None, dm')
    end.
Definition lift_option {A} (o : option A) : M A := fun dm => (o, dm).
Definition modify (f : DataManager -> DataManager) : M unit :=
  fun dm => (Some tt, f dm).
Definition gets {A} (f : DataManager -> A) : M A := fun dm => (Some (f dm), dm).

Declare Scope m_scope.
Delimit Scope m_scope with M.
Notation "'let*' x := c 'in' k" := (bind c (fun x => k))
  (at level 10, x name, c at level 100, k at level 200) : m_scope.
Notation "'do' c 'in' k" := (bind c (fun _ => k))
  (at level 10, c at level 100, k at level 200) : m_scope.

(** All-or-nothing traversal of a list with a fallible function. *)
Fixpoint traverse {A B} (f : A -> option B) (l : list A) : option (list B) :=
  match l with
  | [] => Some []
  | x :: r =>
      match f x with
      | None => None
      | Some y =>
          match traverse f r with
          | None => None
          | Some ys => Some (y :: ys)
          end
      end
  end.

(* ===================================================================== *)
(** ** [utils/helpers.py]: resampling ticks to OHLCV                     *)
(* ===================================================================== *)

(** [helpers.timeframe_to_pandas_rule]: [mapping.get(tf.lower(), '1min')]. *)
Definition timeframe_to_pandas_rule (tf : string) : string :=
  let t := Str.lower tf in
  if String.eqb t "1s" then "1s"
  else if String.eqb t "1m" then "1min"
  else if String.eqb t "5m" then "5min"
  else if String.eqb t "15m" then "15min"
  else if String.eqb t "1h" then "1h"
  else if String.eqb t "1d" then "1d"
  else "1min".

(** [helpers.timeframe_to_seconds]: [mapping.get(tf.lower(), 60)]. *)
Definition timeframe_to_seconds (tf : string) : Z :=
  let t := Str.lower tf in
  if String.eqb t "1s" then 1
  else if String.eqb t "1m" then 60
  else if String.eqb t "5m" then 300
  else if String.eqb t "15m" then 900
  else if String.eqb t "1h" then 3600
  else if String.eqb t "1d" then 86400
  else 60.

(** Width in nanoseconds of the bins of a pandas resample rule, for the
    rules [timeframe_to_pandas_rule] produces; any other rule is outside the
    model ([None]). *)
Definition rule_nanos (rule : string) : option Z :=
  let s := 1000000000 in
  if String.eqb rule "1s" then Some s
  else if String.eqb rule "1min" then Some (60 * s)
  else if String.eqb rule "5min" then Some (300 * s)
  else if String.eqb rule "15min" then Some (900 * s)
  else if String.eqb rule "1h" then Some (3600 * s)
  else if String.eqb rule "1d" then Some (86400 * s)
  else None.

(** A tick after the column conversions of [resample_to_ohlcv]: the
    timestamp as a UTC instant in nanoseconds since the epoch. *)
Record PTick := mkPTick {
  pt_time  : Z;
  pt_price : float;
  pt_qty   : float;
}.

(** One row of the frame before the timestamp column is printed. *)
Record Row := mkRow {
  r_time   : Z;
  r_open   : float;
  r_high   : float;
  r_low    : float;
  r_close  : float;
  r_volume : float;
}.

(** Left edge of the bin of width [w] holding instant [t]; bins are closed
    and labelled on the left and aligned to midnight UTC. *)
Definition bucket_of (w t : Z) : Z := (t / w) * w.

(** The time grouper orders the rows by timestamp with a stable sort. *)
Fixpoint insert_by_time (x : PTick) (l : list PTick) : list PTick :=
  match l with
  | [] => [x]
  | y :: r => if pt_time x <? pt_time y then x :: l else y :: insert_by_time x r
  end.

Definition sort_by_time (l : list PTick) : list PTick :=
  fold_left (fun acc x => insert_by_time x acc) l [].

Definition min_time (t0 : Z) (l : list PTick) : Z :=
  fold_left (fun m x => Z.min m (pt_time x)) l t0.
Definition max_time (t0 : Z) (l : list PTick) : Z :=
  fold_left (fun m x => Z.max m (pt_time x)) l t0.

(** Every bin edge from the bin of the earliest tick to the bin of the
    latest one, empty bins included. *)
Definition bucket_edges (w lo hi : Z) : list Z :=
  map (fun k => lo + Z.of_nat k * w) (seq 0 (Z.to_nat ((hi - lo) / w + 1))).

Definition in_bucket (w b : Z) (x : PTick) : bool := bucket_of w (pt_time x) =? b.

(** [df['price'].resample(rule).ohlc()] and
    [df['qty'].resample(rule).sum(min_count=1)] for one bin. *)
Definition raw_row (w : Z) (sorted : list PTick) (b : Z) : Row :=
  let inb := List.filter (in_bucket w b) sorted in
  let prices := map pt_price inb in
  {| r_time := b;
     r_open := Fl.first_valid prices;
     r_high := Fl.nanmax prices;
     r_low := Fl.nanmin prices;
     r_close := Fl.last_valid prices;
     r_volume := Fl.nansum_min1 (map pt_qty inb) |}.

(** The row test of [dropna(how='all')]: kept unless every column is NaN. *)
Definition not_all_nan (r : Row) : bool :=
  negb (Fl.isnan (r_open r) && Fl.isnan (r_high r) && Fl.isnan (r_low r)
        && Fl.isnan (r_close r) && Fl.isnan (r_volume r)).

(** [col.replace(0, np.nan)] followed by [ffill().bfill()] on one column. *)
Definition fill_col (col : list float) : list float :=
  Fl.bfill (Fl.ffill (map Fl.zero_to_nan col)).

Section Resample.

(** [pd.to_datetime(_, utc=True, format='ISO8601')] on one entry, as
    nanoseconds since the epoch. *)
Variable to_datetime_utc : string -> option Z.
(** [Timestamp.isoformat()]. *)
Variable isoformat : Z -> string.

Definition parse_tick (t : Tick) : option PTick :=
  match to_datetime_utc (tick_ts t) with
  | Some i => Some {| pt_time := i; pt_price := tick_price t; pt_qty := tick_qty t |}
  | None => None
  end.

(** The last steps of [resample_to_ohlcv] on the rows that survive
    [dropna]: high and low are recomputed from the filled price columns
    (low after high has been reassigned), missing volumes become 0 and
    the timestamp is printed. *)
Fixpoint finish_rows (ts : list Z) (o h l c v : list float) : list Candle :=
  match ts, o, h, l, c, v with
  | t :: ts', o1 :: o', h1 :: h', l1 :: l', c1 :: c', v1 :: v' =>
      let high := Fl.nanmax [o1; h1; l1; c1] in
      let low := Fl.nanmin [o1; high; l1; c1] in
      {| c_ts := isoformat t; c_open := o1; c_high := high; c_low := low;
         c_close := c1; c_volume := Fl.fillna 0%float v1 |}
      :: finish_rows ts' o' h' l' c' v'
  | _, _, _, _, _, _ => []
  end.

(** The frame computed from the converted ticks and the bin width. *)
Definition ohlcv_rows (w : Z) (pts : list PTick) : list Candle :=
  match pts with
  | [] => []
  | p0 :: _ =>
      let sorted := sort_by_time pts in
      let lo := bucket_of w (min_time (pt_time p0) pts) in
      let hi := bucket_of w (max_time (pt_time p0) pts) in
      let raw := map (raw_row w sorted) (bucket_edges w lo hi) in
      let kept := List.filter not_all_nan raw in
      finish_rows (map r_time kept)
        (fill_col (map r_open kept)) (fill_col (map r_high kept))
        (fill_col (map r_low kept)) (fill_col (map r_close kept))
        (map r_volume kept)
  end.

(** [helpers.resample_to_ohlcv]; [None] when a timestamp does not parse
    or the rule is not a known one. *)
Definition resample_to_ohlcv (ticks : list Tick) (timeframe : string)
    : option (list Candle) :=
  match ticks with
  | [] => Some []
  | _ =>
      match traverse parse_tick ticks, rule_nanos timeframe with
      | Some pts, Some w => Some (ohlcv_rows w pts)
      | _, _ => None
      end
  end.

End Resample.

(* ===================================================================== *)
(** ** [DataManager]: the resampling cache                               *)
(* ===================================================================== *)

(** A close-price [pd.Series]: (index instant, value) rows in index order. *)
Definition Series : Type := list (Z * float).

(** The caller-side filters that [get_ohlcv] applies to a frame. *)
Definition filter_candles (limit : option Z) (from_ts to_ts : option string)
    (df : list Candle) : list Candle :=
  let df1 :=
    match Str.truthy from_ts with
    | Some f => List.filter (fun c => Str.ge (c_ts c) f) df
    | None => df
    end in
  let df2 :=
    match Str.truthy to_ts with
    | Some u => List.filter (fun c => Str.le (c_ts c) u) df1
    | None => df1
    end in
  match limit with
  | Some k => if k =? 0 then df2 else Py.tail_limit k df2
  | None => df2
  end.

Definition set_cache (key : string * string) (df : list Candle)
    (dm : DataManager) : DataManager :=
  {| tick_buffers := tick_buffers dm;
     ohlcv_cache := <[key := df]> (ohlcv_cache dm);
     tick_counts := tick_counts dm;
     last_tick_time := last_tick_time dm |}.

Section Cache.

Variable to_datetime_utc : string -> option Z.
Variable isoformat : Z -> string.
(** [pd.to_datetime] on one entry of a string column. *)
Variable to_datetime : string -> option Z.

(** [DataManager.get_ohlcv]. *)
Definition get_ohlcv (symbol timeframe : string) (limit : option Z)
    (from_ts to_ts : option string) (force_resample : bool)
    : M (list Candle) :=
  fun dm =>
    let symbol := normalize_symbol symbol in
    let cache_key := (symbol, timeframe) in
    match (if force_resample then None else ohlcv_cache dm !! cache_key) with
    | Some df => (Some (filter_candles limit from_ts to_ts df), dm)
    | None =>
        let '(ticks, dm1) := get_ticks symbol None from_ts to_ts dm in
        match ticks with
        | [] => (Some [], dm1)
        | _ =>
            match resample_to_ohlcv to_datetime_utc isoformat ticks
                    (timeframe_to_pandas_rule timeframe) with
            | None => (None, dm1)
            | Some df =>
                (Some (filter_candles limit from_ts to_ts df),
                 set_cache cache_key df dm1)
            end
        end
    end.

(** The tail of [get_price_series]: limit, index conversion, close column. *)
Definition close_series (limit : option Z) (df : list Candle) : option Series :=
  let df_local :=
    match limit with
    | Some k => if k =? 0 then df else Py.tail_limit k df
    | None => df
    end in
  match df_local with
  | [] => Some []
  | _ =>
      traverse (fun c => match to_datetime (c_ts c) with
                         | Some i => Some (i, c_close c)
                         | None => None
                         end) df_local
  end.

(** [DataManager.get_price_series]. *)
Definition get_price_series (symbol timeframe : string) (limit : option Z)
    (force_resample : bool) : M Series :=
  fun dm =>
    let symbol := normalize_symbol symbol in
    let cache_key := (symbol, timeframe) in
    match (if force_resample then None else ohlcv_cache dm !! cache_key) with
    | Some df => (close_series limit df, dm)
    | None =>
        let dm1 := touch_buffer symbol dm in
        match buffer_of dm symbol with
        | [] => (Some [], dm1)
        | ticks =>
            match resample_to_ohlcv to_datetime_utc isoformat ticks
                    (timeframe_to_pandas_rule timeframe) with
            | None => (None, dm1)
            | Some [] => (Some [], dm1)
            | Some df => (close_series limit df, set_cache cache_key df dm1)
            end
        end
    end.

End Cache.

(* ===================================================================== *)
(** ** [core/analytics.py]: class [AnalyticsEngine]                      *)
(* ===================================================================== *)

(** A row of the aligned frame [DataFrame({'a': .., 'b': ..}).dropna()]. *)
Record ARow := mkARow {
  ar_time : Z;
  ar_a    : float;
  ar_b    : float;
}.

(** The result dict of [compute_adf_test]. *)
Record Adf := mkAdf {
  adf_stat   : float;
  adf_pvalue : float;
}.

Definition series_lookup (t : Z) (s : Series) : option float :=
  match List.find (fun r => fst r =? t) s with
  | Some r => Some (snd r)
  | None => None
  end.

(** The aligned frame: the rows whose timestamp is in both indexes and whose
    two prices are not NaN, in index order (both indexes are the ascending
    bucket times of a resampled frame). *)
Definition align (prices_a prices_b : Series) : list ARow :=
  omap (fun r =>
          match series_lookup (fst r) prices_b with
          | Some b =>
              if Fl.notna (snd r) && Fl.notna b
              then Some {| ar_time := fst r; ar_a := snd r; ar_b := b |}
              else None
          | None => None
          end) prices_a.

(** [helpers.safe_division]. *)
Definition safe_division (numerator denominator default : float) : float :=
  if PrimFloat.eqb denominator 0%float || Fl.isnan denominator || Fl.isnan numerator
  then default
  else PrimFloat.div numerator denominator.

(** The limit every analytics method passes to [get_price_series]. *)
Definition series_limit (window : Z) : option Z :=
  Some (Z.max (window * 3) (window + 20)).

Section Analytics.

Variable to_datetime_utc : string -> option Z.
Variable isoformat : Z -> string.
Variable to_datetime : string -> option Z.
(** [pd.Timestamp(s)]. *)
Variable Timestamp : string -> option Z.

(** [statsmodels] [OLS(endog, exog).fit().params]. *)
Variable OLS_fit_params : list float -> list (list float) -> option (list float).
(** [sklearn] [HuberRegressor().fit(X, y).coef_]. *)
Variable HuberRegressor_fit_coef : list (list float) -> list float -> option (list float).
(** [sklearn] [TheilSenRegressor(random_state=42).fit(X, y).coef_]. *)
Variable TheilSenRegressor_fit_coef : list (list float) -> list float -> option (list float).
(** [Series.rolling(window=w, min_periods=w).mean()] and [.std()]. *)
Variable rolling_mean : Z -> list float -> option (list float).
Variable rolling_std : Z -> list float -> option (list float).
(** [statsmodels] [adfuller(x, autolag='AIC')]: statistic and p-value. *)
Variable adfuller : list float -> option (float * float).

(** [AnalyticsEngine._ols_hedge_ratio]. *)
Definition _ols_hedge_ratio (y x : list float) : option float :=
  let x_with_const := map (fun v => [1%float; v]) x in
  match OLS_fit_params y x_with_const with
  | Some params => nth_error params 1
  | None => None
  end.

(** [AnalyticsEngine._huber_hedge_ratio]. *)
Definition _huber_hedge_ratio (y x : list float) : option float :=
  let x_reshaped := map (fun v => [v]) x in
  match HuberRegressor_fit_coef x_reshaped y with
  | Some coef => nth_error coef 0
  | None => None
  end.

(** [AnalyticsEngine._theilsen_hedge_ratio]. *)
Definition _theilsen_hedge_ratio (y x : list float) : option float :=
  let x_reshaped := map (fun v => [v]) x in
  match TheilSenRegressor_fit_coef x_reshaped y with
  | Some coef => nth_error coef 0
  | None => None
  end.

(** The method dispatch inside the loop of [compute_hedge_ratio]. *)
Definition window_ratio (method : string) (window_data : list ARow) : option float :=
  let m := Str.upper method in
  let a := map ar_a window_data in
  let b := map ar_b window_data in
  if String.eqb m "OLS" then _ols_hedge_ratio a b
  else if String.eqb m "HUBER" then _huber_hedge_ratio a b
  else if String.eqb m "THEIL-SEN" then _theilsen_hedge_ratio a b
  else if String.eqb m "KALMAN" then _ols_hedge_ratio a b
  else Some 1%float.

(** The body of the [try] block: [None] when it raises, in which case the
    [except] clause skips the window. *)
Definition hedge_point (method : string) (window_data : list ARow) : option Point :=
  match window_ratio method window_data with
  | None => None
  | Some ratio =>
      match last window_data with
      | None => None
      | Some r => Some {| p_ts := isoformat (ar_time r); p_value := ratio |}
      end
  end.

(** The rolling loop of [compute_hedge_ratio] on the aligned frame. *)
Definition rolling_hedge (method : string) (effective_window : Z)
    (df : list ARow) : list Point :=
  omap (fun i => hedge_point method (Py.slice (i - effective_window) i df))
       (Py.range effective_window (Z.of_nat (length df) + 1)).

(** [compute_hedge_ratio] from the two price series on. *)
Definition hedge_ratio_of_series (prices_a prices_b : Series) (window : Z)
    (method : string) : list Point :=
  if (Nat.min (length prices_a) (length prices_b) <? 2)%nat then []
  else
    let df := align prices_a prices_b in
    if (length df <? 2)%nat then []
    else rolling_hedge method (Z.min window (Z.of_nat (length df))) df.

Local Open Scope m_scope.

(** [AnalyticsEngine.compute_hedge_ratio]. *)
Definition compute_hedge_ratio (symbol_a symbol_b timeframe : string)
    (window : Z) (method : string) : M (list Point) :=
  let* prices_a := get_price_series to_datetime_utc isoformat to_datetime
                     symbol_a timeframe (series_limit window) true in
  let* prices_b := get_price_series to_datetime_utc isoformat to_datetime
                     symbol_b timeframe (series_limit window) true in
  ret (hedge_ratio_of_series prices_a prices_b window method).

(** The loop of [compute_spread]. *)
Fixpoint spread_points (hedge_ratios : list Point) (prices_a prices_b : Series)
    : option (list Point) :=
  match hedge_ratios with
  | [] => Some []
  | hr :: rest =>
      match Timestamp (p_ts hr) with
      | None => None
      | Some ts =>
          match spread_points rest prices_a prices_b with
          | None => None
          | Some spreads =>
              match series_lookup ts prices_a, series_lookup ts prices_b with
              | Some pa, Some pb =>
                  Some ({| p_ts := isoformat ts;
                           p_value := PrimFloat.sub pa (PrimFloat.mul (p_value hr) pb) |}
                        :: spreads)
              | _, _ => Some spreads
              end
          end
      end
  end.

(** [AnalyticsEngine.compute_spread]. *)
Definition compute_spread (symbol_a symbol_b timeframe : string)
    (window : Z) (method : string) : M (list Point) :=
  let* hedge_ratios := compute_hedge_ratio symbol_a symbol_b timeframe window method in
  match hedge_ratios with
  | [] => ret []
  | _ =>
      let* prices_a := get_price_series to_datetime_utc isoformat to_datetime
                         symbol_a timeframe (series_limit window) true in
      let* prices_b := get_price_series to_datetime_utc isoformat to_datetime
                         symbol_b timeframe (series_limit window) true in
      lift_option (spread_points hedge_ratios prices_a prices_b)
  end.

(** The loop [for idx in df.index] of [compute_zscore]; the four columns
    share the index, so they are walked together. *)
Fixpoint zscore_rows (index : list Z) (value mean std : list float) : list Point :=
  match index, value, mean, std with
  | idx :: index', v :: value', m :: mean', s :: std' =>
      let rest := zscore_rows index' value' mean' std' in
      if Fl.notna m && Fl.notna s
      then {| p_ts := isoformat idx;
              p_value := safe_division (PrimFloat.sub v m) s 0%float |} :: rest
      else rest
  | _, _, _, _ => []
  end.

(** [compute_zscore] from the spread series on. *)
Definition zscore_of_spreads (window : Z) (spreads : list Point)
    : option (list Point) :=
  if (length spreads <? 2)%nat then Some []
  else
    match traverse to_datetime (map p_ts spreads) with
    | None => None
    | Some index =>
        let value := map p_value spreads in
        let effective_window := Z.min window (Z.of_nat (length spreads)) in
        match rolling_mean effective_window value,
              rolling_std effective_window value with
        | Some mean, Some std => Some (zscore_rows index value mean std)
        | _, _ => None
        end
    end.

(** [AnalyticsEngine.compute_zscore]. *)
Definition compute_zscore (symbol_a symbol_b timeframe : string)
    (window : Z) (method : string) : M (list Point) :=
  let* spreads := compute_spread symbol_a symbol_b timeframe window method in
  lift_option (zscore_of_spreads window spreads).

(** [compute_adf_test] from the spread series on; an exception of
    [adfuller] is caught and answered with the neutral default. *)
Definition adf_of_spreads (spreads : list Point) : Adf :=
  if (length spreads <? 20)%nat
  then {| adf_stat := 0%float; adf_pvalue := 1%float |}
  else
    match adfuller (map p_value spreads) with
    | Some (stat, pvalue) => {| adf_stat := stat; adf_pvalue := pvalue |}
    | None => {| adf_stat := 0%float; adf_pvalue := 1%float |}
    end.

(** [AnalyticsEngine.compute_adf_test]. *)
Definition compute_adf_test (symbol_a symbol_b timeframe : string)
    (window : Z) (method : string) : M Adf :=
  let* spreads := compute_spread symbol_a symbol_b timeframe window method in
  ret (adf_of_spreads spreads).

End Analytics.

(* ===================================================================== *)
(** ** [core/alerts_engine.py]: condition evaluation                     *)
(* ===================================================================== *)

(** The literal [1e-6]: the binary64 value nearest to 10^-6. *)
Definition eps_1e_6 : float := 0x1.0c6f7a0b5ed8dp-20%float.

(** [AlertsEngine._evaluate_condition]. *)
Definition _evaluate_condition (actual : float) (operator : string)
    (threshold : float) : bool :=
  if String.eqb operator ">" then PrimFloat.ltb threshold actual
  else if String.eqb operator "<" then PrimFloat.ltb actual threshold
  else if String.eqb operator ">=" then PrimFloat.leb threshold actual
  else if String.eqb operator "<=" then PrimFloat.leb actual threshold
  else if String.eqb operator "==" then
    PrimFloat.ltb (PrimFloat.abs (PrimFloat.sub actual threshold)) eps_1e_6
  else false.

(* ===================================================================== *)
(** ** Reference models of the library calls                             *)
(* ===================================================================== *)

(** Executable stand-ins for the library functions the engine is
    parametrised by, used to run the model on concrete inputs.  The general
    theorems below do not depend on them. *)
Module Ref.

Definition digit_of (c : ascii) : option Z :=
  let n := nat_of_ascii c in
  if ((48 <=? n)%nat && (n <=? 57)%nat) then Some (Z.of_nat (n - 48)) else None.

Fixpoint number_from (acc : Z) (cs : list ascii) : option Z :=
  match cs with
  | [] => Some acc
  | c :: r =>
      match digit_of c with
      | Some d => number_from (10 * acc + d) r
      | None => None
      end
  end.

Definition number (cs : list ascii) : option Z :=
  match cs with
  | [] => None
  | _ => number_from 0 cs
  end.

Definition is_leap (y : Z) : bool :=
  ((y mod 4 =? 0) && negb (y mod 100 =? 0)) || (y mod 400 =? 0).

Definition days_in_month (y m : Z) : Z :=
  if m =? 2 then (if is_leap y then 29 else 28)
  else if (m =? 4) || (m =? 6) || (m =? 9) || (m =? 11) then 30
  else 31.

(** Days from 1970-01-01 to the given proleptic Gregorian date. *)
Definition days_from_civil (y m d : Z) : Z :=
  let y' := if m <=? 2 then y - 1 else y in
  let era := y' / 400 in
  let yoe := y' - era * 400 in
  let mp := (m + 9) mod 12 in
  let doy := (153 * mp + 2) / 5 + d - 1 in
  let doe := yoe * 365 + yoe / 4 - yoe / 100 + doy in
  era * 146097 + doe - 719468.

Definition civil_from_days (z : Z) : Z * Z * Z :=
  let z := z + 719468 in
  let era := z / 146097 in
  let doe := z - era * 146097 in
  let yoe := (doe - doe / 1460 + doe / 36524 - doe / 146096) / 365 in
  let doy := doe - (365 * yoe + yoe / 4 - yoe / 100) in
  let mp := (5 * doy + 2) / 153 in
  let d := doy - (153 * mp + 2) / 5 + 1 in
  let m := if mp <? 10 then mp + 3 else mp - 9 in
  let y := yoe + era * 400 + (if m <=? 2 then 1 else 0) in
  (y, m, d).

Definition sec : Z := 1000000000.

Definition is_char (c : ascii) (cs : list ascii) : bool :=
  match cs with
  | [x] => Ascii.eqb x c
  | _ => false
  end.

(** The fraction and offset that may follow the seconds:
    [+00:00], or [.ffffff+00:00]; the result is in nanoseconds. *)
Definition fraction (cs : list ascii) : option Z :=
  if String.eqb (string_of_list_ascii cs) "+00:00" then Some 0
  else if is_char "." (firstn 1 cs)
          && String.eqb (string_of_list_ascii (skipn 7 cs)) "+00:00"
  then match number (firstn 6 (skipn 1 cs)) with
       | Some us => if (length (firstn 6 (skipn 1 cs)) =? 6)%nat
                    then Some (us * 1000) else None
       | None => None
       end
  else None.

Definition part (cs : list ascii) (a n : nat) : list ascii :=
  firstn n (skipn a cs).

(** Parser for the timestamps the stream client writes
    ([datetime.isoformat()] of a UTC-aware instant):
    [YYYY-MM-DDTHH:MM:SS+00:00] or [YYYY-MM-DDTHH:MM:SS.ffffff+00:00];
    anything else does not parse. *)
Definition to_datetime (s : string) : option Z :=
  let cs := list_ascii_of_string s in
  if is_char "-" (part cs 4 1) && is_char "-" (part cs 7 1)
     && is_char "T" (part cs 10 1) && is_char ":" (part cs 13 1)
     && is_char ":" (part cs 16 1)
     && (length (part cs 0 4) =? 4)%nat && (length (part cs 17 2) =? 2)%nat
  then
    match number (part cs 0 4), number (part cs 5 2), number (part cs 8 2),
          number (part cs 11 2), number (part cs 14 2), number (part cs 17 2),
          fraction (skipn 19 cs) with
    | Some y, Some m, Some d, Some hh, Some mm, Some ss, Some ns =>
        if (1 <=? m) && (m <=? 12) && (1 <=? d) && (d <=? days_in_month y m)
           && (hh <=? 23) && (mm <=? 59) && (ss <=? 59)
        then Some ((days_from_civil y m d * 86400 + hh * 3600 + mm * 60 + ss) * sec + ns)
        else None
    | _, _, _, _, _, _, _ => None
    end
  else None.

Definition digit_char (d : Z) : ascii := ascii_of_nat (48 + Z.to_nat (d mod 10)).

(** [n] printed in decimal on exactly [width] digits. *)
Fixpoint pad (width : nat) (n : Z) : list ascii :=
  match width with
  | O => []
  | S w => pad w (n / 10) ++ [digit_char n]
  end.

(** [Timestamp.isoformat()] of a UTC instant given in nanoseconds. *)
Definition isoformat (t : Z) : string :=
  let secs := t / sec in
  let ns := t mod sec in
  let days := secs / 86400 in
  let sod := secs mod 86400 in
  let '(y, m, d) := civil_from_days days in
  let frac :=
    if ns =? 0 then []
    else if ns mod 1000 =? 0 then "."%char :: pad 6 (ns / 1000)
    else "."%char :: pad 9 ns in
  string_of_list_ascii
    (pad 4 y ++ ["-"%char] ++ pad 2 m ++ ["-"%char] ++ pad 2 d ++ ["T"%char]
     ++ pad 2 (sod / 3600) ++ [":"%char] ++ pad 2 (sod / 60 mod 60)
     ++ [":"%char] ++ pad 2 (sod mod 60) ++ frac
     ++ list_ascii_of_string "+00:00").

Definition of_nat (n : nat) : float := PrimFloat.of_uint63 (Uint63.of_Z (Z.of_nat n)).

Definition fsum (l : list float) : float := fold_left PrimFloat.add l 0%float.

Definition mean_of (l : list float) : float :=
  PrimFloat.div (fsum l) (of_nat (length l)).

(** Sample standard deviation ([ddof=1]). *)
Definition std_of (l : list float) : float :=
  let m := mean_of l in
  let sq := map (fun x => let d := PrimFloat.sub x m in PrimFloat.mul d d) l in
  PrimFloat.sqrt (PrimFloat.div (fsum sq) (of_nat (length l - 1))).

(** [Series.rolling(window=w, min_periods=w)] followed by a statistic:
    NaN until [w] observations are available; a negative window is
    rejected.  Each window is evaluated from scratch by the defining
    formula (the library updates a running state instead); on a window of
    equal values both give the mean exactly and a deviation of exactly 0. *)
Definition rolling (stat : list float -> float) (w : Z) (value : list float)
    : option (list float) :=
  if w <? 0 then None
  else Some (map (fun i => if i + 1 <? w then Fl.NaN
                           else stat (Py.slice (i + 1 - w) (i + 1) value))
                 (Py.range 0 (Z.of_nat (length value)))).

Definition rolling_mean : Z -> list float -> option (list float) := rolling mean_of.
Definition rolling_std : Z -> list float -> option (list float) := rolling std_of.

Definition all_finite (l : list float) : bool := forallb Fl.isfinite l.

(** Least-squares slope and intercept of [y ~ slope * x + intercept]. *)
Definition lsq_slope (y x : list float) : float :=
  let n := of_nat (length x) in
  let sx := fsum x in
  let sy := fsum y in
  let sxy := fsum (map (fun p => PrimFloat.mul (fst p) (snd p)) (combine x y)) in
  let sxx := fsum (map (fun v => PrimFloat.mul v v) x) in
  PrimFloat.div (PrimFloat.sub (PrimFloat.mul n sxy) (PrimFloat.mul sx sy))
                (PrimFloat.sub (PrimFloat.mul n sxx) (PrimFloat.mul sx sx)).

Definition lsq_intercept (y x : list float) : float :=
  PrimFloat.sub (mean_of y) (PrimFloat.mul (lsq_slope y x) (mean_of x)).

Definition column (k : nat) (X : list (list float)) : list float :=
  map (fun row => nth k row Fl.NaN) X.

(** [statsmodels] rejects a design matrix with a NaN or infinite entry
    ([MissingDataError]). *)
Definition OLS_fit_params (y : list float) (X : list (list float))
    : option (list float) :=
  if forallb all_finite X
  then Some [lsq_intercept y (column 1 X); lsq_slope y (column 1 X)]
  else None.

(** [sklearn] estimators validate [X] and [y] before fitting and raise
    [ValueError] on a NaN or infinite entry.  The coefficient fitted on a
    valid input is not modelled; the least-squares slope stands in for
    it. *)
Definition sklearn_fit_coef (X : list (list float)) (y : list float)
    : option (list float) :=
  if forallb all_finite X && all_finite y
  then Some [lsq_slope y (column 0 X)]
  else None.

(** No model of the ADF test: every call is answered as a failure, which
    [compute_adf_test] catches. *)
Definition adfuller (_ : list float) : option (float * float) := None.

End Ref.

(* ===================================================================== *)
(** ** Notions used to state the properties                              *)
(* ===================================================================== *)

(** The [n] most recent items of a sequence. *)
Definition lastn {A} (n : nat) (l : list A) : list A := skipn (length l - n) l.

(** The ticks of a stream that [add_tick] files under [symbol]. *)
Definition symbol_ticks (symbol : string) (ticks : list (Z * Tick)) : list Tick :=
  map snd (List.filter
             (fun nt => String.eqb (normalize_symbol (tick_symbol (snd nt))) symbol)
             ticks).

(** The deque bound: no buffer holds more than [n] ticks. *)
Definition buffers_bounded (n : nat) (dm : DataManager) : Prop :=
  forall s, (length (buffer_of dm s) <= n)%nat.

(** The rolling windows of width [w] over a frame, oldest first. *)
Definition windows {A} (w : nat) (df : list A) : list (list A) :=
  map (fun j => firstn w (skipn j df)) (seq 0 (length df + 1 - w)).

(** The four method labels that select a regression. *)
Definition known_method (method : string) : bool :=
  let m := Str.upper method in
  String.eqb m "OLS" || String.eqb m "HUBER" || String.eqb m "THEIL-SEN"
  || String.eqb m "KALMAN".

(** The rows kept by [dropna], as [ohlcv_rows] computes them. *)
Definition kept_rows (w : Z) (pts : list PTick) : list Row :=
  match pts with
  | [] => []
  | p0 :: _ =>
      List.filter not_all_nan
        (map (raw_row w (sort_by_time pts))
           (bucket_edges w (bucket_of w (min_time (pt_time p0) pts))
                           (bucket_of w (max_time (pt_time p0) pts))))
  end.

(** [x <= y] on floats as a proposition. *)
Definition fle (x y : float) : Prop := PrimFloat.leb x y = true.

(* ===================================================================== *)
(** ** Concrete scenarios                                                *)
(* ===================================================================== *)

(** Inputs on which the model is run with the reference library models. *)
Module Scenario.

Definition tick (symbol : string) (price : float) (ts : string) : Tick :=
  {| tick_symbol := symbol; tick_price := price; tick_qty := 1%float;
     tick_ts := ts |}.

(** Three one-minute candles for each of two symbols with flat prices:
    AAA at 100 and BBB at 50. *)
Definition flat_ticks : list (Z * Tick) :=
  [(0, tick "AAA" 100%float "2024-01-01T00:00:10+00:00");
   (1, tick "BBB" 50%float "2024-01-01T00:00:20+00:00");
   (2, tick "AAA" 100%float "2024-01-01T00:01:10+00:00");
   (3, tick "BBB" 50%float "2024-01-01T00:01:20+00:00");
   (4, tick "AAA" 100%float "2024-01-01T00:02:10+00:00");
   (5, tick "BBB" 50%float "2024-01-01T00:02:20+00:00")].

Definition flat_manager : DataManager := add_ticks 100 flat_ticks DataManager_init.

(** The spread series of the flat pair under a constant hedge ratio 1. *)
Definition flat_spreads : list Point :=
  [{| p_ts := "2024-01-01T00:01:00+00:00"; p_value := 50%float |};
   {| p_ts := "2024-01-01T00:02:00+00:00"; p_value := 50%float |}].

(** 2024-01-01T00:00:00Z and one minute, in nanoseconds. *)
Definition t0 : Z := 1704067200000000000.
Definition minute : Z := 60000000000.

(** Two price series on the same three minutes; the second one has an
    infinite price in the middle. *)
Definition series_a : Series :=
  [(t0, 1%float); (t0 + minute, 2%float); (t0 + 2 * minute, 3%float)].
Definition series_b : Series :=
  [(t0, 1%float); (t0 + minute, 3%float); (t0 + 2 * minute, 2%float)].
Definition series_b_inf : Series :=
  [(t0, 1%float); (t0 + minute, PrimFloat.infinity); (t0 + 2 * minute, 2%float)].

(** Ticks spread over five minutes, with two empty minutes and a zero
    price at the end. *)
Definition gap_ticks : list Tick :=
  [tick "X" 5%float "2024-01-01T00:00:10+00:00";
   tick "X" 7%float "2024-01-01T00:00:20+00:00";
   tick "X" 6%float "2024-01-01T00:03:20+00:00";
   tick "X" 0%float "2024-01-01T00:04:20+00:00"].

(** A single tick with price zero. *)
Definition zero_tick : list Tick :=
  [tick "X" 0%float "2024-01-01T00:00:00+00:00"].

(** The engine's methods with the reference library models plugged in. *)
Definition compute_spread :=
  compute_spread Ref.to_datetime Ref.isoformat Ref.to_datetime Ref.to_datetime
    Ref.OLS_fit_params Ref.sklearn_fit_coef Ref.sklearn_fit_coef.
Definition compute_zscore :=
  compute_zscore Ref.to_datetime Ref.isoformat Ref.to_datetime Ref.to_datetime
    Ref.OLS_fit_params Ref.sklearn_fit_coef Ref.sklearn_fit_coef
    Ref.rolling_mean Ref.rolling_std.
Definition compute_adf_test :=
  compute_adf_test Ref.to_datetime Ref.isoformat Ref.to_datetime Ref.to_datetime
    Ref.OLS_fit_params Ref.sklearn_fit_coef Ref.sklearn_fit_coef Ref.adfuller.
Definition hedge_ratio_of_series :=
  hedge_ratio_of_series Ref.isoformat Ref.OLS_fit_params Ref.sklearn_fit_coef
    Ref.sklearn_fit_coef.
Definition window_ratio :=
  window_ratio Ref.OLS_fit_params Ref.sklearn_fit_coef Ref.sklearn_fit_coef.
Definition resample_to_ohlcv :=
  resample_to_ohlcv Ref.to_datetime Ref.isoformat.
Definition get_ohlcv :=
  get_ohlcv Ref.to_datetime Ref.isoformat.

End Scenario.

(** ** Notions for the properties of symbols                            *)

(** [lstrip] on the list of characters. *)
Fixpoint drop_spaces (l : list ascii) : list ascii :=
  match l with
  | [] => []
  | c :: r => if Str.is_space c then drop_spaces r else l
  end.

Definition no_leading_space (l : list ascii) : Prop :=
  match l with
  | [] => True
  | c :: _ => Str.is_space c = false
  end.

(* ===================================================================== *)
(** ** [DataManager]: statistics, operation sequences, periodic resampling *)
(* ===================================================================== *)

(** The dict returned by [get_statistics(symbol)]. *)
Record Statistics := mkStatistics {
  st_symbol       : string;
  st_tick_count   : Z;
  st_buffer_size  : nat;
  st_last_tick    : option Z;
  st_latest_price : option float;
}.

(** [DataManager.get_statistics(symbol)] for a non-empty [symbol], the
    [if symbol:] branch.  (The branch for all symbols lists the keys in
    insertion order, which the maps of the model do not record.)  The two
    [.get] reads register nothing; [get_latest_price] normalises the symbol
    once more and reads through the [defaultdict]. *)
Definition get_statistics (symbol : string) (dm : DataManager)
    : Statistics * DataManager :=
  let symbol := normalize_symbol symbol in
  ({| st_symbol := symbol;
      st_tick_count := default 0 (tick_counts dm !! symbol);
      st_buffer_size := length (default [] (tick_buffers dm !! symbol));
      st_last_tick := last_tick_time dm !! symbol;
      st_latest_price := fst (get_latest_price symbol dm) |},
   snd (get_latest_price symbol dm)).

(** The calls a client of the [DataManager] can make. *)
Inductive Op : Type :=
| Op_add_tick (now : Z) (tick : Tick)
| Op_get_ticks (symbol : string) (limit : option Z) (from_ts to_ts : option string)
| Op_get_ohlcv (symbol timeframe : string) (limit : option Z)
    (from_ts to_ts : option string) (force_resample : bool)
| Op_get_latest_price (symbol : string)
| Op_get_statistics (symbol : string)
| Op_clear_buffer (symbol : option string)
| Op_get_price_series (symbol timeframe : string) (limit : option Z)
    (force_resample : bool).

Section Operations.

Variable tick_buffer_size : nat.
Variable to_datetime_utc : string -> option Z.
Variable isoformat : Z -> string.
Variable to_datetime : string -> option Z.

(** The manager after one call (results and exceptions dropped). *)
Definition run_op (op : Op) (dm : DataManager) : DataManager :=
  match op with
  | Op_add_tick now tick => add_tick tick_buffer_size now tick dm
  | Op_get_ticks symbol limit from_ts to_ts =>
      snd (get_ticks symbol limit from_ts to_ts dm)
  | Op_get_ohlcv symbol timeframe limit from_ts to_ts force =>
      snd (get_ohlcv to_datetime_utc isoformat symbol timeframe limit
             from_ts to_ts force dm)
  | Op_get_latest_price symbol => snd (get_latest_price symbol dm)
  | Op_get_statistics symbol => snd (get_statistics symbol dm)
  | Op_clear_buffer symbol => clear_buffer symbol dm
  | Op_get_price_series symbol timeframe limit force =>
      snd (get_price_series to_datetime_utc isoformat to_datetime symbol
             timeframe limit force dm)
  end.

Definition run_ops (ops : list Op) (dm : DataManager) : DataManager :=
  fold_left (fun st op => run_op op st) ops dm.

(** One pass of the body of [DataManager.resample_loop] (after the sleep):
    for each key of the tick buffers and each configured timeframe a forced
    [get_ohlcv], whose exception is caught and logged.  [symbols] is
    [list(self.tick_buffers.keys())], [timeframes] is
    [settings.resample_intervals_list]. *)
Definition resample_one (symbol timeframe : string) (dm : DataManager) : DataManager :=
  snd (get_ohlcv to_datetime_utc isoformat symbol timeframe None None None true dm).

Definition resample_pass (symbols timeframes : list string) (dm : DataManager)
    : DataManager :=
  fold_left
    (fun st symbol =>
       fold_left (fun st' timeframe => resample_one symbol timeframe st')
                 timeframes st)
    symbols dm.

(** What a forced fetch computes from the snapshot of a buffer:
    the body of [get_price_series] below the cache lookup. *)
Definition price_series_of_ticks (timeframe : string) (limit : option Z)
    (ticks : list Tick) : option Series :=
  match ticks with
  | [] => Some []
  | _ =>
      match resample_to_ohlcv to_datetime_utc isoformat ticks
              (timeframe_to_pandas_rule timeframe) with
      | None => None
      | Some [] => Some []
      | Some df => close_series to_datetime limit df
      end
  end.

End Operations.

(** The counters agree with the buffers: a counter is the number of ticks
    filed since the buffer was last cleared, of which the buffer holds the
    newest [n]. *)
Definition counts_consistent (n : nat) (dm : DataManager) : Prop :=
  forall s, 0 <= count_of dm s
            /\ Z.of_nat (length (buffer_of dm s)) = Z.min (count_of dm s) (Z.of_nat n).

(** Every key of the buffers and of the cache is a normalised symbol. *)
Definition keys_normalized (dm : DataManager) : Prop :=
  (forall s, is_Some (tick_buffers dm !! s) -> normalize_symbol s = s)
  /\ (forall s tf, is_Some (ohlcv_cache dm !! (s, tf)) -> normalize_symbol s = s)
  /\ (forall s, is_Some (tick_counts dm !! s) -> is_Some (tick_buffers dm !! s)).

(** What the manager keeps true across every call. *)
Definition manager_invariant (n : nat) (dm : DataManager) : Prop :=
  buffers_bounded n dm /\ counts_consistent n dm /\ keys_normalized dm.

(** A read leaves behind at most a registered default deque and a cache
    entry under a normalised symbol. *)
Inductive read_trace : DataManager -> DataManager -> Prop :=
| rt_refl dm : read_trace dm dm
| rt_touch dm dm' s :
    read_trace dm dm' -> read_trace dm (touch_buffer (normalize_symbol s) dm')
| rt_cache dm dm' s tf df :
    read_trace dm dm' -> read_trace dm (set_cache (normalize_symbol s, tf) df dm').


Section FreshFrame.

Variable to_datetime_utc : string -> option Z.
Variable isoformat : Z -> string.

(** The frame a forced resample of a symbol's whole buffer produces, when
    there is one: none for an empty buffer or when resampling raises. *)
Definition fresh_frame (dm : DataManager) (symbol timeframe : string)
    : option (list Candle) :=
  match buffer_of dm symbol with
  | [] => None
  | ticks => resample_to_ohlcv to_datetime_utc isoformat ticks
               (timeframe_to_pandas_rule timeframe)
  end.

End FreshFrame.


(** The candle that the last steps of [resample_to_ohlcv] make of one kept
    row when no price needs filling. *)
Definition finish_row (isoformat : Z -> string) (r : Row) : Candle :=
  let high := Fl.nanmax [r_open r; r_high r; r_low r; r_close r] in
  {| c_ts := isoformat (r_time r); c_open := r_open r; c_high := high;
     c_low := Fl.nanmin [r_open r; high; r_low r; r_close r];
     c_close := r_close r; c_volume := Fl.fillna 0%float (r_volume r) |}.

(** A usable price: a number other than zero. *)
Definition valid_price (p : float) : Prop :=
  Fl.isnan p = false /\ PrimFloat.eqb p 0%float = false.


(** The order in which one pass of the resampler visits its keys. *)
Definition pairs_of (symbols timeframes : list string) : list (string * string) :=
  flat_map (fun s => map (pair s) timeframes) symbols.

(* ===================================================================== *)
(** ** [AnalyticsEngine]: rolling correlation and the pair bundle        *)
(* ===================================================================== *)

(** [str.split(sep)] for a one-character separator: the pieces between
    the occurrences of [sep], empty pieces included. *)
Fixpoint str_split (sep : ascii) (s : string) : list string :=
  match s with
  | EmptyString => [EmptyString]
  | String c r =>
      if Ascii.eqb c sep then EmptyString :: str_split sep r
      else match str_split sep r with
           | [] => [String c EmptyString]
           | piece :: pieces => String c piece :: pieces
           end
  end.

(** What [compute_pair_analytics] returns: [{}] for a malformed pair, the
    dict [{pair, error}] when one of the computations raises, and the
    bundle of the five results otherwise. *)
Inductive PairAnalytics : Type :=
| PA_empty
| PA_error (pair : string)
| PA_bundle (pair : string) (hedge_ratio spread zscore rolling_corr : list Point)
    (adf : Adf).

Section AnalyticsBundle.

Variable to_datetime_utc : string -> option Z.
Variable isoformat : Z -> string.
Variable to_datetime : string -> option Z.
Variable Timestamp : string -> option Z.
Variable OLS_fit_params : list float -> list (list float) -> option (list float).
Variable HuberRegressor_fit_coef : list (list float) -> list float -> option (list float).
Variable TheilSenRegressor_fit_coef : list (list float) -> list float -> option (list float).
Variable rolling_mean : Z -> list float -> option (list float).
Variable rolling_std : Z -> list float -> option (list float).
Variable adfuller : list float -> option (float * float).
(** [a.rolling(window=w, min_periods=w).corr(b)] on two columns of one
    frame: one entry per row. *)
Variable rolling_corr : Z -> list float -> list float -> option (list float).

(** The loop [for idx, corr in rolling_corr.items()]. *)
Fixpoint corr_rows (index : list Z) (corr : list float) : list Point :=
  match index, corr with
  | idx :: index', c :: corr' =>
      let rest := corr_rows index' corr' in
      if Fl.notna c then {| p_ts := isoformat idx; p_value := c |} :: rest
      else rest
  | _, _ => []
  end.

(** [compute_rolling_correlation] from the two price series on. *)
Definition correlation_of_series (prices_a prices_b : Series) (window : Z)
    : option (list Point) :=
  let df := align prices_a prices_b in
  if (length df <? 2)%nat then Some []
  else
    let effective_window := Z.min window (Z.of_nat (length df)) in
    match rolling_corr effective_window (map ar_a df) (map ar_b df) with
    | Some corr => Some (corr_rows (map ar_time df) corr)
    | None => None
    end.

Local Open Scope m_scope.

(** [AnalyticsEngine.compute_rolling_correlation]. *)
Definition compute_rolling_correlation (symbol_a symbol_b timeframe : string)
    (window : Z) : M (list Point) :=
  let* prices_a := get_price_series to_datetime_utc isoformat to_datetime
                     symbol_a timeframe (series_limit window) true in
  let* prices_b := get_price_series to_datetime_utc isoformat to_datetime
                     symbol_b timeframe (series_limit window) true in
  lift_option (correlation_of_series prices_a prices_b window).

(** The [try] block of [compute_pair_analytics]. *)
Definition pair_bundle (pair symbol_a symbol_b timeframe : string) (window : Z)
    (regression : string) : M PairAnalytics :=
  let* hedge_ratio :=
    compute_hedge_ratio to_datetime_utc isoformat to_datetime OLS_fit_params
      HuberRegressor_fit_coef TheilSenRegressor_fit_coef
      symbol_a symbol_b timeframe window regression in
  let* spread :=
    compute_spread to_datetime_utc isoformat to_datetime Timestamp OLS_fit_params
      HuberRegressor_fit_coef TheilSenRegressor_fit_coef
      symbol_a symbol_b timeframe window regression in
  let* zscore :=
    compute_zscore to_datetime_utc isoformat to_datetime Timestamp OLS_fit_params
      HuberRegressor_fit_coef TheilSenRegressor_fit_coef rolling_mean rolling_std
      symbol_a symbol_b timeframe window regression in
  let* rolling_corr := compute_rolling_correlation symbol_a symbol_b timeframe window in
  let* adf :=
    compute_adf_test to_datetime_utc isoformat to_datetime Timestamp OLS_fit_params
      HuberRegressor_fit_coef TheilSenRegressor_fit_coef adfuller
      symbol_a symbol_b timeframe window regression in
  ret (PA_bundle pair hedge_ratio spread zscore rolling_corr adf).

(** [AnalyticsEngine.compute_pair_analytics]: it never raises. *)
Definition compute_pair_analytics (pair timeframe : string) (window : Z)
    (regression : string) (dm : DataManager) : PairAnalytics * DataManager :=
  match str_split "-" pair with
  | [symbol_a; symbol_b] =>
      match pair_bundle pair symbol_a symbol_b timeframe window regression dm with
      | (Some bundle, dm') => (bundle, dm')
      | (None, dm') => (PA_error pair, dm')
      end
  | _ => (PA_empty, dm)
  end.

End AnalyticsBundle.

(** A computation that only reads the manager: it leaves behind at most
    registered default deques and cache entries. *)
Definition reads_only {A} (c : M A) : Prop :=
  forall dm, read_trace dm (snd (c dm)).

(** A computation whose result depends on the manager only through the
    buffers of the listed symbols. *)
Definition buffer_determined {A} (symbols : list string) (c : M A) : Prop :=
  forall dm dm',
    (forall s, In s symbols -> buffer_of dm s = buffer_of dm' s) ->
    fst (c dm) = fst (c dm').

(** The number of hyphens in a pair string. *)
Definition hyphens (pair : string) : nat :=
  length (List.filter (fun c => Ascii.eqb c "-") (list_ascii_of_string pair)).

Section CacheRefresh.

Variable to_datetime_utc : string -> option Z.
Variable isoformat : Z -> string.

(** A computation that writes nothing into the cache but frames resampled
    from the whole buffer of the entry's symbol. *)
Definition refreshes {A} (c : M A) : Prop :=
  forall dm key,
    ohlcv_cache (snd (c dm)) !! key = ohlcv_cache dm !! key
    \/ exists df, fresh_frame to_datetime_utc isoformat dm (fst key) (snd key) = Some df
                  /\ ohlcv_cache (snd (c dm)) !! key = Some df.

(** A computation that, started in a state satisfying [Q], leaves the
    non-empty fresh frame of [key] in the cache. *)
Definition establishes {A} (Q : DataManager -> Prop) (key : string * string)
    (c : M A) : Prop :=
  forall dm cd df,
    Q dm ->
    fresh_frame to_datetime_utc isoformat dm (fst key) (snd key) = Some (cd :: df) ->
    ohlcv_cache (snd (c dm)) !! key = Some (cd :: df).

End CacheRefresh.

(* ===================================================================== *)
(** ** [core/alerts_engine.py]: class [AlertsEngine]                     *)
(* ===================================================================== *)

(** The dataclass [Alert]. *)
Record Alert := mkAlert {
  a_id            : string;
  a_metric        : string;
  a_pair          : string;
  a_operator      : string;
  a_value         : float;
  a_active        : bool;
  a_created_at    : string;
  a_triggered_at  : option string;
  a_trigger_count : Z;
}.

(** The dataclass [AlertNotification]. *)
Record AlertNotification := mkAlertNotification {
  n_id              : string;
  n_alert_id        : string;
  n_message         : string;
  n_metric          : string;
  n_pair            : string;
  n_actual_value    : float;
  n_threshold_value : float;
  n_ts              : string;
}.

(** A [dict] with string keys in insertion order, as [values()] and the
    monitoring loop see it. *)
Module Dict.

Fixpoint get {V} (k : string) (d : list (string * V)) : option V :=
  match d with
  | [] => None
  | (k', v) :: r => if String.eqb k' k then Some v else get k r
  end.

(** [d[k] = v]: an existing key keeps its place, a new key goes last. *)
Fixpoint set {V} (k : string) (v : V) (d : list (string * V)) : list (string * V) :=
  match d with
  | [] => [(k, v)]
  | (k', v') :: r => if String.eqb k' k then (k', v) :: r else (k', v') :: set k v r
  end.

(** [del d[k]]. *)
Definition del {V} (k : string) (d : list (string * V)) : list (string * V) :=
  List.filter (fun kv => negb (String.eqb (fst kv) k)) d.

Definition values {V} (d : list (string * V)) : list V := map snd d.

End Dict.

(** The state of an [AlertsEngine]: the alert rules by id and the history
    of notifications.  (The registered callbacks are observers: they
    receive each notification and their exceptions are caught; they are
    taken not to call back into the engine.) *)
Record AlertsEngine := mkAlertsEngine {
  alerts           : list (string * Alert);
  triggered_alerts : list AlertNotification;
}.

(** [AlertsEngine.__init__]. *)
Definition AlertsEngine_init : AlertsEngine :=
  {| alerts := []; triggered_alerts := [] |}.

(** [AlertsEngine.add_alert]; [uid] is [str(uuid4())] and [now] the
    creation time, both drawn by the dataclass defaults. *)
Definition add_alert (uid now : string) (metric pair operator : string)
    (value : float) (eng : AlertsEngine) : Alert * AlertsEngine :=
  let alert :=
    {| a_id := uid; a_metric := Str.lower metric; a_pair := Str.upper pair;
       a_operator := operator; a_value := value; a_active := true;
       a_created_at := now; a_triggered_at := None; a_trigger_count := 0 |} in
  (alert,
   {| alerts := Dict.set (a_id alert) alert (alerts eng);
      triggered_alerts := triggered_alerts eng |}).

(** [AlertsEngine.remove_alert]. *)
Definition remove_alert (alert_id : string) (eng : AlertsEngine)
    : bool * AlertsEngine :=
  match Dict.get alert_id (alerts eng) with
  | Some _ =>
      (true, {| alerts := Dict.del alert_id (alerts eng);
                triggered_alerts := triggered_alerts eng |})
  | None => (false, eng)
  end.

(** [AlertsEngine.get_alert]. *)
Definition get_alert (alert_id : string) (eng : AlertsEngine) : option Alert :=
  Dict.get alert_id (alerts eng).

(** [AlertsEngine.get_all_alerts]. *)
Definition get_all_alerts (eng : AlertsEngine) : list Alert :=
  Dict.values (alerts eng).

(** [AlertsEngine.get_active_alerts]. *)
Definition get_active_alerts (eng : AlertsEngine) : list Alert :=
  List.filter a_active (Dict.values (alerts eng)).

(** [AlertsEngine.get_triggered_alerts]. *)
Definition get_triggered_alerts (limit : option Z) (eng : AlertsEngine)
    : list AlertNotification :=
  match limit with
  | Some k => if k =? 0 then triggered_alerts eng
              else Py.tail_limit k (triggered_alerts eng)
  | None => triggered_alerts eng
  end.

(** [AlertsEngine.clear_triggered_alerts]. *)
Definition clear_triggered_alerts (eng : AlertsEngine) : AlertsEngine :=
  {| alerts := alerts eng; triggered_alerts := [] |}.

(** [values[-1]["value"] if values else None]. *)
Definition last_value (values : list Point) : option float :=
  p_value <$> last values.

Definition nonempty {X} (l : list X) : bool :=
  match l with
  | [] => false
  | _ => true
  end.

Section AlertChecks.

Variable to_datetime_utc : string -> option Z.
Variable isoformat : Z -> string.
Variable to_datetime : string -> option Z.
Variable Timestamp : string -> option Z.
Variable OLS_fit_params : list float -> list (list float) -> option (list float).
Variable HuberRegressor_fit_coef : list (list float) -> list float -> option (list float).
Variable TheilSenRegressor_fit_coef : list (list float) -> list float -> option (list float).
Variable rolling_mean : Z -> list float -> option (list float).
Variable rolling_std : Z -> list float -> option (list float).
Variable adfuller : list float -> option (float * float).
Variable rolling_corr : Z -> list float -> list float -> option (list float).
(** [str(x)] of a float, as an f-string prints it. *)
Variable str_of_float : float -> string.

(** [AlertsEngine._get_metric_value]; the result [None] is Python's
    [None].  Nothing it calls raises: [compute_pair_analytics] catches the
    exceptions of the analytics. *)
Definition _get_metric_value (metric pair : string) (dm : DataManager)
    : option float * DataManager :=
  let metric := Str.lower metric in
  if String.eqb metric "price" then get_latest_price pair dm
  else if String.eqb metric "zscore" || String.eqb metric "spread"
          || String.eqb metric "correlation" then
    let '(analytics, dm') :=
      compute_pair_analytics to_datetime_utc isoformat to_datetime Timestamp
        OLS_fit_params HuberRegressor_fit_coef TheilSenRegressor_fit_coef
        rolling_mean rolling_std adfuller rolling_corr pair "1m" 60 "OLS" dm in
    (match analytics with
     | PA_bundle _ _ spread zscore corr _ =>
         if String.eqb metric "zscore" && nonempty zscore then last_value zscore
         else if String.eqb metric "spread" && nonempty spread then last_value spread
         else if String.eqb metric "correlation" && nonempty corr then last_value corr
         else None
     | PA_error _ => None
     | PA_empty => None
     end, dm')
  else (None, dm).

(** The f-string of the notification message. *)
Definition alert_message (alert : Alert) : string :=
  (a_metric alert ++ " " ++ a_operator alert ++ " " ++ str_of_float (a_value alert)
   ++ " for " ++ a_pair alert)%string.

(** [AlertsEngine.check_alert]: the notification, if any, and the alert
    object as the call leaves it; [uid] and [now] are the id and the time
    drawn for the notification. *)
Definition check_alert (uid now : string) (alert : Alert) (dm : DataManager)
    : (option AlertNotification * Alert) * DataManager :=
  let '(actual_value, dm') := _get_metric_value (a_metric alert) (a_pair alert) dm in
  match actual_value with
  | None => ((None, alert), dm')
  | Some actual =>
      if _evaluate_condition actual (a_operator alert) (a_value alert) then
        let notification :=
          {| n_id := uid; n_alert_id := a_id alert;
             n_message := alert_message alert;
             n_metric := a_metric alert; n_pair := a_pair alert;
             n_actual_value := actual; n_threshold_value := a_value alert;
             n_ts := now |} in
        ((Some notification,
          {| a_id := a_id alert; a_metric := a_metric alert; a_pair := a_pair alert;
             a_operator := a_operator alert; a_value := a_value alert;
             a_active := a_active alert; a_created_at := a_created_at alert;
             a_triggered_at := Some (n_ts notification);
             a_trigger_count := a_trigger_count alert + 1 |}),
         dm')
      else ((None, alert), dm')
  end.

(** The loop [for alert in active_alerts] of [monitor_alerts] over the
    entries of the dict: the alert objects are shared with the dict, so
    what [check_alert] writes into an alert is seen under its key.  The
    [i]-th check draws the id and the time [fresh i]. *)
Fixpoint monitor_entries (fresh : nat -> string * string) (i : nat)
    (entries : list (string * Alert)) (dm : DataManager)
    : list (string * Alert) * list AlertNotification * DataManager :=
  match entries with
  | [] => ([], [], dm)
  | (k, alert) :: rest =>
      if a_active alert then
        let '((notification, alert'), dm1) :=
          check_alert (fst (fresh i)) (snd (fresh i)) alert dm in
        let '(rest', notifications, dm2) := monitor_entries fresh (S i) rest dm1 in
        ((k, alert') :: rest',
         match notification with
         | Some n => n :: notifications
         | None => notifications
         end,
         dm2)
      else
        let '(rest', notifications, dm2) := monitor_entries fresh i rest dm in
        ((k, alert) :: rest', notifications, dm2)
  end.

(** One iteration of the loop of [monitor_alerts], up to the sleep. *)
Definition monitor_pass (fresh : nat -> string * string) (eng : AlertsEngine)
    (dm : DataManager) : AlertsEngine * DataManager :=
  let '(entries, notifications, dm') := monitor_entries fresh 0 (alerts eng) dm in
  ({| alerts := entries;
      triggered_alerts := triggered_alerts eng ++ notifications |},
   dm').

(** The first [n] iterations of the loop of [monitor_alerts] when no
    tick arrives in between; the [j]-th iteration draws its ids and times
    from [fresh j]. *)
Fixpoint monitor_passes (fresh : nat -> nat -> string * string) (n : nat)
    (eng : AlertsEngine) (dm : DataManager) : AlertsEngine * DataManager :=
  match n with
  | O => (eng, dm)
  | S n' =>
      let '(eng1, dm1) := monitor_pass (fresh O) eng dm in
      monitor_passes (fun j => fresh (S j)) n' eng1 dm1
  end.

End AlertChecks.

(** The number of times the alerts of an engine have fired. *)
Definition total_triggers (entries : list (string * Alert)) : Z :=
  fold_right (fun kv acc => a_trigger_count (snd kv) + acc) 0 entries.

(** Two versions of an alert object that differ at most in what
    [check_alert] writes. *)
Definition same_rule (a a' : Alert) : Prop :=
  a_id a' = a_id a /\ a_metric a' = a_metric a /\ a_pair a' = a_pair a
  /\ a_operator a' = a_operator a /\ a_value a' = a_value a
  /\ a_active a' = a_active a /\ a_created_at a' = a_created_at a.

(** A notification that reports the firing of a rule. *)
Definition notifies (alert : Alert) (n : AlertNotification) : Prop :=
  n_alert_id n = a_id alert /\ n_metric n = a_metric alert
  /\ n_pair n = a_pair alert /\ n_threshold_value n = a_value alert
  /\ _evaluate_condition (n_actual_value n) (a_operator alert) (a_value alert) = true.


(** Further inputs for the properties of the manager and the resampler. *)
Module Cases.

(** The flat manager after one non-forced candle request for AAA. *)
Definition cached_manager : DataManager :=
  snd (Scenario.get_ohlcv "AAA" "1m" None None None false Scenario.flat_manager).


(** Three priced ticks over two minutes. *)
Definition priced_ticks : list Tick :=
  [Scenario.tick "X" 5%float "2024-01-01T00:00:10+00:00";
   Scenario.tick "X" 7%float "2024-01-01T00:00:20+00:00";
   Scenario.tick "X" 6%float "2024-01-01T00:01:20+00:00"].

(** The calls that build the flat manager. *)
Definition flat_ops : list Op :=
  map (fun nt => Op_add_tick (fst nt) (snd nt)) Scenario.flat_ticks.

(** Two symbols whose one-minute closes move together:
    UP at 100, 101, 103 and DN at 50, 51, 52. *)
Definition trend_ticks : list (Z * Tick) :=
  [(0, Scenario.tick "UP" 100%float "2024-01-01T00:00:10+00:00");
   (1, Scenario.tick "DN" 50%float "2024-01-01T00:00:20+00:00");
   (2, Scenario.tick "UP" 101%float "2024-01-01T00:01:10+00:00");
   (3, Scenario.tick "DN" 51%float "2024-01-01T00:01:20+00:00");
   (4, Scenario.tick "UP" 103%float "2024-01-01T00:02:10+00:00");
   (5, Scenario.tick "DN" 52%float "2024-01-01T00:02:20+00:00")].

Definition trend_manager : DataManager := add_ticks 100 trend_ticks DataManager_init.

(** Pearson correlation of two samples, by the defining formula. *)
Definition corr_of (x y : list float) : float :=
  let mx := Ref.mean_of x in
  let my := Ref.mean_of y in
  let dx := map (fun v => PrimFloat.sub v mx) x in
  let dy := map (fun v => PrimFloat.sub v my) y in
  let sxy := Ref.fsum (map (fun p => PrimFloat.mul (fst p) (snd p)) (combine dx dy)) in
  let sxx := Ref.fsum (map (fun v => PrimFloat.mul v v) dx) in
  let syy := Ref.fsum (map (fun v => PrimFloat.mul v v) dy) in
  PrimFloat.div sxy (PrimFloat.sqrt (PrimFloat.mul sxx syy)).

(** Stand-in for the rolling correlation of the library: NaN until the
    window is full, each window evaluated from scratch. *)
Definition rolling_corr (w : Z) (x y : list float) : option (list float) :=
  if w <? 0 then None
  else Some (map (fun i => if i + 1 <? w then Fl.NaN
                           else corr_of (Py.slice (i + 1 - w) (i + 1) x)
                                        (Py.slice (i + 1 - w) (i + 1) y))
                 (Py.range 0 (Z.of_nat (length x)))).

(** The printing of floats is not modelled: every number is shown by the
    same placeholder. *)
Definition str_of_float (_ : float) : string := "<float>".

(** The methods with the stand-ins plugged in. *)
Definition fetch := get_price_series Ref.to_datetime Ref.isoformat Ref.to_datetime.
Definition compute_hedge_ratio :=
  compute_hedge_ratio Ref.to_datetime Ref.isoformat Ref.to_datetime
    Ref.OLS_fit_params Ref.sklearn_fit_coef Ref.sklearn_fit_coef.
Definition compute_rolling_correlation :=
  compute_rolling_correlation Ref.to_datetime Ref.isoformat Ref.to_datetime
    rolling_corr.
Definition check_alert :=
  check_alert Ref.to_datetime Ref.isoformat Ref.to_datetime Ref.to_datetime
    Ref.OLS_fit_params Ref.sklearn_fit_coef Ref.sklearn_fit_coef
    Ref.rolling_mean Ref.rolling_std Ref.adfuller rolling_corr str_of_float.
Definition monitor_passes :=
  monitor_passes Ref.to_datetime Ref.isoformat Ref.to_datetime Ref.to_datetime
    Ref.OLS_fit_params Ref.sklearn_fit_coef Ref.sklearn_fit_coef
    Ref.rolling_mean Ref.rolling_std Ref.adfuller rolling_corr str_of_float.

(** An engine holding one rule: the price of AAA above 99. *)
Definition price_rule : Alert :=
  fst (add_alert "rule-1" "2024-01-01T00:00:00+00:00" "Price" "aaa" ">"
         99%float AlertsEngine_init).
Definition price_engine : AlertsEngine :=
  snd (add_alert "rule-1" "2024-01-01T00:00:00+00:00" "Price" "aaa" ">"
         99%float AlertsEngine_init).

(** Ids and times for the notifications of a test run. *)
Definition fresh (pass check : nat) : string * string :=
  (String (ascii_of_nat (48 + pass)) (String (ascii_of_nat (48 + check)) EmptyString),
   "2024-01-01T00:03:00+00:00").

End Cases.

(* ===================================================================== *)
(** * Properties                                                         *)
(* ===================================================================== *)

(** ** The order of binary64 values                                      *)

Module FlFacts.

Ltac sf_cases :=
  repeat match goal with
  | s : bool |- _ => destruct s
  end;
  cbn [CompOpp];
  change (PosDef.Pos.compare_cont Eq) with Pos.compare;
  repeat match goal with
  | |- context [Z.compare ?a ?b] => destruct (Z.compare_spec a b); subst
  | |- context [Pos.compare ?a ?b] => destruct (Pos.compare_spec a b); subst
  end;
  cbn [CompOpp];
  intros; try reflexivity; try discriminate; try lia.

Lemma SFleb_trans x y z :
  SFleb x y = true -> SFleb y z = true -> SFleb x z = true.
Proof.
  unfold SFleb, SFcompare.
  destruct x as [sx|sx| |sx mx ex], y as [sy|sy| |sy my ey],
           z as [sz|sz| |sz mz ez]; sf_cases.
Qed.

Lemma SFleb_total x y :
  SFeqb x x = true -> SFeqb y y = true -> SFltb x y = false -> SFleb y x = true.
Proof.
  unfold SFleb, SFltb, SFeqb, SFcompare.
  destruct x as [sx|sx| |sx mx ex], y as [sy|sy| |sy my ey]; sf_cases.
Qed.

Lemma SFltb_leb x y : SFltb x y = true -> SFleb x y = true.
Proof.
  unfold SFleb, SFltb.
  destruct (SFcompare x y) as [[]|]; intros; try reflexivity; discriminate.
Qed.

Lemma SFleb_refl x : SFeqb x x = true -> SFleb x x = true.
Proof.
  unfold SFleb, SFeqb.
  destruct (SFcompare x x) as [[]|]; intros; try reflexivity; discriminate.
Qed.

Lemma notna_self x : Fl.isnan x = false -> SFeqb (Prim2SF x) (Prim2SF x) = true.
Proof.
  unfold Fl.isnan, PrimFloat.is_nan. rewrite FloatAxioms.eqb_spec.
  intros H. apply negb_false_iff in H. exact H.
Qed.

Lemma leb_trans x y z :
  PrimFloat.leb x y = true -> PrimFloat.leb y z = true -> PrimFloat.leb x z = true.
Proof. rewrite !FloatAxioms.leb_spec. apply SFleb_trans. Qed.

Lemma leb_refl x : Fl.isnan x = false -> PrimFloat.leb x x = true.
Proof.
  intros H. rewrite FloatAxioms.leb_spec. apply SFleb_refl, notna_self, H.
Qed.

Lemma ltb_leb x y : PrimFloat.ltb x y = true -> PrimFloat.leb x y = true.
Proof. rewrite FloatAxioms.ltb_spec, FloatAxioms.leb_spec. apply SFltb_leb. Qed.

Lemma nlt_leb x y :
  Fl.isnan x = false -> Fl.isnan y = false ->
  PrimFloat.ltb x y = false -> PrimFloat.leb y x = true.
Proof.
  intros Hx Hy. rewrite FloatAxioms.ltb_spec, FloatAxioms.leb_spec.
  apply SFleb_total; apply notna_self; assumption.
Qed.

(** [fmax2] never loses a non-NaN accumulator and dominates both
    arguments. *)
Lemma fmax2_acc acc x :
  Fl.isnan acc = false ->
  Fl.isnan (Fl.fmax2 acc x) = false /\ PrimFloat.leb acc (Fl.fmax2 acc x) = true.
Proof.
  intros Ha. unfold Fl.fmax2.
  destruct (Fl.isnan x) eqn:Hx.
  - split; [exact Ha | apply leb_refl, Ha].
  - rewrite Ha. destruct (PrimFloat.ltb acc x) eqn:Hlt.
    + split; [exact Hx | apply ltb_leb, Hlt].
    + split; [exact Ha | apply leb_refl, Ha].
Qed.

Lemma fmax2_arg acc x :
  Fl.isnan x = false ->
  Fl.isnan (Fl.fmax2 acc x) = false /\ PrimFloat.leb x (Fl.fmax2 acc x) = true.
Proof.
  intros Hx. unfold Fl.fmax2. rewrite Hx.
  destruct (Fl.isnan acc) eqn:Ha.
  - split; [exact Hx | apply leb_refl, Hx].
  - destruct (PrimFloat.ltb acc x) eqn:Hlt.
    + split; [exact Hx | apply leb_refl, Hx].
    + split; [exact Ha | apply nlt_leb; assumption].
Qed.

Lemma fold_fmax2_acc l : forall acc,
  Fl.isnan acc = false ->
  Fl.isnan (fold_left Fl.fmax2 l acc) = false
  /\ PrimFloat.leb acc (fold_left Fl.fmax2 l acc) = true.
Proof.
  induction l as [|y l IH]; intros acc Ha; cbn [fold_left].
  - split; [exact Ha | apply leb_refl, Ha].
  - destruct (fmax2_acc acc y Ha) as [Hn Hle].
    destruct (IH _ Hn) as [Hn' Hle'].
    split; [exact Hn' | eapply leb_trans; eassumption].
Qed.

Lemma fold_fmax2_in l : forall acc x,
  In x l -> Fl.isnan x = false ->
  Fl.isnan (fold_left Fl.fmax2 l acc) = false
  /\ PrimFloat.leb x (fold_left Fl.fmax2 l acc) = true.
Proof.
  induction l as [|y l IH]; intros acc x Hin Hx; [destruct Hin|].
  cbn [fold_left]. destruct Hin as [->|Hin].
  - destruct (fmax2_arg acc x Hx) as [Hn Hle].
    destruct (fold_fmax2_acc l _ Hn) as [Hn' Hle'].
    split; [exact Hn' | eapply leb_trans; eassumption].
  - apply IH; assumption.
Qed.

Lemma fmin2_acc acc x :
  Fl.isnan acc = false ->
  Fl.isnan (Fl.fmin2 acc x) = false /\ PrimFloat.leb (Fl.fmin2 acc x) acc = true.
Proof.
  intros Ha. unfold Fl.fmin2.
  destruct (Fl.isnan x) eqn:Hx.
  - split; [exact Ha | apply leb_refl, Ha].
  - rewrite Ha. destruct (PrimFloat.ltb x acc) eqn:Hlt.
    + split; [exact Hx | apply ltb_leb, Hlt].
    + split; [exact Ha | apply leb_refl, Ha].
Qed.

Lemma fmin2_arg acc x :
  Fl.isnan x = false ->
  Fl.isnan (Fl.fmin2 acc x) = false /\ PrimFloat.leb (Fl.fmin2 acc x) x = true.
Proof.
  intros Hx. unfold Fl.fmin2. rewrite Hx.
  destruct (Fl.isnan acc) eqn:Ha.
  - split; [exact Hx | apply leb_refl, Hx].
  - destruct (PrimFloat.ltb x acc) eqn:Hlt.
    + split; [exact Hx | apply leb_refl, Hx].
    + split; [exact Ha | apply nlt_leb; assumption].
Qed.

Lemma fold_fmin2_acc l : forall acc,
  Fl.isnan acc = false ->
  Fl.isnan (fold_left Fl.fmin2 l acc) = false
  /\ PrimFloat.leb (fold_left Fl.fmin2 l acc) acc = true.
Proof.
  induction l as [|y l IH]; intros acc Ha; cbn [fold_left].
  - split; [exact Ha | apply leb_refl, Ha].
  - destruct (fmin2_acc acc y Ha) as [Hn Hle].
    destruct (IH _ Hn) as [Hn' Hle'].
    split; [exact Hn' | eapply leb_trans; eassumption].
Qed.

Lemma fold_fmin2_in l : forall acc x,
  In x l -> Fl.isnan x = false ->
  Fl.isnan (fold_left Fl.fmin2 l acc) = false
  /\ PrimFloat.leb (fold_left Fl.fmin2 l acc) x = true.
Proof.
  induction l as [|y l IH]; intros acc x Hin Hx; [destruct Hin|].
  cbn [fold_left]. destruct Hin as [->|Hin].
  - destruct (fmin2_arg acc x Hx) as [Hn Hle].
    destruct (fold_fmin2_acc l _ Hn) as [Hn' Hle'].
    split; [exact Hn' | eapply leb_trans; eassumption].
  - apply IH; assumption.
Qed.

(** A non-NaN entry of a row is bounded by the row's [nanmax] and
    [nanmin], which are then not NaN either. *)
Lemma nanmax_ge l x :
  In x l -> Fl.isnan x = false ->
  Fl.isnan (Fl.nanmax l) = false /\ PrimFloat.leb x (Fl.nanmax l) = true.
Proof. apply fold_fmax2_in. Qed.

Lemma nanmin_le l x :
  In x l -> Fl.isnan x = false ->
  Fl.isnan (Fl.nanmin l) = false /\ PrimFloat.leb (Fl.nanmin l) x = true.
Proof. apply fold_fmin2_in. Qed.

End FlFacts.

(** ** The tick buffer                                                   *)

Section BufferFacts.

Context {A : Type}.
Implicit Types (l d : list A) (x : A).

Lemma lastn_all n l : (length l <= n)%nat -> lastn n l = l.
Proof.
  intros H. unfold lastn. replace (length l - n)%nat with 0%nat by lia.
  reflexivity.
Qed.

Lemma length_lastn n l : length (lastn n l) = Nat.min n (length l).
Proof. unfold lastn. rewrite length_drop. lia. Qed.

Lemma lastn_app_l n l r : lastn n (lastn n l ++ r) = lastn n (l ++ r).
Proof.
  destruct (Nat.le_gt_cases (length l) n) as [Hle|Hgt].
  - rewrite (lastn_all n l Hle). reflexivity.
  - unfold lastn. rewrite !length_app, length_drop.
    replace (length l - (length l - n) + length r - n)%nat
      with (length r) by lia.
    replace (length l + length r - n)%nat
      with ((length l - n) + length r)%nat by lia.
    rewrite <- drop_drop. f_equal.
    rewrite drop_app_le by lia. reflexivity.
Qed.

(** A bounded deque keeps the newest [maxlen] items. *)
Lemma deque_append_lastn n d x :
  (length d <= n)%nat -> deque_append n d x = lastn n (d ++ [x]).
Proof.
  intros Hd. unfold deque_append, lastn.
  rewrite length_app. cbn [length].
  destruct (Nat.ltb_spec n (length d + 1)) as [Hlt|Hge].
  - replace (length d + 1 - n)%nat with 1%nat by lia.
    destruct (d ++ [x]); reflexivity.
  - replace (length d + 1 - n)%nat with 0%nat by lia. reflexivity.
Qed.

Lemma deque_append_length n d x :
  (length d <= n)%nat -> (length (deque_append n d x) <= n)%nat.
Proof.
  intros Hd. rewrite deque_append_lastn by exact Hd.
  rewrite length_lastn. lia.
Qed.

End BufferFacts.

Section DataManagerFacts.

Variable N : nat.

Lemma buffer_of_add_tick now t dm s :
  buffer_of (add_tick N now t dm) s =
  if String.eqb (normalize_symbol (tick_symbol t)) s
  then deque_append N (buffer_of dm s) t
  else buffer_of dm s.
Proof.
  unfold buffer_of at 1. cbn [add_tick tick_buffers].
  destruct (String.eqb_spec (normalize_symbol (tick_symbol t)) s) as [->|Hne].
  - rewrite lookup_insert_eq. reflexivity.
  - rewrite lookup_insert_ne by exact Hne. reflexivity.
Qed.

(** The deque bound is an invariant of [add_tick]. *)
Lemma add_tick_bounded now t dm :
  buffers_bounded N dm -> buffers_bounded N (add_tick N now t dm).
Proof.
  intros Hb s. rewrite buffer_of_add_tick.
  destruct (String.eqb _ s); [apply deque_append_length|]; apply Hb.
Qed.

Lemma add_ticks_bounded ticks : forall dm,
  buffers_bounded N dm -> buffers_bounded N (add_ticks N ticks dm).
Proof.
  induction ticks as [|[now t] ticks IH]; intros dm Hb; [exact Hb|].
  apply IH, add_tick_bounded, Hb.
Qed.

Lemma init_bounded : buffers_bounded N DataManager_init.
Proof. intros s. unfold buffer_of. cbn. rewrite lookup_empty. cbn. lia. Qed.

(** After any stream of [add_tick] calls a buffer holds the newest [N] of
    the ticks it held before followed by the ticks filed under its symbol,
    in arrival order. *)
Lemma buffer_of_add_ticks ticks : forall dm s,
  (length (buffer_of dm s) <= N)%nat ->
  buffer_of (add_ticks N ticks dm) s =
  lastn N (buffer_of dm s ++ symbol_ticks s ticks).
Proof.
  induction ticks as [|[now t] ticks IH]; intros dm s Hb.
  - cbn. rewrite app_nil_r. symmetry. apply lastn_all, Hb.
  - change (add_ticks N ((now, t) :: ticks) dm)
      with (add_ticks N ticks (add_tick N now t dm)).
    unfold symbol_ticks. cbn [List.filter snd].
    rewrite IH; rewrite buffer_of_add_tick;
      destruct (String.eqb (normalize_symbol (tick_symbol t)) s) eqn:E;
      try assumption; try (apply deque_append_length; assumption).
    + rewrite deque_append_lastn by exact Hb.
      rewrite lastn_app_l. cbn [map snd]. rewrite <- app_assoc. reflexivity.
    + reflexivity.
Qed.

Lemma buffer_of_touch s s' dm :
  buffer_of (touch_buffer s dm) s' = buffer_of dm s'.
Proof.
  unfold buffer_of, touch_buffer, touch. cbn [tick_buffers].
  destruct (tick_buffers dm !! s) eqn:E; [reflexivity|].
  destruct (decide (s = s')) as [->|Hne].
  - rewrite lookup_insert_eq, E. reflexivity.
  - rewrite lookup_insert_ne by exact Hne. reflexivity.
Qed.

Lemma touch_idem {V} (d : V) s (m : gmap string V) :
  touch d s (touch d s m) = touch d s m.
Proof.
  unfold touch. destruct (m !! s) eqn:E.
  - rewrite E. reflexivity.
  - rewrite lookup_insert_eq. reflexivity.
Qed.

Lemma touch_buffer_idem s dm :
  touch_buffer s (touch_buffer s dm) = touch_buffer s dm.
Proof. unfold touch_buffer. cbn. rewrite touch_idem. reflexivity. Qed.

End DataManagerFacts.

Section BufferTheorems.

Lemma lastn_app_r {A} n (l r : list A) :
  (n <= length r)%nat -> lastn n (l ++ r) = lastn n r.
Proof.
  intros H. unfold lastn. rewrite drop_app, length_app.
  rewrite drop_ge by lia. cbn [app]. f_equal. lia.
Qed.

Lemma deque_append_snoc {A} n (d : list A) x :
  (0 < n)%nat -> exists older, deque_append n d x = older ++ [x].
Proof.
  intros Hn. unfold deque_append. rewrite length_app. cbn [length].
  destruct (Nat.ltb_spec n (length d + 1)) as [Hlt|Hge].
  - destruct d as [|y d]; cbn in *; [lia|]. exists d. reflexivity.
  - exists d. reflexivity.
Qed.

Lemma filter_ticks_none ticks : filter_ticks None None None ticks = ticks.
Proof. reflexivity. Qed.

Lemma truthy_nonempty s : s <> EmptyString -> Str.truthy (Some s) = Some s.
Proof. destruct s; [congruence | reflexivity]. Qed.

End BufferTheorems.

(** C2.  With tick-buffer capacity [N], once a stream of [add_tick] calls
    has filed [N + k] ticks ([k > 0]) under a symbol, an unfiltered
    [get_ticks] of that symbol returns exactly [N] ticks: the inserted ticks
    without their [k] oldest, in insertion order.  Ticks of other symbols
    may be interleaved in the stream. *)
Theorem C2_buffer_fifo_eviction
    (N k : nat) (S : string) (dm : DataManager) (ticks : list (Z * Tick)) :
  (0 < k)%nat ->
  buffers_bounded N dm ->
  length (symbol_ticks (normalize_symbol S) ticks) = (N + k)%nat ->
  let held := fst (get_ticks S None None None (add_ticks N ticks dm)) in
  held = skipn k (symbol_ticks (normalize_symbol S) ticks)
  /\ length held = N.
Proof.
  intros Hk Hb Hlen held. subst held.
  cbn [get_ticks fst]. rewrite filter_ticks_none.
  rewrite buffer_of_add_ticks by apply Hb.
  rewrite lastn_app_r by lia.
  unfold lastn. rewrite Hlen.
  replace (N + k - N)%nat with k by lia.
  split; [reflexivity|]. rewrite length_drop. lia.
Qed.

(** The scenario of C2: capacity 3 and ticks at prices 1, 2, 3, 4 for
    symbol X leave the buffer holding the ticks at prices 2, 3, 4. *)
Lemma C2_capacity_3_scenario :
  let tick p := mkTick "X" p 1%float "2024-01-01T00:00:00+00:00" in
  let ticks := [(0, tick 1%float); (1, tick 2%float); (2, tick 3%float);
                (3, tick 4%float)] in
  (0 < 1)%nat
  /\ length (symbol_ticks (normalize_symbol "X") ticks) = (3 + 1)%nat
  /\ fst (get_ticks "X" None None None (add_ticks 3 ticks DataManager_init))
     = [tick 2%float; tick 3%float; tick 4%float].
Proof.
  intros tick ticks.
  split; [lia|]. split; [reflexivity|].
  exact (proj1 (C2_buffer_fifo_eviction 3 1 "X" DataManager_init ticks
                  (Nat.lt_0_succ 0) (init_bounded 3) eq_refl)).
Defined.

(** C10.  [get_latest_price(S)] returns [None] exactly when the buffer of
    [S] is empty and otherwise the price of the buffer's newest tick (the
    one the last [add_tick] for [S] appended); it changes no buffer's
    contents, no counter, no timestamp and no cache entry.  The only trace
    it can leave is the empty default deque that the [defaultdict] registers
    for a symbol it has never seen. *)
Theorem C10_get_latest_price_is_a_read (N : nat) (S : string) (dm : DataManager) :
  let r := fst (get_latest_price S dm) in
  let dm' := snd (get_latest_price S dm) in
  (r = None <-> buffer_of dm (normalize_symbol S) = [])
  /\ (forall older t, buffer_of dm (normalize_symbol S) = older ++ [t] ->
        r = Some (tick_price t))
  /\ (forall now t, (0 < N)%nat ->
        normalize_symbol (tick_symbol t) = normalize_symbol S ->
        fst (get_latest_price S (add_tick N now t dm)) = Some (tick_price t))
  /\ (forall s, buffer_of dm' s = buffer_of dm s)
  /\ ohlcv_cache dm' = ohlcv_cache dm
  /\ tick_counts dm' = tick_counts dm
  /\ last_tick_time dm' = last_tick_time dm
  /\ (tick_buffers dm' = tick_buffers dm
      \/ (tick_buffers dm !! normalize_symbol S = None
          /\ tick_buffers dm' = <[normalize_symbol S := []]> (tick_buffers dm))).
Proof.
  cbn zeta. unfold get_latest_price. cbn [fst snd].
  repeat split.
  - destruct (buffer_of dm (normalize_symbol S)) as [|t0 b] eqn:E; [reflexivity|].
    intros H. destruct (last_is_Some (t0 :: b)) as [_ Hs].
    destruct Hs as [x Hx]; [discriminate|]. rewrite Hx in H. discriminate.
  - intros ->. reflexivity.
  - intros older t ->. destruct older; cbn [app]; rewrite ?last_cons;
      [reflexivity|].
    change (t0 :: older ++ [t]) with ((t0 :: older) ++ [t]).
    rewrite last_snoc. reflexivity.
  - intros now t HN Hsym. rewrite buffer_of_add_tick, Hsym, String.eqb_refl.
    destruct (deque_append_snoc N (buffer_of dm (normalize_symbol S)) t HN)
      as [older ->].
    destruct older as [|t0 older]; [reflexivity|].
    change ((t0 :: older) ++ [t]) with (t0 :: (older ++ [t])).
    cbv match. change (t0 :: older ++ [t]) with ((t0 :: older) ++ [t]).
    rewrite last_snoc. reflexivity.
  - intros s. apply buffer_of_touch.
  - unfold touch_buffer, touch. cbn [tick_buffers].
    destruct (tick_buffers dm !! normalize_symbol S) eqn:E;
      [left; reflexivity | right; split; reflexivity].
Qed.

(** C10 at a concrete state: after two ticks for BTCUSDT the latest price
    is the second one's, and an unknown symbol has none. *)
Lemma C10_latest_price_example :
  let t1 := mkTick "btcusdt" 100%float 1%float "2024-01-01T00:00:00+00:00" in
  let t2 := mkTick " BTCUSDT" 101%float 1%float "2024-01-01T00:00:01+00:00" in
  let dm := add_tick 3 0 t1 DataManager_init in
  (0 < 3)%nat
  /\ normalize_symbol (tick_symbol t2) = normalize_symbol "BtcUsdt"
  /\ fst (get_latest_price "BtcUsdt" (add_tick 3 1 t2 dm)) = Some 101%float
  /\ fst (get_latest_price "ETHUSDT" dm) = None.
Proof.
  intros t1 t2 dm.
  split; [lia|]. split; [reflexivity|]. split.
  - exact (proj1 (proj2 (proj2 (C10_get_latest_price_is_a_read 3 "BtcUsdt" dm)))
             1 t2 (Nat.lt_0_succ 2) eq_refl).
  - apply (proj1 (C10_get_latest_price_is_a_read 3 "ETHUSDT" dm)).
    vm_compute. reflexivity.
Defined.

(** C8.  [clear_buffer(S)] for a symbol [S] empties the buffer of [S] and
    removes the cache entries of [S] for every timeframe, and leaves the
    buffer and the cache entries of every other symbol as they were;
    [clear_buffer()] empties every buffer and the whole cache. *)
Theorem C8_clear_buffer_frame (dm : DataManager) :
  (forall S, S <> EmptyString ->
     let sym := normalize_symbol S in
     let dm' := clear_buffer (Some S) dm in
     buffer_of dm' sym = []
     /\ (forall tf, ohlcv_cache dm' !! (sym, tf) = None)
     /\ (forall s, s <> sym -> tick_buffers dm' !! s = tick_buffers dm !! s)
     /\ (forall s tf, s <> sym ->
           ohlcv_cache dm' !! (s, tf) = ohlcv_cache dm !! (s, tf)))
  /\ (let dm' := clear_buffer None dm in
      (forall s, buffer_of dm' s = []) /\ ohlcv_cache dm' = ∅).
Proof.
  split.
  - intros S HS sym dm'. subst dm'. unfold clear_buffer.
    rewrite (truthy_nonempty S HS). fold sym. cbn [tick_buffers ohlcv_cache].
    repeat split.
    + unfold buffer_of. cbn [tick_buffers]. rewrite lookup_insert_eq. reflexivity.
    + intros tf. apply map_lookup_filter_None. right.
      intros df _ Hne. apply Hne. reflexivity.
    + intros s Hs. rewrite lookup_insert_ne by congruence. reflexivity.
    + intros s tf Hs.
      destruct (ohlcv_cache dm !! (s, tf)) as [df|] eqn:E.
      * apply map_lookup_filter_Some. split; [exact E | exact Hs].
      * apply map_lookup_filter_None. left. exact E.
  - cbn zeta. unfold clear_buffer. cbn [Str.truthy tick_buffers ohlcv_cache].
    split; [|reflexivity].
    intros s. unfold buffer_of. cbn [tick_buffers]. rewrite lookup_fmap.
    destruct (tick_buffers dm !! s); reflexivity.
Qed.

(** C8 at a concrete state: clearing BTCUSDT drops its ticks and its cached
    frame and keeps those of ETHUSDT. *)
Lemma C8_clear_one_symbol_example :
  let tb := mkTick "BTCUSDT" 100%float 1%float "2024-01-01T00:00:00+00:00" in
  let te := mkTick "ETHUSDT" 50%float 1%float "2024-01-01T00:00:00+00:00" in
  let row := mkCandle "2024-01-01T00:00:00+00:00" 1 1 1 1 1 in
  let dm := set_cache ("BTCUSDT", "1m") [row]
              (set_cache ("ETHUSDT", "1m") [row]
                 (add_tick 3 1 te (add_tick 3 0 tb DataManager_init))) in
  let dm' := clear_buffer (Some "btcusdt") dm in
  "btcusdt" <> EmptyString
  /\ "ETHUSDT" <> normalize_symbol "btcusdt"
  /\ buffer_of dm' "BTCUSDT" = []
  /\ ohlcv_cache dm' !! ("BTCUSDT", "1m") = None
  /\ tick_buffers dm' !! "ETHUSDT" = Some [te]
  /\ ohlcv_cache dm' !! ("ETHUSDT", "1m") = Some [row].
Proof.
  intros tb te row dm dm'.
  assert (H1 : "btcusdt" <> EmptyString) by discriminate.
  assert (H2 : "ETHUSDT" <> normalize_symbol "btcusdt") by (vm_compute; discriminate).
  destruct (proj1 (C8_clear_buffer_frame dm) "btcusdt" H1) as (Hb & Hc & Ht & Ho).
  split; [exact H1|]. split; [exact H2|].
  split; [exact Hb|]. split; [exact (Hc "1m")|].
  split.
  - etransitivity; [exact (Ht "ETHUSDT" H2)|]. vm_compute. reflexivity.
  - etransitivity; [exact (Ho "ETHUSDT" "1m" H2)|]. vm_compute. reflexivity.
Defined.

(** ** The resampling cache                                              *)

Section CacheFacts.

Variable to_datetime_utc : string -> option Z.
Variable isoformat : Z -> string.

Lemma touch_buffer_cache s dm : ohlcv_cache (touch_buffer s dm) = ohlcv_cache dm.
Proof. reflexivity. Qed.

Lemma set_cache_lookup key df dm : ohlcv_cache (set_cache key df dm) !! key = Some df.
Proof. cbn [set_cache ohlcv_cache]. apply lookup_insert_eq. Qed.

(** What a non-forced [get_ohlcv] does, by cases on the cache entry, the
    filtered tick snapshot and the outcome of resampling. *)
Lemma get_ohlcv_cases symbol timeframe limit from_ts to_ts dm :
  let key := (normalize_symbol symbol, timeframe) in
  let sym' := normalize_symbol (normalize_symbol symbol) in
  let ticks := filter_ticks None from_ts to_ts (buffer_of dm sym') in
  let out := get_ohlcv to_datetime_utc isoformat symbol timeframe limit
               from_ts to_ts false dm in
  match ohlcv_cache dm !! key with
  | Some df => out = (Some (filter_candles limit from_ts to_ts df), dm)
  | None =>
      match ticks with
      | [] => out = (Some [], touch_buffer sym' dm)
      | _ =>
          match resample_to_ohlcv to_datetime_utc isoformat ticks
                  (timeframe_to_pandas_rule timeframe) with
          | None => out = (None, touch_buffer sym' dm)
          | Some df =>
              out = (Some (filter_candles limit from_ts to_ts df),
                     set_cache key df (touch_buffer sym' dm))
          end
      end
  end.
Proof.
  cbn zeta. unfold get_ohlcv. cbn [get_ticks].
  destruct (ohlcv_cache dm !! (normalize_symbol symbol, timeframe)); [reflexivity|].
  destruct (filter_ticks None from_ts to_ts
              (buffer_of dm (normalize_symbol (normalize_symbol symbol))));
    [reflexivity|].
  destruct (resample_to_ohlcv _ _ _ _); reflexivity.
Qed.

End CacheFacts.

(** C5.  Two consecutive non-forced [get_ohlcv] calls with the same
    arguments and no tick added in between return the same result, and the
    second call leaves the manager as the first left it.  Whenever the
    [(symbol, timeframe)] entry exists after the first call, the second
    result is that entry under the caller's filters; the first call writes
    the entry when it finds none and resamples a non-empty tick snapshot. *)
Theorem C5_get_ohlcv_idempotent
    (to_datetime_utc : string -> option Z) (isoformat : Z -> string)
    (symbol timeframe : string) (limit : option Z)
    (from_ts to_ts : option string) (dm : DataManager) :
  let call := get_ohlcv to_datetime_utc isoformat symbol timeframe limit
                from_ts to_ts false in
  let key := (normalize_symbol symbol, timeframe) in
  let r1 := fst (call dm) in
  let dm1 := snd (call dm) in
  let r2 := fst (call dm1) in
  let dm2 := snd (call dm1) in
  r1 = r2
  /\ dm2 = dm1
  /\ (forall df, ohlcv_cache dm1 !! key = Some df ->
        r2 = Some (filter_candles limit from_ts to_ts df))
  /\ (forall candles, r1 = Some candles -> candles <> [] ->
        is_Some (ohlcv_cache dm1 !! key)).
Proof.
  cbn zeta.
  pose proof (get_ohlcv_cases to_datetime_utc isoformat symbol timeframe limit
                from_ts to_ts dm) as H1.
  cbn zeta in H1.
  set (key := (normalize_symbol symbol, timeframe)) in *.
  set (sym' := normalize_symbol (normalize_symbol symbol)) in *.
  set (call := get_ohlcv to_datetime_utc isoformat symbol timeframe limit
                 from_ts to_ts false) in *.
  assert (Hsecond : forall st df, ohlcv_cache st !! key = Some df ->
            call st = (Some (filter_candles limit from_ts to_ts df), st)).
  { intros st df Hst.
    pose proof (get_ohlcv_cases to_datetime_utc isoformat symbol timeframe limit
                  from_ts to_ts st) as H2.
    cbn zeta in H2. fold key in H2. rewrite Hst in H2. exact H2. }
  destruct (ohlcv_cache dm !! key) as [df|] eqn:Ec.
  - rewrite H1. cbn [fst snd]. rewrite (Hsecond dm df Ec). cbn [fst snd].
    repeat split.
    + intros df' Hdf'. rewrite Ec in Hdf'. congruence.
    + intros _ _ _. rewrite Ec. eexists. reflexivity.
  - pose proof (get_ohlcv_cases to_datetime_utc isoformat symbol timeframe limit
                  from_ts to_ts (touch_buffer sym' dm)) as H2.
    cbn zeta in H2. fold key sym' call in H2.
    rewrite touch_buffer_cache, Ec, buffer_of_touch, touch_buffer_idem in H2.
    destruct (filter_ticks None from_ts to_ts (buffer_of dm sym')) as [|t ticks] eqn:Et.
    + rewrite H1. cbn [fst snd]. rewrite H2. cbn [fst snd].
      repeat split.
      * intros df Hdf. rewrite touch_buffer_cache, Ec in Hdf. discriminate.
      * intros candles Hc Hne. congruence.
    + destruct (resample_to_ohlcv to_datetime_utc isoformat (t :: ticks)
                  (timeframe_to_pandas_rule timeframe)) as [df|] eqn:Er.
      * rewrite H1. cbn [fst snd].
        rewrite (Hsecond _ df (set_cache_lookup key df _)). cbn [fst snd].
        repeat split.
        -- intros df' Hdf'. rewrite set_cache_lookup in Hdf'. congruence.
        -- intros _ _ _. rewrite set_cache_lookup. eexists. reflexivity.
      * rewrite H1. cbn [fst snd]. rewrite H2. cbn [fst snd].
        repeat split.
        -- intros df Hdf. rewrite touch_buffer_cache, Ec in Hdf. discriminate.
        -- intros candles Hc. discriminate.
Qed.

(** ** Alert conditions                                                  *)

Local Set Warnings "-inexact-float".

(** C7.  With operator [==] the condition holds exactly when the binary64
    value of [|actual - threshold|] is below the binary64 constant [1e-6]:
    a difference of 5e-7 matches and a difference of 1e-5 does not. *)
Theorem C7_equality_uses_epsilon :
  (forall actual threshold : float,
     _evaluate_condition actual "==" threshold = true <->
     PrimFloat.ltb (PrimFloat.abs (PrimFloat.sub actual threshold)) 1e-6%float = true)
  /\ _evaluate_condition 100.0000005%float "==" 100%float = true
  /\ _evaluate_condition 99.9999995%float "==" 100%float = true
  /\ _evaluate_condition 100.00001%float "==" 100%float = false
  /\ _evaluate_condition 99.99999%float "==" 100%float = false.
Proof.
  split; [|repeat split; vm_compute; reflexivity].
  intros actual threshold. unfold _evaluate_condition. cbn [String.eqb Ascii.eqb].
  cbn. reflexivity.
Qed.

(** ** The analytics engine                                              *)

Section ListFacts.

Context {A B : Type}.

Lemma omap_map {C} (f : B -> option C) (g : A -> B) (l : list A) :
  omap f (map g l) = omap (fun x => f (g x)) l.
Proof.
  induction l as [|x l IH]; [reflexivity|].
  cbn. rewrite IH. reflexivity.
Qed.

Lemma omap_ext_in (f g : A -> option B) (l : list A) :
  (forall x, In x l -> f x = g x) -> omap f l = omap g l.
Proof.
  induction l as [|x l IH]; intros H; [reflexivity|].
  cbn. rewrite (H x (or_introl eq_refl)), IH; [reflexivity|].
  intros y Hy. apply H. right. exact Hy.
Qed.

Lemma omap_length_le (f : A -> option B) (l : list A) :
  (length (omap f l) <= length l)%nat.
Proof.
  induction l as [|x l IH]; cbn; [lia|].
  destruct (f x); cbn; lia.
Qed.

(** When [f] succeeds on every item, [omap f] is a plain map. *)
Lemma omap_total (f : A -> option B) (l : list A) :
  (forall x, In x l -> f x <> None) ->
  length (omap f l) = length l
  /\ forall k x, l !! k = Some x -> f x = omap f l !! k.
Proof.
  induction l as [|x l IH]; intros H.
  - split; [reflexivity|]. intros k y Hk. destruct k; discriminate.
  - destruct (IH (fun y Hy => H y (or_intror Hy))) as [IHlen IHnth].
    cbn. destruct (f x) as [y|] eqn:E.
    + split; [cbn; lia|].
      intros [|k] z Hz; cbn in *.
      * injection Hz as <-. exact E.
      * apply IHnth. exact Hz.
    + exfalso. apply (H x (or_introl eq_refl)). exact E.
Qed.

Lemma traverse_length (f : A -> option B) (l : list A) (r : list B) :
  traverse f l = Some r -> length r = length l.
Proof.
  revert r. induction l as [|x l IH]; intros r H; cbn in H.
  - injection H as <-. reflexivity.
  - destruct (f x); [|discriminate].
    destruct (traverse f l) as [ys|]; [|discriminate].
    injection H as <-. cbn. rewrite (IH ys eq_refl). reflexivity.
Qed.

Lemma traverse_in (f : A -> option B) (l : list A) (r : list B) (y : B) :
  traverse f l = Some r -> In y r -> exists x, In x l /\ f x = Some y.
Proof.
  revert r. induction l as [|x l IH]; intros r H Hy; cbn in H.
  - injection H as <-. destruct Hy.
  - destruct (f x) as [y0|] eqn:E; [|discriminate].
    destruct (traverse f l) as [ys|]; [|discriminate].
    injection H as <-. destruct Hy as [<-|Hy].
    + exists x. split; [left; reflexivity | exact E].
    + destruct (IH ys eq_refl Hy) as (x' & Hx' & Hf).
      exists x'. split; [right; exact Hx' | exact Hf].
Qed.

End ListFacts.

Lemma eqb_true_notna (x y : float) :
  PrimFloat.eqb x y = true -> Fl.isnan x = false.
Proof.
  unfold Fl.isnan, PrimFloat.is_nan. rewrite !FloatAxioms.eqb_spec.
  intros H. apply negb_false_iff. revert H.
  unfold SFeqb, SFcompare.
  destruct (Prim2SF x) as [sx|sx| |sx mx ex], (Prim2SF y) as [sy|sy| |sy my ey];
    FlFacts.sf_cases.
Qed.

(** A zero (or NaN) denominator makes [safe_division] return the default
    without dividing. *)
Lemma safe_division_zero (n d dflt : float) :
  PrimFloat.eqb d 0%float = true -> safe_division n d dflt = dflt.
Proof. intros H. unfold safe_division. rewrite H. reflexivity. Qed.

Section AnalyticsFacts.

Variable to_datetime_utc : string -> option Z.
Variable isoformat : Z -> string.
Variable to_datetime : string -> option Z.
Variable Timestamp : string -> option Z.
Variable OLS_fit_params : list float -> list (list float) -> option (list float).
Variable HuberRegressor_fit_coef : list (list float) -> list float -> option (list float).
Variable TheilSenRegressor_fit_coef : list (list float) -> list float -> option (list float).
Variable rolling_mean : Z -> list float -> option (list float).
Variable rolling_std : Z -> list float -> option (list float).
Variable adfuller : list float -> option (float * float).

Abbreviation compute_spread' :=
  (compute_spread to_datetime_utc isoformat to_datetime Timestamp OLS_fit_params
     HuberRegressor_fit_coef TheilSenRegressor_fit_coef).
Abbreviation compute_zscore' :=
  (compute_zscore to_datetime_utc isoformat to_datetime Timestamp OLS_fit_params
     HuberRegressor_fit_coef TheilSenRegressor_fit_coef rolling_mean rolling_std).
Abbreviation compute_adf_test' :=
  (compute_adf_test to_datetime_utc isoformat to_datetime Timestamp OLS_fit_params
     HuberRegressor_fit_coef TheilSenRegressor_fit_coef adfuller).
Abbreviation hedge_ratio_of_series' :=
  (hedge_ratio_of_series isoformat OLS_fit_params HuberRegressor_fit_coef
     TheilSenRegressor_fit_coef).
Abbreviation hedge_point' :=
  (hedge_point isoformat OLS_fit_params HuberRegressor_fit_coef
     TheilSenRegressor_fit_coef).
Abbreviation window_ratio' :=
  (window_ratio OLS_fit_params HuberRegressor_fit_coef TheilSenRegressor_fit_coef).
Abbreviation rolling_hedge' :=
  (rolling_hedge isoformat OLS_fit_params HuberRegressor_fit_coef
     TheilSenRegressor_fit_coef).

(** A row with both rolling statistics defined yields a point, whose value
    is [safe_division] of the centred spread by the deviation. *)
Lemma zscore_rows_in : forall index value mean std k i v m s,
  index !! k = Some i -> value !! k = Some v ->
  mean !! k = Some m -> std !! k = Some s ->
  Fl.notna m = true -> Fl.notna s = true ->
  In {| p_ts := isoformat i;
        p_value := safe_division (PrimFloat.sub v m) s 0%float |}
     (zscore_rows isoformat index value mean std).
Proof.
  induction index as [|i0 index IH];
    intros value mean std k i v m s Hi Hv Hm Hs Nm Ns.
  - destruct k; discriminate.
  - destruct value as [|v0 value]; [destruct k; discriminate|].
    destruct mean as [|m0 mean]; [destruct k; discriminate|].
    destruct std as [|s0 std]; [destruct k; discriminate|].
    cbn [zscore_rows]. destruct k as [|k]; cbn in Hi, Hv, Hm, Hs.
    + injection Hi as ->. injection Hv as ->. injection Hm as ->.
      injection Hs as ->. rewrite Nm, Ns. left. reflexivity.
    + assert (In {| p_ts := isoformat i;
                    p_value := safe_division (PrimFloat.sub v m) s 0%float |}
                 (zscore_rows isoformat index value mean std)) as Hin
        by (eapply IH; eassumption).
      destruct (Fl.notna m0 && Fl.notna s0); [right|]; exact Hin.
Qed.


(** C1 (as the code has it).  When the rolling standard deviation of the
    spread is exactly 0 at a timestamp where the rolling mean is defined,
    [compute_zscore] keeps the point and gives it the value 0.0, the
    default of [safe_division]; nothing is divided and nothing is omitted. *)
Theorem C1_zero_deviation_point_is_kept
    (symbol_a symbol_b timeframe : string) (window : Z) (method : string)
    (dm : DataManager) (spreads : list Point) (index : list Z)
    (mean std : list float) (k : nat) (i : Z) (m s : float) :
  fst (compute_spread' symbol_a symbol_b timeframe window method dm) = Some spreads ->
  (2 <= length spreads)%nat ->
  traverse to_datetime (map p_ts spreads) = Some index ->
  rolling_mean (Z.min window (Z.of_nat (length spreads))) (map p_value spreads)
    = Some mean ->
  rolling_std (Z.min window (Z.of_nat (length spreads))) (map p_value spreads)
    = Some std ->
  index !! k = Some i -> mean !! k = Some m -> std !! k = Some s ->
  Fl.notna m = true ->
  PrimFloat.eqb s 0%float = true ->
  exists zscores,
    fst (compute_zscore' symbol_a symbol_b timeframe window method dm) = Some zscores
    /\ In {| p_ts := isoformat i; p_value := 0%float |} zscores.
Proof.
  intros Hsp Hlen Hidx Hmean Hstd Hi Hm Hs Nm Zs.
  assert (Hk : (k < length spreads)%nat).
  { rewrite <- (length_map p_ts spreads), <- (traverse_length _ _ _ Hidx).
    eapply lookup_lt_Some. exact Hi. }
  unfold compute_zscore, bind.
  destruct (compute_spread' symbol_a symbol_b timeframe window method dm)
    as [o dm'].
  cbn [fst] in Hsp. subst o. unfold lift_option. cbn [fst].
  unfold zscore_of_spreads.
  destruct (Nat.ltb_spec (length spreads) 2) as [Hlt|_]; [lia|].
  rewrite Hidx, Hmean, Hstd.
  eexists. split; [reflexivity|].
  destruct (lookup_lt_is_Some_2 spreads k Hk) as [sp Hspk].
  assert (Hv : map p_value spreads !! k = Some (p_value sp))
    by (rewrite list_lookup_fmap, Hspk; reflexivity).
  pose proof (zscore_rows_in index (map p_value spreads) mean std k i
                (p_value sp) m s Hi Hv Hm Hs Nm) as Hin.
  rewrite (safe_division_zero _ s 0%float Zs) in Hin.
  apply Hin. unfold Fl.notna. rewrite (eqb_true_notna s 0%float Zs). reflexivity.
Qed.

(** C4.  When the spread series has fewer than 20 points,
    [compute_adf_test] returns the neutral default [{stat: 0.0, pvalue:
    1.0}] (it does not raise), leaving the manager as [compute_spread] left
    it. *)
Theorem C4_adf_neutral_default
    (symbol_a symbol_b timeframe : string) (window : Z) (method : string)
    (dm : DataManager) (spreads : list Point) :
  fst (compute_spread' symbol_a symbol_b timeframe window method dm) = Some spreads ->
  (length spreads < 20)%nat ->
  fst (compute_adf_test' symbol_a symbol_b timeframe window method dm)
    = Some {| adf_stat := 0%float; adf_pvalue := 1%float |}
  /\ snd (compute_adf_test' symbol_a symbol_b timeframe window method dm)
     = snd (compute_spread' symbol_a symbol_b timeframe window method dm).
Proof.
  intros Hsp Hlen. unfold compute_adf_test, bind.
  destruct (compute_spread' symbol_a symbol_b timeframe window method dm)
    as [o dm'].
  cbn [fst] in Hsp. subst o. unfold ret, adf_of_spreads. cbn [fst snd].
  destruct (Nat.ltb_spec (length spreads) 20) as [_|Hge]; [|lia].
  split; reflexivity.
Qed.

End AnalyticsFacts.

(** *** Rolling windows                                                  *)

Section WindowFacts.

Context {A : Type}.
Implicit Types (df : list A).

Lemma clamp_nat n j : Py.clamp n (Z.of_nat j) = Nat.min j n.
Proof.
  unfold Py.clamp. destruct (Z.ltb_spec (Z.of_nat j) 0) as [H|H]; [lia|].
  rewrite Nat2Z.id. reflexivity.
Qed.

(** [df.iloc[j : j+w]] on in-range bounds. *)
Lemma slice_window df (j w : nat) :
  (j + w <= length df)%nat ->
  Py.slice (Z.of_nat j) (Z.of_nat (j + w)) df = firstn w (skipn j df).
Proof.
  intros H. unfold Py.slice. rewrite !clamp_nat.
  replace (Nat.min j (length df)) with j by lia.
  replace (Nat.min (j + w) (length df)) with (j + w)%nat by lia.
  replace (j + w - j)%nat with w by lia. reflexivity.
Qed.

Lemma length_windows w df : length (windows w df) = (length df + 1 - w)%nat.
Proof. unfold windows. rewrite length_map, length_seq. reflexivity. Qed.

Lemma windows_lookup w df k :
  (k < length df + 1 - w)%nat ->
  windows w df !! k = Some (firstn w (skipn k df)).
Proof.
  intros H. unfold windows. rewrite list_lookup_fmap.
  rewrite lookup_seq_lt by exact H. reflexivity.
Qed.

Lemma windows_in w df wd :
  In wd (windows w df) ->
  exists k, (k < length df + 1 - w)%nat /\ wd = firstn w (skipn k df).
Proof.
  unfold windows. intros H. apply in_map_iff in H.
  destruct H as (k & <- & Hk). apply in_seq in Hk.
  exists k. split; [lia | reflexivity].
Qed.

(** The last row of the window that starts at row [k]. *)
Lemma window_last w df k :
  (1 <= w)%nat -> (k + w <= length df)%nat ->
  last (firstn w (skipn k df)) = df !! (k + w - 1)%nat.
Proof.
  intros Hw Hk. rewrite last_lookup, length_take, length_drop.
  replace (Nat.pred (Nat.min w (length df - k))) with (w - 1)%nat by lia.
  rewrite lookup_take_lt by lia. rewrite lookup_drop. f_equal. lia.
Qed.

End WindowFacts.

Section HedgeFacts.

Variable to_datetime_utc : string -> option Z.
Variable isoformat : Z -> string.
Variable to_datetime : string -> option Z.
Variable OLS_fit_params : list float -> list (list float) -> option (list float).
Variable HuberRegressor_fit_coef : list (list float) -> list float -> option (list float).
Variable TheilSenRegressor_fit_coef : list (list float) -> list float -> option (list float).

Abbreviation hedge_ratio_of_series' :=
  (hedge_ratio_of_series isoformat OLS_fit_params HuberRegressor_fit_coef
     TheilSenRegressor_fit_coef).
Abbreviation hedge_point' :=
  (hedge_point isoformat OLS_fit_params HuberRegressor_fit_coef
     TheilSenRegressor_fit_coef).
Abbreviation window_ratio' :=
  (window_ratio OLS_fit_params HuberRegressor_fit_coef TheilSenRegressor_fit_coef).
Abbreviation rolling_hedge' :=
  (rolling_hedge isoformat OLS_fit_params HuberRegressor_fit_coef
     TheilSenRegressor_fit_coef).

(** The loop [for i in range(w, len(df) + 1)] visits the rolling windows
    of width [w] in order. *)
Lemma rolling_hedge_windows method (w : nat) (df : list ARow) :
  (w <= length df)%nat ->
  rolling_hedge' method (Z.of_nat w) df = omap (hedge_point' method) (windows w df).
Proof.
  intros Hw. unfold rolling_hedge, Py.range, windows.
  rewrite !omap_map.
  replace (Z.to_nat (Z.of_nat (length df) + 1 - Z.of_nat w))
    with (length df + 1 - w)%nat by lia.
  apply omap_ext_in. intros j Hj. apply in_seq in Hj. f_equal.
  replace (Z.of_nat w + Z.of_nat j - Z.of_nat w) with (Z.of_nat j) by lia.
  replace (Z.of_nat w + Z.of_nat j) with (Z.of_nat (j + w)) by lia.
  apply slice_window. lia.
Qed.

Lemma omap_in_inv {X Y} (f : X -> option Y) (l : list X) (y : Y) :
  In y (omap f l) -> exists x, In x l /\ f x = Some y.
Proof.
  induction l as [|x l IH]; cbn; [intros []|].
  destruct (f x) as [y0|] eqn:E.
  - intros [<-|H].
    + exists x. split; [left; reflexivity | exact E].
    + destruct (IH H) as (x' & Hx' & Hf). exists x'. split; [right|]; assumption.
  - intros H. destruct (IH H) as (x' & Hx' & Hf). exists x'. split; [right|]; assumption.
Qed.

(** Every emitted point carries the ratio of its window. *)
Lemma hedge_point_value method wd p :
  hedge_point' method wd = Some p ->
  window_ratio' method wd = Some (p_value p).
Proof.
  unfold hedge_point. destruct (window_ratio' method wd) as [ratio|]; [|discriminate].
  destruct (last wd); [|discriminate]. intros H. injection H as <-. reflexivity.
Qed.

Lemma hedge_ratio_points method prices_a prices_b window p :
  In p (hedge_ratio_of_series' prices_a prices_b window method) ->
  exists i, hedge_point' method
              (Py.slice (i - Z.min window (Z.of_nat (length (align prices_a prices_b))))
                        i (align prices_a prices_b)) = Some p.
Proof.
  unfold hedge_ratio_of_series.
  destruct (Nat.min (length prices_a) (length prices_b) <? 2)%nat; [intros []|].
  destruct (length (align prices_a prices_b) <? 2)%nat; [intros []|].
  unfold rolling_hedge. intros H. apply omap_in_inv in H.
  destruct H as (i & _ & Hi). exists i. exact Hi.
Qed.

(** Past its two guards, [compute_hedge_ratio] is the loop over the rolling
    windows of the effective width. *)
Lemma hedge_ratio_of_series_windows method prices_a prices_b (window : Z) :
  (2 <= length prices_a)%nat -> (2 <= length prices_b)%nat ->
  (2 <= length (align prices_a prices_b))%nat ->
  1 <= window ->
  let df := align prices_a prices_b in
  let w := Nat.min (Z.to_nat window) (length df) in
  hedge_ratio_of_series' prices_a prices_b window method
  = omap (hedge_point' method) (windows w df).
Proof.
  intros Ha Hb Hdf Hw. cbn zeta. unfold hedge_ratio_of_series.
  destruct (Nat.ltb_spec (Nat.min (length prices_a) (length prices_b)) 2); [lia|].
  destruct (Nat.ltb_spec (length (align prices_a prices_b)) 2); [lia|].
  replace (Z.min window (Z.of_nat (length (align prices_a prices_b))))
    with (Z.of_nat (Nat.min (Z.to_nat window) (length (align prices_a prices_b))))
    by lia.
  apply rolling_hedge_windows. lia.
Qed.

(** When the fit raises on no window, the loop emits one point per window,
    stamped with the window's last timestamp. *)
Lemma rolling_total method (w : nat) (df : list ARow) :
  (1 <= w)%nat ->
  (forall wd, In wd (windows w df) -> window_ratio' method wd <> None) ->
  let out := omap (hedge_point' method) (windows w df) in
  length out = (length df + 1 - w)%nat
  /\ forall k, (k < length df + 1 - w)%nat ->
       exists r ratio,
         df !! (k + w - 1)%nat = Some r
         /\ window_ratio' method (firstn w (skipn k df)) = Some ratio
         /\ out !! k = Some {| p_ts := isoformat (ar_time r); p_value := ratio |}.
Proof.
  intros Hw Hfit out.
  assert (Hpt : forall wd, In wd (windows w df) -> hedge_point' method wd <> None).
  { intros wd Hwd. destruct (windows_in w df wd Hwd) as (k & Hk & ->).
    unfold hedge_point.
    destruct (window_ratio' method (firstn w (skipn k df))) eqn:E;
      [|exfalso; eapply Hfit; eassumption].
    rewrite window_last by lia.
    destruct (lookup_lt_is_Some_2 df (k + w - 1)) as [r ->]; [lia|]. discriminate. }
  destruct (omap_total (hedge_point' method) (windows w df) Hpt) as [Hlen Hnth].
  split; [subst out; rewrite Hlen; apply length_windows|].
  intros k Hk.
  pose proof (Hnth k _ (windows_lookup w df k Hk)) as Hk'.
  destruct (lookup_lt_is_Some_2 df (k + w - 1)) as [r Hr]; [lia|].
  destruct (window_ratio' method (firstn w (skipn k df))) as [ratio|] eqn:E.
  - exists r, ratio. split; [exact Hr|]. split; [reflexivity|].
    subst out. rewrite <- Hk'. unfold hedge_point. rewrite E.
    rewrite window_last by lia. rewrite Hr. reflexivity.
  - exfalso. eapply Hfit; [|exact E].
    eapply list_elem_of_In, list_elem_of_lookup_2, windows_lookup. exact Hk.
Qed.

(** [compute_hedge_ratio] returns what its loop computes from the two
    price series it fetched; it raises only when a fetch does. *)
Lemma compute_hedge_ratio_series symbol_a symbol_b timeframe window method dm out :
  fst (compute_hedge_ratio to_datetime_utc isoformat to_datetime OLS_fit_params
         HuberRegressor_fit_coef TheilSenRegressor_fit_coef
         symbol_a symbol_b timeframe window method dm) = Some out ->
  exists prices_a prices_b dm1,
    get_price_series to_datetime_utc isoformat to_datetime symbol_a timeframe
      (series_limit window) true dm = (Some prices_a, dm1)
    /\ fst (get_price_series to_datetime_utc isoformat to_datetime symbol_b
              timeframe (series_limit window) true dm1) = Some prices_b
    /\ out = hedge_ratio_of_series' prices_a prices_b window method.
Proof.
  unfold compute_hedge_ratio, bind, ret.
  destruct (get_price_series to_datetime_utc isoformat to_datetime symbol_a
              timeframe (series_limit window) true dm) as [[pa|] dm1];
    [|discriminate].
  destruct (get_price_series to_datetime_utc isoformat to_datetime symbol_b
              timeframe (series_limit window) true dm1) as [[pb|] dm2] eqn:Eb;
    [|discriminate].
  cbn [fst]. intros H. injection H as <-.
  exists pa, pb, dm1. rewrite Eb. repeat split.
Qed.

(** An unrecognised method label selects the constant ratio. *)
Lemma window_ratio_unknown method wd :
  known_method method = false -> window_ratio' method wd = Some 1%float.
Proof.
  unfold known_method, window_ratio. intros H.
  apply orb_false_iff in H. destruct H as [H H4].
  apply orb_false_iff in H. destruct H as [H H3].
  apply orb_false_iff in H. destruct H as [H1 H2].
  rewrite H1, H2, H3, H4. reflexivity.
Qed.

(** C9.  For a method whose upper-case form is none of OLS, HUBER,
    THEIL-SEN and KALMAN, every point that [compute_hedge_ratio] emits has
    the value 1.0; no fit is attempted, so past the two data guards the
    series has one point for each rolling window of the effective width,
    stamped with the window's last timestamp. *)
Theorem C9_unknown_method_constant_one
    (prices_a prices_b : Series) (window : Z) (method : string) :
  known_method method = false ->
  let df := align prices_a prices_b in
  let w := Nat.min (Z.to_nat window) (length df) in
  let out := hedge_ratio_of_series' prices_a prices_b window method in
  (forall p, In p out -> p_value p = 1%float)
  /\ (forall symbol_a symbol_b timeframe dm points,
        fst (compute_hedge_ratio to_datetime_utc isoformat to_datetime
               OLS_fit_params HuberRegressor_fit_coef TheilSenRegressor_fit_coef
               symbol_a symbol_b timeframe window method dm) = Some points ->
        forall p, In p points -> p_value p = 1%float)
  /\ ((2 <= length prices_a)%nat -> (2 <= length prices_b)%nat ->
      (2 <= length df)%nat -> 1 <= window ->
      length out = (length df + 1 - w)%nat
      /\ forall k, (k < length df + 1 - w)%nat ->
           exists r, df !! (k + w - 1)%nat = Some r
                     /\ out !! k = Some {| p_ts := isoformat (ar_time r);
                                           p_value := 1%float |}).
Proof.
  intros Hm df w out.
  assert (Hone : forall pa pb p,
            In p (hedge_ratio_of_series' pa pb window method) ->
            p_value p = 1%float).
  { intros pa pb p Hp. apply hedge_ratio_points in Hp. destruct Hp as (i & Hi).
    apply hedge_point_value in Hi. rewrite (window_ratio_unknown _ _ Hm) in Hi.
    injection Hi as <-. reflexivity. }
  split; [apply Hone|]. split.
  - intros symbol_a symbol_b timeframe dm points Hpts p Hp.
    destruct (compute_hedge_ratio_series _ _ _ _ _ _ _ Hpts)
      as (pa & pb & dm1 & _ & _ & ->).
    exact (Hone pa pb p Hp).
  - intros Ha Hb Hdf Hw. subst out.
    rewrite (hedge_ratio_of_series_windows method _ _ _ Ha Hb Hdf Hw).
    fold df w.
    assert (Hw1 : (1 <= w)%nat) by (subst w; lia).
    destruct (rolling_total method w df Hw1) as [Hlen Hnth].
    { intros wd _. rewrite (window_ratio_unknown _ _ Hm). discriminate. }
    split; [exact Hlen|]. intros k Hk.
    destruct (Hnth k Hk) as (r & ratio & Hr & Hratio & Hout).
    rewrite (window_ratio_unknown _ _ Hm) in Hratio. injection Hratio as <-.
    exists r. split; assumption.
Qed.

End HedgeFacts.

(** *** The aligned frame                                                *)

Lemma series_lookup_in t (s : Series) v :
  series_lookup t s = Some v -> In t (map fst s).
Proof.
  unfold series_lookup.
  destruct (List.find (fun r => fst r =? t) s) as [r|] eqn:E; [|discriminate].
  intros _. apply List.find_some in E. destruct E as [Hin Ht].
  apply Z.eqb_eq in Ht. subst t. apply in_map. exact Hin.
Qed.

Lemma align_cons r (a b : Series) :
  align (r :: a) b = align a b
  \/ exists vb, align (r :: a) b
                = {| ar_time := fst r; ar_a := snd r; ar_b := vb |} :: align a b.
Proof.
  unfold align. cbn.
  destruct (series_lookup (fst r) b) as [vb|]; [|left; reflexivity].
  destruct (Fl.notna (snd r) && Fl.notna vb); [|left; reflexivity].
  right. exists vb. reflexivity.
Qed.

Lemma align_row_in (a b : Series) row :
  In row (align a b) ->
  In (ar_time row) (map fst a) /\ In (ar_time row) (map fst b)
  /\ Fl.notna (ar_a row) = true /\ Fl.notna (ar_b row) = true.
Proof.
  unfold align. intros H.
  destruct (proj1 (list_elem_of_omap _ a row) (proj2 (list_elem_of_In _ _) H))
    as (r & Hr & Hf).
  apply list_elem_of_In in Hr.
  destruct (series_lookup (fst r) b) as [vb|] eqn:E; [|discriminate].
  destruct (Fl.notna (snd r) && Fl.notna vb) eqn:En; [|discriminate].
  injection Hf as <-. cbn. apply andb_true_iff in En. destruct En as [E1 E2].
  repeat split; try assumption.
  - apply in_map. exact Hr.
  - eapply series_lookup_in. exact E.
Qed.

Lemma align_times_nodup (a b : Series) :
  List.NoDup (map fst a) -> List.NoDup (map ar_time (align a b)).
Proof.
  induction a as [|r a IH]; intros Hnd; [constructor|].
  cbn in Hnd. inversion Hnd as [|t l Hnotin Hrest]; subst.
  destruct (align_cons r a b) as [->|[vb ->]]; [apply IH, Hrest|].
  cbn. constructor; [|apply IH, Hrest].
  intros Hin. apply Hnotin. apply in_map_iff in Hin.
  destruct Hin as (row & Hrow & Hin). rewrite <- Hrow.
  apply (align_row_in a b row Hin).
Qed.

(** The join has no more rows than either series. *)
Lemma align_length (a b : Series) :
  List.NoDup (map fst a) ->
  (length (align a b) <= length a)%nat /\ (length (align a b) <= length b)%nat.
Proof.
  intros Hnd. split; [apply omap_length_le|].
  rewrite <- (length_map ar_time), <- (length_map fst b).
  apply NoDup_incl_length; [apply align_times_nodup, Hnd|].
  intros t Ht. apply in_map_iff in Ht. destruct Ht as (row & <- & Hrow).
  apply (align_row_in a b row Hrow).
Qed.

Section HedgeLength.

Variable isoformat : Z -> string.
Variable OLS_fit_params : list float -> list (list float) -> option (list float).
Variable HuberRegressor_fit_coef : list (list float) -> list float -> option (list float).
Variable TheilSenRegressor_fit_coef : list (list float) -> list float -> option (list float).

(** C3 (as the code has it).  For two price series without duplicate
    timestamps whose join has [len] rows, none with a NaN, and a window
    [2 <= W <= len], [compute_hedge_ratio] runs the fit on each of the
    [len - W + 1] rolling windows and emits one point for each window whose
    fit does not raise, in order: at most [len - W + 1] points, and exactly
    that many when no fit raises, the [k]-th point then being stamped with
    the last timestamp of the [k]-th window. *)
Theorem C3_one_point_per_fitted_window
    (prices_a prices_b : Series) (W : Z) (method : string) :
  let df := align prices_a prices_b in
  let len := length df in
  let out := hedge_ratio_of_series isoformat OLS_fit_params
               HuberRegressor_fit_coef TheilSenRegressor_fit_coef
               prices_a prices_b W method in
  List.NoDup (map fst prices_a) ->
  2 <= W <= Z.of_nat len ->
  out = omap (hedge_point isoformat OLS_fit_params HuberRegressor_fit_coef
                TheilSenRegressor_fit_coef method)
             (windows (Z.to_nat W) df)
  /\ length (windows (Z.to_nat W) df) = (len - Z.to_nat W + 1)%nat
  /\ (length out <= len - Z.to_nat W + 1)%nat
  /\ ((forall wd, In wd (windows (Z.to_nat W) df) ->
         window_ratio OLS_fit_params HuberRegressor_fit_coef
           TheilSenRegressor_fit_coef method wd <> None) ->
      length out = (len - Z.to_nat W + 1)%nat
      /\ forall k, (k < len - Z.to_nat W + 1)%nat ->
           exists r, df !! (k + Z.to_nat W - 1)%nat = Some r
                     /\ p_ts <$> out !! k = Some (isoformat (ar_time r))).
Proof.
  intros df len out Hnd HW.
  destruct (align_length prices_a prices_b Hnd) as [Hla Hlb].
  fold df len in Hla, Hlb.
  assert (Heq : out = omap (hedge_point isoformat OLS_fit_params
                              HuberRegressor_fit_coef TheilSenRegressor_fit_coef
                              method) (windows (Z.to_nat W) df)).
  { subst out.
    rewrite (hedge_ratio_of_series_windows isoformat OLS_fit_params
               HuberRegressor_fit_coef TheilSenRegressor_fit_coef method
               prices_a prices_b W) by (fold df len; lia).
    fold df len. replace (Nat.min (Z.to_nat W) len) with (Z.to_nat W) by lia.
    reflexivity. }
  assert (Hwl : length (windows (Z.to_nat W) df) = (len - Z.to_nat W + 1)%nat)
    by (rewrite length_windows; fold len; lia).
  split; [exact Heq|]. split; [exact Hwl|]. split.
  - rewrite Heq, <- Hwl. apply omap_length_le.
  - intros Hfit.
    destruct (rolling_total isoformat OLS_fit_params HuberRegressor_fit_coef
                TheilSenRegressor_fit_coef method (Z.to_nat W) df) as [Hlen Hnth];
      [lia | exact Hfit |].
    rewrite <- Heq in Hlen, Hnth. fold len in Hlen, Hnth.
    split; [lia|]. intros k Hk.
    destruct (Hnth k) as (r & ratio & Hr & _ & Hout); [lia|].
    exists r. split; [exact Hr|]. rewrite Hout. reflexivity.
Qed.

End HedgeLength.

(** ** Resampling                                                        *)

Lemma insert_by_time_in x y l : In x (insert_by_time y l) -> x = y \/ In x l.
Proof.
  induction l as [|z l IH]; cbn.
  - intros [<-|[]]. left. reflexivity.
  - destruct (pt_time y <? pt_time z).
    + intros [<-|H]; [left; reflexivity | right; exact H].
    + intros [<-|H]; [right; left; reflexivity|].
      destruct (IH H) as [->|H']; [left; reflexivity | right; right; exact H'].
Qed.

Lemma sort_by_time_in x l : In x (sort_by_time l) -> In x l.
Proof.
  unfold sort_by_time.
  assert (H : forall acc, In x (fold_left (fun acc y => insert_by_time y acc) l acc)
                          -> In x l \/ In x acc).
  { induction l as [|y l IH]; intros acc Hin; cbn in Hin; [right; exact Hin|].
    destruct (IH _ Hin) as [H|H]; [left; right; exact H|].
    destruct (insert_by_time_in _ _ _ H) as [->|H'];
      [left; left; reflexivity | right; exact H']. }
  intros Hin. destruct (H [] Hin) as [H'|[]]. exact H'.
Qed.

Lemma first_valid_in l :
  l <> [] -> (forall x, In x l -> Fl.notna x = true) -> In (Fl.first_valid l) l.
Proof.
  destruct l as [|x l]; [congruence|]. intros _ H.
  unfold Fl.first_valid. cbn [List.filter].
  rewrite (H x (or_introl eq_refl)). left. reflexivity.
Qed.

Lemma last_valid_in l :
  l <> [] -> (forall x, In x l -> Fl.notna x = true) -> In (Fl.last_valid l) l.
Proof.
  intros Hne H. unfold Fl.last_valid. apply in_rev. apply first_valid_in.
  - intros E. apply Hne. apply (f_equal (@rev float)) in E.
    rewrite rev_involutive in E. exact E.
  - intros x Hx. apply H. apply in_rev. exact Hx.
Qed.

(** Forward and backward filling leave a column without NaN as it is. *)
Lemma ffill_from_id prev l :
  (forall x, In x l -> Fl.isnan x = false) -> Fl.ffill_from prev l = l.
Proof.
  revert prev. induction l as [|x l IH]; intros prev H; [reflexivity|].
  cbn. rewrite (H x (or_introl eq_refl)). f_equal.
  apply IH. intros y Hy. apply H. right. exact Hy.
Qed.

Lemma fill_col_id col :
  (forall x, In x col -> Fl.isnan x = false /\ PrimFloat.eqb x 0%float = false) ->
  fill_col col = col.
Proof.
  intros H. unfold fill_col, Fl.bfill, Fl.ffill.
  assert (Hz : map Fl.zero_to_nan col = col).
  { rewrite <- (map_id col) at 2. apply map_ext_in. intros x Hx.
    unfold Fl.zero_to_nan. rewrite (proj2 (H x Hx)). reflexivity. }
  rewrite Hz. rewrite (ffill_from_id _ col (fun x Hx => proj1 (H x Hx))).
  rewrite ffill_from_id.
  - apply rev_involutive.
  - intros x Hx. apply (H x). apply in_rev. exact Hx.
Qed.

Section ResampleFacts.

Variable to_datetime_utc : string -> option Z.
Variable isoformat : Z -> string.

(** What the last step of [resample_to_ohlcv] establishes for each row. *)
Lemma finish_rows_in : forall ts o h l cl v c,
  In c (finish_rows isoformat ts o h l cl v) ->
  (Fl.notna (c_open c) = true ->
     fle (c_open c) (c_high c) /\ fle (c_low c) (c_open c))
  /\ (Fl.notna (c_close c) = true ->
        fle (c_close c) (c_high c) /\ fle (c_low c) (c_close c))
  /\ In (c_open c) o /\ In (c_close c) cl
  /\ exists t, In t ts /\ c_ts c = isoformat t.
Proof.
  induction ts as [|t ts IH]; intros o h l cl v c Hc; [destruct Hc|].
  destruct o as [|o1 o]; [destruct Hc|].
  destruct h as [|h1 h]; [destruct Hc|].
  destruct l as [|l1 l]; [destruct Hc|].
  destruct cl as [|c1 cl]; [destruct Hc|].
  destruct v as [|v1 v]; [destruct Hc|].
  cbn [finish_rows] in Hc. destruct Hc as [<-|Hc].
  - cbn [c_open c_high c_low c_close c_ts]. unfold fle, Fl.notna.
    split; [|split; [|split; [|split]]].
    + intros Ho. apply negb_true_iff in Ho. split.
      * apply (FlFacts.nanmax_ge [o1; h1; l1; c1] o1); [cbn; tauto | exact Ho].
      * apply (FlFacts.nanmin_le [o1; Fl.nanmax [o1; h1; l1; c1]; l1; c1] o1);
          [cbn; tauto | exact Ho].
    + intros Hcl. apply negb_true_iff in Hcl. split.
      * apply (FlFacts.nanmax_ge [o1; h1; l1; c1] c1); [cbn; tauto | exact Hcl].
      * apply (FlFacts.nanmin_le [o1; Fl.nanmax [o1; h1; l1; c1]; l1; c1] c1);
          [cbn; tauto | exact Hcl].
    + left. reflexivity.
    + left. reflexivity.
    + exists t. split; [left|]; reflexivity.
  - destruct (IH _ _ _ _ _ _ Hc) as (H1 & H2 & H3 & H4 & t' & Ht' & Hts).
    split; [exact H1|]. split; [exact H2|].
    split; [right; exact H3|]. split; [right; exact H4|].
    exists t'. split; [right; exact Ht' | exact Hts].
Qed.

Lemma kept_rows_in w pts row :
  In row (kept_rows w pts) ->
  exists b inb,
    inb <> [] /\ (forall x, In x inb -> In x pts /\ bucket_of w (pt_time x) = b)
    /\ r_time row = b
    /\ r_open row = Fl.first_valid (map pt_price inb)
    /\ r_close row = Fl.last_valid (map pt_price inb).
Proof.
  destruct pts as [|p0 pts0]; [intros []|].
  unfold kept_rows. intros H. apply filter_In in H. destruct H as [Hin Hkeep].
  apply in_map_iff in Hin. destruct Hin as (b & <- & _).
  exists b, (List.filter (in_bucket w b) (sort_by_time (p0 :: pts0))).
  split.
  - intros E. unfold raw_row in Hkeep. rewrite E in Hkeep. discriminate.
  - split; [|repeat split].
    intros x Hx. apply filter_In in Hx. destruct Hx as [Hs Hb].
    split; [apply sort_by_time_in, Hs | apply Z.eqb_eq, Hb].
Qed.

Lemma ohlcv_rows_kept w pts :
  ohlcv_rows isoformat w pts =
  finish_rows isoformat (map r_time (kept_rows w pts))
    (fill_col (map r_open (kept_rows w pts)))
    (fill_col (map r_high (kept_rows w pts)))
    (fill_col (map r_low (kept_rows w pts)))
    (fill_col (map r_close (kept_rows w pts)))
    (map r_volume (kept_rows w pts)).
Proof. destruct pts; reflexivity. Qed.

End ResampleFacts.

Section ResampleTheorems.

Variable to_datetime_utc : string -> option Z.
Variable isoformat : Z -> string.

Lemma parse_tick_inv t x :
  parse_tick to_datetime_utc t = Some x ->
  to_datetime_utc (tick_ts t) = Some (pt_time x)
  /\ pt_price x = tick_price t /\ pt_qty x = tick_qty t.
Proof.
  unfold parse_tick. destruct (to_datetime_utc (tick_ts t)); [|discriminate].
  intros H. injection H as <-. repeat split.
Qed.

(** C6 (as the code has it).  Every candle of [resample_to_ohlcv] bounds
    each of its open and close that is not NaN: such a price is at most the
    candle's high and at least its low.  When every tick has a non-zero,
    non-NaN price, no candle has a NaN open or close, so
    [high >= max(open, close)] and [low <= min(open, close)] hold for every
    candle.  Every candle is stamped with the bin of at least one tick:
    bins without ticks are not in the output. *)
Theorem C6_candle_bounds_and_no_empty_bin
    (ticks : list Tick) (timeframe : string) (candles : list Candle) (c : Candle) :
  resample_to_ohlcv to_datetime_utc isoformat ticks timeframe = Some candles ->
  In c candles ->
  (Fl.notna (c_open c) = true ->
     fle (c_open c) (c_high c) /\ fle (c_low c) (c_open c))
  /\ (Fl.notna (c_close c) = true ->
        fle (c_close c) (c_high c) /\ fle (c_low c) (c_close c))
  /\ ((forall t, In t ticks ->
         Fl.notna (tick_price t) = true
         /\ PrimFloat.eqb (tick_price t) 0%float = false) ->
      Fl.notna (c_open c) = true /\ Fl.notna (c_close c) = true)
  /\ (exists w t i,
        rule_nanos timeframe = Some w /\ In t ticks
        /\ to_datetime_utc (tick_ts t) = Some i
        /\ c_ts c = isoformat (bucket_of w i)).
Proof.
  intros Hres Hc. unfold resample_to_ohlcv in Hres.
  destruct ticks as [|t0 ticks0] eqn:Et.
  { injection Hres as <-. destruct Hc. }
  rewrite <- Et in *. clear Et t0 ticks0.
  destruct (traverse (parse_tick to_datetime_utc) ticks) as [pts|] eqn:Ep;
    [|discriminate].
  destruct (rule_nanos timeframe) as [w|] eqn:Ew; [|discriminate].
  injection Hres as <-. rewrite ohlcv_rows_kept in Hc.
  destruct (finish_rows_in isoformat _ _ _ _ _ _ c Hc)
    as (Hopen & Hclose & Hino & Hinc & tb & Htb & Hts).
  assert (Hpt : forall x, In x pts ->
            exists t, In t ticks /\ to_datetime_utc (tick_ts t) = Some (pt_time x)
                      /\ pt_price x = tick_price t).
  { intros x Hx. destruct (traverse_in _ _ _ _ Ep Hx) as (t & Ht & Hp).
    destruct (parse_tick_inv t x Hp) as (H1 & H2 & _).
    exists t. repeat split; assumption. }
  split; [exact Hopen|]. split; [exact Hclose|]. split.
  - intros Hvalid.
    assert (Hbin : forall (sel : list float -> float),
                (forall l, l <> [] ->
                   (forall x, In x l -> Fl.notna x = true) -> In (sel l) l) ->
                forall inb, inb <> [] -> (forall x, In x inb -> In x pts) ->
                Fl.isnan (sel (map pt_price inb)) = false
                /\ PrimFloat.eqb (sel (map pt_price inb)) 0%float = false).
    { intros sel Hsel inb Hne Hinb.
      assert (Hall : forall p, In p (map pt_price inb) ->
                Fl.notna p = true /\ PrimFloat.eqb p 0%float = false).
      { intros p Hp. apply in_map_iff in Hp. destruct Hp as (x & <- & Hx).
        destruct (Hpt x (Hinb x Hx)) as (t & Ht & _ & ->). apply Hvalid, Ht. }
      assert (Hs : In (sel (map pt_price inb)) (map pt_price inb)).
      { apply Hsel.
        - destruct inb; [congruence | discriminate].
        - intros p Hp. apply (Hall p Hp). }
      destruct (Hall _ Hs) as [Hn Hz]. split; [|exact Hz].
      unfold Fl.notna in Hn. apply negb_true_iff in Hn. exact Hn. }
    assert (Ho : forall v, In v (map r_open (kept_rows w pts)) ->
              Fl.isnan v = false /\ PrimFloat.eqb v 0%float = false).
    { intros v Hv. apply in_map_iff in Hv. destruct Hv as (row & <- & Hrow).
      destruct (kept_rows_in w pts row Hrow) as (b & inb & Hne & Hinb & _ & -> & _).
      apply (Hbin Fl.first_valid first_valid_in inb Hne).
      intros x Hx. apply (Hinb x Hx). }
    assert (Hcl : forall v, In v (map r_close (kept_rows w pts)) ->
              Fl.isnan v = false /\ PrimFloat.eqb v 0%float = false).
    { intros v Hv. apply in_map_iff in Hv. destruct Hv as (row & <- & Hrow).
      destruct (kept_rows_in w pts row Hrow) as (b & inb & Hne & Hinb & _ & _ & ->).
      apply (Hbin Fl.last_valid last_valid_in inb Hne).
      intros x Hx. apply (Hinb x Hx). }
    rewrite (fill_col_id _ Ho) in Hino. rewrite (fill_col_id _ Hcl) in Hinc.
    unfold Fl.notna. rewrite (proj1 (Ho _ Hino)), (proj1 (Hcl _ Hinc)).
    split; reflexivity.
  - apply in_map_iff in Htb. destruct Htb as (row & Hrt & Hrow).
    destruct (kept_rows_in w pts row Hrow) as (b & inb & Hne & Hinb & Hb & _).
    destruct inb as [|x inb]; [congruence|].
    destruct (Hinb x (or_introl eq_refl)) as [Hx Hbx].
    destruct (Hpt x Hx) as (t & Ht & Hparse & _).
    exists w, t, (pt_time x). repeat split; try assumption.
    rewrite Hts, <- Hrt, Hb, Hbx. reflexivity.
Qed.

End ResampleTheorems.

(** ** The properties on concrete inputs                                 *)

(** C1, as stated, fails: for the flat pair the spread is constantly 50,
    so its rolling standard deviation over the window of 2 is exactly 0 at
    00:02, and the z-score series nevertheless has a point at 00:02, with
    value 0.0. *)
Lemma C1_zero_deviation_point_emitted :
  fst (Scenario.compute_spread "AAA" "BBB" "1m" 2 "none" Scenario.flat_manager)
    = Some Scenario.flat_spreads
  /\ Ref.rolling_std 2 (map p_value Scenario.flat_spreads)
     = Some [Fl.NaN; 0%float]
  /\ fst (Scenario.compute_zscore "AAA" "BBB" "1m" 2 "none" Scenario.flat_manager)
     = Some [{| p_ts := "2024-01-01T00:02:00+00:00"; p_value := 0%float |}].
Proof. repeat split; vm_compute; reflexivity. Qed.

(** The kept point of C1 on the flat pair, obtained from the theorem. *)
Lemma C1_zero_deviation_example :
  fst (Scenario.compute_spread "AAA" "BBB" "1m" 2 "none" Scenario.flat_manager)
    = Some Scenario.flat_spreads
  /\ (2 <= length Scenario.flat_spreads)%nat
  /\ Ref.rolling_std 2 (map p_value Scenario.flat_spreads) = Some [Fl.NaN; 0%float]
  /\ PrimFloat.eqb 0%float 0%float = true
  /\ exists zscores,
       fst (Scenario.compute_zscore "AAA" "BBB" "1m" 2 "none" Scenario.flat_manager)
         = Some zscores
       /\ In {| p_ts := Ref.isoformat (Scenario.t0 + 2 * Scenario.minute);
                p_value := 0%float |} zscores.
Proof.
  split; [vm_compute; reflexivity|]. split; [cbn; lia|].
  split; [vm_compute; reflexivity|]. split; [reflexivity|].
  apply (C1_zero_deviation_point_is_kept
           Ref.to_datetime Ref.isoformat Ref.to_datetime Ref.to_datetime
           Ref.OLS_fit_params Ref.sklearn_fit_coef Ref.sklearn_fit_coef
           Ref.rolling_mean Ref.rolling_std
           "AAA" "BBB" "1m" 2 "none" Scenario.flat_manager Scenario.flat_spreads
           [Scenario.t0 + Scenario.minute; Scenario.t0 + 2 * Scenario.minute]
           [Fl.NaN; 50%float] [Fl.NaN; 0%float] 1%nat
           (Scenario.t0 + 2 * Scenario.minute) 50%float 0%float);
    try (vm_compute; reflexivity).
Defined.

(** C4 on the flat pair: two spread points, so the neutral default. *)
Lemma C4_adf_default_example :
  fst (Scenario.compute_spread "AAA" "BBB" "1m" 2 "none" Scenario.flat_manager)
    = Some Scenario.flat_spreads
  /\ (length Scenario.flat_spreads < 20)%nat
  /\ fst (Scenario.compute_adf_test "AAA" "BBB" "1m" 2 "none" Scenario.flat_manager)
     = Some {| adf_stat := 0%float; adf_pvalue := 1%float |}.
Proof.
  assert (H1 : fst (Scenario.compute_spread "AAA" "BBB" "1m" 2 "none"
                      Scenario.flat_manager) = Some Scenario.flat_spreads)
    by (vm_compute; reflexivity).
  assert (H2 : (length Scenario.flat_spreads < 20)%nat) by (cbn; lia).
  split; [exact H1|]. split; [exact H2|].
  exact (proj1 (C4_adf_neutral_default
                  Ref.to_datetime Ref.isoformat Ref.to_datetime Ref.to_datetime
                  Ref.OLS_fit_params Ref.sklearn_fit_coef Ref.sklearn_fit_coef
                  Ref.adfuller "AAA" "BBB" "1m" 2 "none" Scenario.flat_manager
                  Scenario.flat_spreads H1 H2)).
Defined.

(** C3, as stated, fails: the two series join to three rows without NaN
    and the window is 2, yet with method Huber no point is returned instead
    of 3 - 2 + 1 = 2, because each window holds the infinite price, the fit
    raises on it and the [except] clause skips the window. *)
Lemma C3_failed_fit_drops_the_point :
  length (align Scenario.series_a Scenario.series_b_inf) = 3%nat
  /\ (forall row, In row (align Scenario.series_a Scenario.series_b_inf) ->
        Fl.notna (ar_a row) = true /\ Fl.notna (ar_b row) = true)
  /\ Scenario.hedge_ratio_of_series Scenario.series_a Scenario.series_b_inf 2 "Huber"
     = []
  /\ length (Scenario.hedge_ratio_of_series Scenario.series_a Scenario.series_b_inf
               2 "Huber") <> (3 - 2 + 1)%nat.
Proof.
  split; [vm_compute; reflexivity|]. split.
  - intros row Hrow. apply (align_row_in _ _ row Hrow).
  - split; [vm_compute; reflexivity | vm_compute; discriminate].
Qed.

(** C3 on two finite series: both windows are fitted and both points are
    returned, stamped 00:01 and 00:02. *)
Lemma C3_two_windows_example :
  let out := Scenario.hedge_ratio_of_series Scenario.series_a Scenario.series_b
               2 "OLS" in
  List.NoDup (map fst Scenario.series_a)
  /\ 2 <= 2 <= Z.of_nat (length (align Scenario.series_a Scenario.series_b))
  /\ length out = 2%nat
  /\ p_ts <$> out !! 1%nat = Some "2024-01-01T00:02:00+00:00".
Proof.
  intros out.
  assert (Hnd : List.NoDup (map fst Scenario.series_a)).
  { apply NoDup_ListNoDup. apply (bool_decide_unpack _). vm_compute. exact I. }
  assert (HW : 2 <= 2 <= Z.of_nat (length (align Scenario.series_a Scenario.series_b)))
    by (vm_compute; split; discriminate).
  destruct (C3_one_point_per_fitted_window Ref.isoformat Ref.OLS_fit_params
              Ref.sklearn_fit_coef Ref.sklearn_fit_coef
              Scenario.series_a Scenario.series_b 2 "OLS" Hnd HW)
    as (_ & _ & _ & Hfit).
  destruct Hfit as [Hlen Hnth].
  { intros wd Hwd. vm_compute in Hwd.
    destruct Hwd as [<-|[<-|[]]]; vm_compute; discriminate. }
  split; [exact Hnd|]. split; [exact HW|]. split; [exact Hlen|].
  destruct (Hnth 1%nat) as (r & Hr & Hts); [vm_compute; lia|].
  vm_compute in Hr. injection Hr as <-. exact Hts.
Defined.

(** C9 on a method label that selects no regression. *)
Lemma C9_unknown_method_example :
  let out := Scenario.hedge_ratio_of_series Scenario.series_a Scenario.series_b
               2 "ridge" in
  known_method "ridge" = false
  /\ (forall p, In p out -> p_value p = 1%float)
  /\ length out = 2%nat.
Proof.
  intros out.
  destruct (C9_unknown_method_constant_one Ref.to_datetime Ref.isoformat
              Ref.to_datetime Ref.OLS_fit_params
              Ref.sklearn_fit_coef Ref.sklearn_fit_coef
              Scenario.series_a Scenario.series_b 2 "ridge" eq_refl)
    as (Hone & _ & Hlen).
  split; [reflexivity|]. split; [exact Hone|].
  exact (proj1 (Hlen ltac:(vm_compute; lia) ltac:(vm_compute; lia)
                     ltac:(vm_compute; lia) ltac:(lia))).
Defined.

(** C6, as stated, fails: a tick list holding one tick of price zero gives
    one candle whose four prices are NaN, so neither [open <= high] nor
    [low <= open] holds for it. *)
Lemma C6_zero_price_candle_is_nan :
  exists c,
    Scenario.resample_to_ohlcv Scenario.zero_tick "1min" = Some [c]
    /\ Fl.isnan (c_open c) = true /\ Fl.isnan (c_high c) = true
    /\ PrimFloat.leb (c_open c) (c_high c) = false
    /\ PrimFloat.leb (c_low c) (c_open c) = false.
Proof. eexists. repeat split; vm_compute; reflexivity. Qed.

(** C6 on ticks with two empty minutes: three candles, none for the empty
    minutes, and the one of 00:03 bounds its open and close. *)
Lemma C6_gap_example :
  let c0 := {| c_ts := "2024-01-01T00:00:00+00:00"; c_open := 5; c_high := 7;
               c_low := 5; c_close := 7; c_volume := 2 |} in
  let c3 := {| c_ts := "2024-01-01T00:03:00+00:00"; c_open := 6; c_high := 6;
               c_low := 6; c_close := 6; c_volume := 1 |} in
  let c4 := {| c_ts := "2024-01-01T00:04:00+00:00"; c_open := 6; c_high := 6;
               c_low := 6; c_close := 6; c_volume := 1 |} in
  Scenario.resample_to_ohlcv Scenario.gap_ticks "1min" = Some [c0; c3; c4]
  /\ In c0 [c0; c3; c4]
  /\ fle (c_open c0) (c_high c0) /\ fle (c_low c0) (c_close c0)
  /\ exists t i, In t Scenario.gap_ticks /\ Ref.to_datetime (tick_ts t) = Some i
                 /\ c_ts c0 = Ref.isoformat (bucket_of 60000000000 i).
Proof.
  intros c0 c3 c4.
  assert (Hres : Scenario.resample_to_ohlcv Scenario.gap_ticks "1min"
                 = Some [c0; c3; c4]) by (vm_compute; reflexivity).
  assert (Hin : In c0 [c0; c3; c4]) by (left; reflexivity).
  destruct (C6_candle_bounds_and_no_empty_bin Ref.to_datetime Ref.isoformat
              Scenario.gap_ticks "1min" [c0; c3; c4] c0 Hres Hin)
    as (Ho & Hc & _ & w & t & i & Hw & Ht & Hi & Hts).
  split; [exact Hres|]. split; [exact Hin|].
  split; [apply Ho; reflexivity|]. split; [apply Hc; reflexivity|].
  vm_compute in Hw. injection Hw as <-.
  exists t, i. repeat split; assumption.
Defined.

(** C5 on the flat pair: the first call resamples and caches, the second
    returns the same candles. *)
Lemma C5_repeat_call_example :
  let call := Scenario.get_ohlcv "aaa" "1m" (Some 2) None None false in
  fst (call Scenario.flat_manager) = fst (call (snd (call Scenario.flat_manager)))
  /\ snd (call (snd (call Scenario.flat_manager))) = snd (call Scenario.flat_manager).
Proof.
  intros call.
  destruct (C5_get_ohlcv_idempotent Ref.to_datetime Ref.isoformat "aaa" "1m"
              (Some 2) None None Scenario.flat_manager) as (H1 & H2 & _).
  split; [exact H1 | exact H2].
Defined.

(** ** Symbol normalisation                                              *)

Section StringFacts.

Lemma upper_char_idem c : Str.upper_char (Str.upper_char c) = Str.upper_char c.
Proof. destruct c as [[] [] [] [] [] [] [] []]; reflexivity. Qed.

Lemma is_space_upper_char c : Str.is_space (Str.upper_char c) = Str.is_space c.
Proof. destruct c as [[] [] [] [] [] [] [] []]; reflexivity. Qed.

Lemma list_of_map_string f s :
  list_ascii_of_string (Str.map_string f s) = map f (list_ascii_of_string s).
Proof. induction s as [|c s IH]; cbn; [reflexivity|]. rewrite IH. reflexivity. Qed.

Lemma map_string_of_list f l :
  Str.map_string f (string_of_list_ascii l) = string_of_list_ascii (map f l).
Proof. induction l as [|c l IH]; cbn; [reflexivity|]. rewrite IH. reflexivity. Qed.

Lemma list_of_lstrip s :
  list_ascii_of_string (Str.lstrip s) = drop_spaces (list_ascii_of_string s).
Proof.
  induction s as [|c s IH]; cbn; [reflexivity|].
  destruct (Str.is_space c); [exact IH | reflexivity].
Qed.

Lemma list_of_reverse s :
  list_ascii_of_string (Str.reverse s) = rev (list_ascii_of_string s).
Proof. unfold Str.reverse. apply list_ascii_of_string_of_list_ascii. Qed.

Lemma list_of_strip s :
  list_ascii_of_string (Str.strip s)
  = rev (drop_spaces (rev (drop_spaces (list_ascii_of_string s)))).
Proof.
  unfold Str.strip, Str.rstrip.
  rewrite list_of_reverse, list_of_lstrip, list_of_reverse, list_of_lstrip.
  reflexivity.
Qed.

Lemma drop_spaces_no_leading l : no_leading_space (drop_spaces l).
Proof.
  induction l as [|c l IH]; cbn; [exact I|].
  destruct (Str.is_space c) eqn:E; [exact IH | exact E].
Qed.

Lemma drop_spaces_id l : no_leading_space l -> drop_spaces l = l.
Proof. destruct l as [|c l]; cbn; [reflexivity|]. intros ->. reflexivity. Qed.

Lemma drop_spaces_suffix l : exists p, l = p ++ drop_spaces l.
Proof.
  induction l as [|c l [p IH]]; cbn; [exists []; reflexivity|].
  destruct (Str.is_space c).
  - exists (c :: p). cbn. rewrite <- IH. reflexivity.
  - exists []. reflexivity.
Qed.

(** What [rstrip] removes is at the end: the first character stays. *)
Lemma rev_drop_rev_no_leading m :
  no_leading_space m -> no_leading_space (rev (drop_spaces (rev m))).
Proof.
  intros Hm. destruct (drop_spaces_suffix (rev m)) as [p Hp].
  assert (Hm' : m = rev (drop_spaces (rev m)) ++ rev p).
  { rewrite <- rev_app_distr, <- Hp, rev_involutive. reflexivity. }
  destruct (rev (drop_spaces (rev m))) as [|c r]; [exact I|].
  rewrite Hm' in Hm. exact Hm.
Qed.

Lemma strip_list_idem l :
  let strip l := rev (drop_spaces (rev (drop_spaces l))) in
  strip (strip l) = strip l.
Proof.
  cbv beta zeta.
  pose proof (rev_drop_rev_no_leading _ (drop_spaces_no_leading l)) as H.
  rewrite (drop_spaces_id _ H), rev_involutive.
  rewrite (drop_spaces_id _ (drop_spaces_no_leading _)). reflexivity.
Qed.

Lemma list_ascii_inj s t :
  list_ascii_of_string s = list_ascii_of_string t -> s = t.
Proof.
  intros H. rewrite <- (string_of_list_ascii_of_string s),
    <- (string_of_list_ascii_of_string t), H. reflexivity.
Qed.

Lemma strip_idem s : Str.strip (Str.strip s) = Str.strip s.
Proof.
  apply list_ascii_inj. rewrite (list_of_strip (Str.strip s)), !list_of_strip.
  apply strip_list_idem.
Qed.

Lemma drop_spaces_map_upper l :
  drop_spaces (map Str.upper_char l) = map Str.upper_char (drop_spaces l).
Proof.
  induction l as [|c l IH]; cbn; [reflexivity|].
  rewrite is_space_upper_char. destruct (Str.is_space c); [exact IH | reflexivity].
Qed.

Lemma strip_upper s : Str.strip (Str.upper s) = Str.upper (Str.strip s).
Proof.
  apply list_ascii_inj. unfold Str.upper.
  rewrite list_of_strip, !list_of_map_string, list_of_strip.
  rewrite drop_spaces_map_upper, <- map_rev, drop_spaces_map_upper, map_rev.
  reflexivity.
Qed.

Lemma upper_idem s : Str.upper (Str.upper s) = Str.upper s.
Proof.
  unfold Str.upper. induction s as [|c s IH]; cbn; [reflexivity|].
  rewrite upper_char_idem, IH. reflexivity.
Qed.

End StringFacts.

Lemma normalize_symbol_idem (symbol : string) :
  normalize_symbol (normalize_symbol symbol) = normalize_symbol symbol.
Proof.
  unfold normalize_symbol.
  rewrite strip_upper, upper_idem, strip_idem. reflexivity.
Qed.

(** X1.  [normalize_symbol] yields a canonical key: its result has no
    white space at either end and no lower-case letter, and normalising it
    again changes nothing, so the buffer key and the cache key built from a
    symbol agree however many times it is normalised on the way. *)
Theorem normalize_symbol_canonical (symbol : string) :
  let cs := list_ascii_of_string (normalize_symbol symbol) in
  normalize_symbol (normalize_symbol symbol) = normalize_symbol symbol
  /\ no_leading_space cs /\ no_leading_space (rev cs)
  /\ Forall (fun c => Str.upper_char c = c) cs.
Proof.
  cbn zeta. split; [apply normalize_symbol_idem|].
  unfold normalize_symbol, Str.upper.
  rewrite list_of_map_string, list_of_strip.
  set (r := drop_spaces (rev (drop_spaces (list_ascii_of_string symbol)))).
  assert (Hr : no_leading_space r) by apply drop_spaces_no_leading.
  assert (Hrr : no_leading_space (rev r))
    by (apply rev_drop_rev_no_leading, drop_spaces_no_leading).
  split; [|split].
  - destruct (rev r) as [|c l]; cbn; [exact I|].
    rewrite is_space_upper_char. exact Hrr.
  - rewrite <- map_rev, rev_involutive.
    destruct r as [|c l]; cbn; [exact I|].
    rewrite is_space_upper_char. exact Hr.
  - apply Forall_forall. intros c Hc. apply list_elem_of_In, in_map_iff in Hc.
    destruct Hc as (c0 & <- & _). apply upper_char_idem.
Qed.

(** ** The manager across sequences of calls                             *)

Section OperationFacts.

Variable N : nat.
Variable to_datetime_utc : string -> option Z.
Variable isoformat : Z -> string.
Variable to_datetime : string -> option Z.

Lemma get_ticks_trace s limit from_ts to_ts dm :
  read_trace dm (snd (get_ticks s limit from_ts to_ts dm)).
Proof. cbn. apply rt_touch, rt_refl. Qed.

Lemma get_latest_price_trace s dm : read_trace dm (snd (get_latest_price s dm)).
Proof. cbn. apply rt_touch, rt_refl. Qed.

Lemma get_statistics_trace s dm : read_trace dm (snd (get_statistics s dm)).
Proof. cbn. apply rt_touch, rt_refl. Qed.

Lemma get_ohlcv_trace s tf limit from_ts to_ts force dm :
  read_trace dm (snd (get_ohlcv to_datetime_utc isoformat s tf limit from_ts
                        to_ts force dm)).
Proof.
  unfold get_ohlcv. cbn [get_ticks].
  destruct (if force then None else ohlcv_cache dm !! (normalize_symbol s, tf));
    [apply rt_refl|].
  destruct (filter_ticks None from_ts to_ts _); [apply rt_touch, rt_refl|].
  destruct (resample_to_ohlcv _ _ _ _); cbn [snd].
  - apply rt_cache, rt_touch, rt_refl.
  - apply rt_touch, rt_refl.
Qed.

Lemma get_price_series_trace s tf limit force dm :
  read_trace dm (snd (get_price_series to_datetime_utc isoformat to_datetime
                        s tf limit force dm)).
Proof.
  unfold get_price_series.
  destruct (if force then None else ohlcv_cache dm !! (normalize_symbol s, tf));
    [apply rt_refl|].
  destruct (buffer_of dm (normalize_symbol s)); [apply rt_touch, rt_refl|].
  destruct (resample_to_ohlcv _ _ _ _) as [[|c df]|]; cbn [snd].
  - apply rt_touch, rt_refl.
  - apply rt_cache, rt_touch, rt_refl.
  - apply rt_touch, rt_refl.
Qed.

Lemma touch_lookup_is_Some {V} (d : V) k (m : gmap string V) s :
  is_Some (touch d k m !! s) <-> s = k \/ is_Some (m !! s).
Proof.
  unfold touch. destruct (m !! k) eqn:E.
  - split; [intros H; right; exact H|]. intros [->|H]; [|exact H].
    rewrite E. eexists. reflexivity.
  - destruct (decide (k = s)) as [->|Hne].
    + rewrite lookup_insert_eq. split; [left; reflexivity | eexists; reflexivity].
    + rewrite lookup_insert_ne by exact Hne.
      split; [intros H; right; exact H|]. intros [->|H]; [congruence | exact H].
Qed.

(** What a read preserves. *)
Lemma read_trace_frame dm dm' :
  read_trace dm dm' ->
  (forall s, buffer_of dm' s = buffer_of dm s)
  /\ tick_counts dm' = tick_counts dm
  /\ last_tick_time dm' = last_tick_time dm
  /\ (forall s, is_Some (tick_buffers dm !! s) -> is_Some (tick_buffers dm' !! s))
  /\ (keys_normalized dm -> keys_normalized dm').
Proof.
  induction 1 as [dm|dm dm' s0 _ IH|dm dm' s0 tf df _ IH].
  - split; [reflexivity|]. split; [reflexivity|]. split; [reflexivity|].
    split; intros; assumption.
  - destruct IH as (Hb & Hc & Hl & Hk & Hn).
    split; [intros s; rewrite buffer_of_touch; apply Hb|].
    split; [exact Hc|]. split; [exact Hl|]. split.
    + intros s Hs. cbn [touch_buffer tick_buffers].
      apply touch_lookup_is_Some. right. apply Hk, Hs.
    + intros Hdm. destruct (Hn Hdm) as (H1 & H2 & H3).
      split; [|split].
      * intros s Hs. cbn [touch_buffer tick_buffers] in Hs.
        apply touch_lookup_is_Some in Hs. destruct Hs as [->|Hs];
          [apply normalize_symbol_idem | apply H1, Hs].
      * exact H2.
      * intros s Hs. cbn [touch_buffer tick_buffers tick_counts] in *.
        apply touch_lookup_is_Some. right. apply H3, Hs.
  - destruct IH as (Hb & Hc & Hl & Hk & Hn).
    split; [exact Hb|]. split; [exact Hc|]. split; [exact Hl|].
    split; [exact Hk|].
    intros Hdm. destruct (Hn Hdm) as (H1 & H2 & H3).
    split; [exact H1|]. split; [|exact H3].
    intros s tf' Hs. cbn [set_cache ohlcv_cache] in Hs.
    destruct (decide ((normalize_symbol s0, tf) = (s, tf'))) as [E|Hne].
    + injection E as <- <-. apply normalize_symbol_idem.
    + rewrite lookup_insert_ne in Hs by exact Hne. apply (H2 s tf' Hs).
Qed.

Lemma count_of_add_tick now t dm s :
  count_of (add_tick N now t dm) s =
  if String.eqb (normalize_symbol (tick_symbol t)) s
  then count_of dm s + 1 else count_of dm s.
Proof.
  unfold count_of at 1. cbn [add_tick tick_counts].
  destruct (String.eqb_spec (normalize_symbol (tick_symbol t)) s) as [->|Hne].
  - rewrite lookup_insert_eq. reflexivity.
  - rewrite lookup_insert_ne by exact Hne. reflexivity.
Qed.

Lemma deque_append_length_exact {A} (d : list A) x :
  (length d <= N)%nat ->
  length (deque_append N d x) = Nat.min (length d + 1) N.
Proof.
  intros H. rewrite deque_append_lastn by exact H.
  rewrite length_lastn, length_app. cbn [length]. lia.
Qed.

Lemma add_tick_consistent now t dm :
  counts_consistent N dm -> counts_consistent N (add_tick N now t dm).
Proof.
  intros H s. destruct (H s) as [H0 Hlen].
  rewrite buffer_of_add_tick, count_of_add_tick.
  destruct (String.eqb _ s); [|split; assumption].
  split; [lia|]. rewrite deque_append_length_exact by lia. lia.
Qed.

Lemma add_tick_keys now t dm :
  keys_normalized dm -> keys_normalized (add_tick N now t dm).
Proof.
  intros (H1 & H2 & H3). split; [|split].
  - intros s Hs. cbn [add_tick tick_buffers] in Hs.
    destruct (decide (normalize_symbol (tick_symbol t) = s)) as [<-|Hne].
    + apply normalize_symbol_idem.
    + rewrite lookup_insert_ne in Hs by exact Hne. apply H1, Hs.
  - exact H2.
  - intros s Hs. cbn [add_tick tick_buffers tick_counts] in Hs |- *.
    destruct (decide (normalize_symbol (tick_symbol t) = s)) as [<-|Hne].
    + rewrite lookup_insert_eq. eexists. reflexivity.
    + rewrite lookup_insert_ne by exact Hne.
      rewrite lookup_insert_ne in Hs by exact Hne. apply H3, Hs.
Qed.

Lemma clear_buffer_consistent symbol dm :
  counts_consistent N dm -> counts_consistent N (clear_buffer symbol dm).
Proof.
  intros H s. unfold clear_buffer.
  destruct (Str.truthy symbol) as [s0|].
  - unfold buffer_of, count_of. cbn [tick_buffers tick_counts].
    destruct (decide (normalize_symbol s0 = s)) as [<-|Hne].
    + rewrite !lookup_insert_eq. cbn. lia.
    + rewrite !lookup_insert_ne by exact Hne. apply H.
  - destruct (H s) as [H0 Hlen].
    unfold buffer_of, count_of in *. cbn [tick_buffers tick_counts].
    rewrite lookup_fmap, lookup_union, lookup_fmap.
    destruct (tick_buffers dm !! s) as [b|] eqn:Eb; cbn.
    + destruct (tick_counts dm !! s); cbn; lia.
    + cbn in Hlen. destruct (tick_counts dm !! s) as [c|]; cbn in *; lia.
Qed.

Lemma clear_buffer_keys symbol dm :
  keys_normalized dm -> keys_normalized (clear_buffer symbol dm).
Proof.
  intros (H1 & H2 & H3). unfold clear_buffer, keys_normalized.
  destruct (Str.truthy symbol) as [s0|]; cbn [tick_buffers ohlcv_cache tick_counts].
  - split; [|split].
    + intros s Hs.
      destruct (decide (normalize_symbol s0 = s)) as [<-|Hne].
      * apply normalize_symbol_idem.
      * rewrite lookup_insert_ne in Hs by exact Hne. apply H1, Hs.
    + intros s tf [df Hs]. apply map_lookup_filter_Some in Hs.
      apply (H2 s tf). eexists. apply Hs.
    + intros s Hs.
      destruct (decide (normalize_symbol s0 = s)) as [<-|Hne].
      * rewrite lookup_insert_eq. eexists. reflexivity.
      * rewrite lookup_insert_ne by exact Hne.
        rewrite lookup_insert_ne in Hs by exact Hne. apply H3, Hs.
  - split; [|split].
    + intros s Hs. rewrite lookup_fmap in Hs. apply H1.
      destruct (tick_buffers dm !! s); [eexists; reflexivity|].
      destruct Hs as [x Hx]. discriminate.
    + intros s tf [df Hs]. rewrite lookup_empty in Hs. discriminate.
    + intros s Hs. rewrite lookup_fmap.
      rewrite lookup_union, lookup_fmap in Hs.
      destruct (tick_buffers dm !! s) as [b|] eqn:Eb; [eexists; reflexivity|].
      cbn in Hs. exfalso.
      destruct (tick_counts dm !! s) as [c|] eqn:Ec.
      * destruct (H3 s) as [x Hx]; [eexists; exact Ec|]. congruence.
      * destruct Hs as [x Hx]. discriminate.
Qed.

Lemma run_op_cases op dm :
  (exists now t, run_op N to_datetime_utc isoformat to_datetime op dm
                 = add_tick N now t dm)
  \/ (exists symbol, run_op N to_datetime_utc isoformat to_datetime op dm
                     = clear_buffer symbol dm)
  \/ read_trace dm (run_op N to_datetime_utc isoformat to_datetime op dm).
Proof.
  destruct op; cbn [run_op].
  - left. eauto.
  - right. right. apply get_ticks_trace.
  - right. right. apply get_ohlcv_trace.
  - right. right. apply get_latest_price_trace.
  - right. right. apply get_statistics_trace.
  - right. left. eauto.
  - right. right. apply get_price_series_trace.
Qed.

Lemma invariant_init : manager_invariant N DataManager_init.
Proof.
  split; [apply init_bounded|]. split.
  - intros s. unfold count_of, buffer_of. cbn. rewrite !lookup_empty. cbn. lia.
  - unfold keys_normalized. cbn [DataManager_init tick_buffers ohlcv_cache tick_counts].
    split; [|split].
    + intros s [x Hx]. rewrite lookup_empty in Hx. discriminate.
    + intros s tf [x Hx]. rewrite lookup_empty in Hx. discriminate.
    + intros s [x Hx]. rewrite lookup_empty in Hx. discriminate.
Qed.

Lemma invariant_step op dm :
  manager_invariant N dm ->
  manager_invariant N (run_op N to_datetime_utc isoformat to_datetime op dm).
Proof.
  intros (Hb & Hc & Hk).
  destruct (run_op_cases op dm) as [(now & t & ->)|[(symbol & ->)|Hr]].
  - split; [apply add_tick_bounded, Hb|].
    split; [apply add_tick_consistent, Hc | apply add_tick_keys, Hk].
  - split; [|split; [apply clear_buffer_consistent, Hc | apply clear_buffer_keys, Hk]].
    intros s. destruct (clear_buffer_consistent symbol dm Hc s) as [_ H]. lia.
  - destruct (read_trace_frame _ _ Hr) as (Hbuf & Hcnt & _ & _ & Hn).
    split; [intros s; rewrite Hbuf; apply Hb|].
    split; [|apply Hn, Hk].
    intros s. unfold count_of. rewrite Hcnt, Hbuf. apply Hc.
Qed.

End OperationFacts.

(** The invariant holds after any sequence of calls on a fresh manager. *)
Lemma invariant_run_ops
    (N : nat) (to_datetime_utc : string -> option Z) (isoformat : Z -> string)
    (to_datetime : string -> option Z) (ops : list Op) :
  manager_invariant N
    (run_ops N to_datetime_utc isoformat to_datetime ops DataManager_init).
Proof.
  unfold run_ops.
  assert (H : forall dm, manager_invariant N dm ->
            manager_invariant N
              (fold_left (fun st op => run_op N to_datetime_utc isoformat
                                         to_datetime op st) ops dm)).
  { induction ops as [|op ops IH]; intros dm Hdm; [exact Hdm|].
    cbn [fold_left]. apply IH, invariant_step, Hdm. }
  apply H, invariant_init.
Qed.

(** X2.  Whatever calls are made on a fresh manager, in any order, no
    buffer exceeds the capacity, every counter is the number of ticks filed
    since its buffer was last cleared with the buffer holding the newest
    [min(count, capacity)] of them, and every key of the buffers and of the
    cache is a normalised symbol. *)
Theorem manager_invariant_always
    (N : nat) (to_datetime_utc : string -> option Z) (isoformat : Z -> string)
    (to_datetime : string -> option Z) (ops : list Op) :
  let dm := run_ops N to_datetime_utc isoformat to_datetime ops DataManager_init in
  (forall s, (length (buffer_of dm s) <= N)%nat)
  /\ (forall s, 0 <= count_of dm s
                /\ Z.of_nat (length (buffer_of dm s))
                   = Z.min (count_of dm s) (Z.of_nat N))
  /\ (forall s, is_Some (tick_buffers dm !! s) -> normalize_symbol s = s)
  /\ (forall s tf, is_Some (ohlcv_cache dm !! (s, tf)) -> normalize_symbol s = s).
Proof.
  intros dm.
  destruct (invariant_run_ops N to_datetime_utc isoformat to_datetime ops)
    as (Hb & Hc & Hk1 & Hk2 & _).
  fold dm in Hb, Hc, Hk1, Hk2.
  split; [exact Hb|]. split; [exact Hc|]. split; [exact Hk1 | exact Hk2].
Qed.

Lemma count_of_add_ticks N ticks : forall dm s,
  count_of (add_ticks N ticks dm) s
  = count_of dm s + Z.of_nat (length (symbol_ticks s ticks)).
Proof.
  induction ticks as [|[now t] ticks IH]; intros dm s; [cbn; lia|].
  change (add_ticks N ((now, t) :: ticks) dm)
    with (add_ticks N ticks (add_tick N now t dm)).
  rewrite IH, count_of_add_tick. unfold symbol_ticks. cbn [List.filter snd].
  destruct (String.eqb (normalize_symbol (tick_symbol t)) s); cbn [map length]; lia.
Qed.


(** X4.  After [clear_buffer(S)] and a stream of ticks of which [n] are
    filed under [S], the counter of [S] is [n] and its buffer holds the
    newest [min(n, capacity)] of them. *)
Theorem tick_count_since_clear
    (N : nat) (S : string) (dm : DataManager) (ticks : list (Z * Tick)) :
  S <> EmptyString ->
  let sym := normalize_symbol S in
  let dm' := add_ticks N ticks (clear_buffer (Some S) dm) in
  count_of dm' sym = Z.of_nat (length (symbol_ticks sym ticks))
  /\ buffer_of dm' sym = lastn N (symbol_ticks sym ticks).
Proof.
  intros HS sym dm'. subst dm'.
  assert (Hb : buffer_of (clear_buffer (Some S) dm) sym = []).
  { unfold buffer_of, clear_buffer. rewrite (truthy_nonempty S HS).
    cbn [tick_buffers]. fold sym. rewrite lookup_insert_eq. reflexivity. }
  rewrite count_of_add_ticks, buffer_of_add_ticks by (rewrite Hb; cbn; lia).
  rewrite Hb. split; [|reflexivity].
  unfold count_of, clear_buffer. rewrite (truthy_nonempty S HS).
  cbn [tick_counts]. fold sym. rewrite lookup_insert_eq. cbn. lia.
Qed.

(** ** Reading ticks and candles                                         *)

Lemma tail_limit_positive {A} (k : Z) (l : list A) :
  0 < k -> Py.tail_limit k l = lastn (Z.to_nat k) l.
Proof.
  intros Hk. unfold Py.tail_limit, Py.slice_from, Py.clamp, lastn.
  destruct (Z.ltb_spec (- k) 0) as [_|H]; [|lia]. f_equal. lia.
Qed.

Lemma tail_limit_negative {A} (k : Z) (l : list A) :
  k < 0 -> Py.tail_limit k l = skipn (Z.to_nat (- k)) l.
Proof.
  intros Hk. unfold Py.tail_limit, Py.slice_from, Py.clamp.
  destruct (Z.ltb_spec (- k) 0) as [H|_]; [lia|].
  destruct (Nat.le_gt_cases (Z.to_nat (- k)) (length l)) as [Hle|Hgt].
  - f_equal. lia.
  - replace (Nat.min (Z.to_nat (- k)) (length l)) with (length l) by lia.
    rewrite drop_all, drop_ge by lia. reflexivity.
Qed.

(** X5.  [get_ticks] returns the buffered ticks that pass the time filters
    (string comparison on the ISO timestamps), in buffer order; a positive
    [limit] keeps the newest [limit] of them, a negative [limit] drops the
    oldest [-limit] of them instead of being rejected, and [None] or [0]
    keep them all.  The call changes no buffer contents. *)
Theorem get_ticks_filters_and_limit
    (S : string) (limit : option Z) (from_ts to_ts : option string)
    (dm : DataManager) :
  let all := buffer_of dm (normalize_symbol S) in
  let timed := fst (get_ticks S None from_ts to_ts dm) in
  let out := fst (get_ticks S limit from_ts to_ts dm) in
  (forall t, In t timed <->
     In t all
     /\ (forall f, Str.truthy from_ts = Some f -> Str.ge (tick_ts t) f = true)
     /\ (forall u, Str.truthy to_ts = Some u -> Str.le (tick_ts t) u = true))
  /\ sublist timed all
  /\ (forall k, limit = Some k -> 0 < k -> out = lastn (Z.to_nat k) timed)
  /\ (forall k, limit = Some k -> k < 0 -> out = skipn (Z.to_nat (- k)) timed)
  /\ (limit = None \/ limit = Some 0 -> out = timed)
  /\ (forall s, buffer_of (snd (get_ticks S limit from_ts to_ts dm)) s
                = buffer_of dm s).
Proof.
  cbn zeta. unfold get_ticks. cbn [fst snd]. unfold filter_ticks.
  set (all := buffer_of dm (normalize_symbol S)).
  split; [|split; [|split; [|split; [|split]]]].
  - intros t.
    destruct (Str.truthy from_ts) as [f|], (Str.truthy to_ts) as [u|];
      rewrite ?filter_In; split.
    + intros [[H1 H2] H3]. split; [exact H1|].
      split; intros x Hx; injection Hx as <-; assumption.
    + intros (H1 & H2 & H3). split; [split|]; [exact H1 | apply H2 | apply H3];
        reflexivity.
    + intros [H1 H2]. split; [exact H1|].
      split; intros x Hx; [injection Hx as <-; exact H2 | discriminate].
    + intros (H1 & H2 & _). split; [exact H1 | apply H2; reflexivity].
    + intros [H1 H2]. split; [exact H1|].
      split; intros x Hx; [discriminate | injection Hx as <-; exact H2].
    + intros (H1 & _ & H3). split; [exact H1 | apply H3; reflexivity].
    + intros H1. split; [exact H1|]. split; intros x Hx; discriminate.
    + intros (H1 & _). exact H1.
  - assert (Hsub : forall (p : Tick -> bool) l, sublist (List.filter p l) l).
    { intros p l. induction l as [|x l IH]; cbn; [constructor|].
      destruct (p x); [apply sublist_skip | apply sublist_cons]; exact IH. }
    destruct (Str.truthy from_ts) as [f|], (Str.truthy to_ts) as [u|];
      try apply Hsub; try reflexivity.
    etransitivity; apply Hsub.
  - intros k -> Hk. destruct (Z.eqb_spec k 0) as [->|_]; [lia|].
    apply tail_limit_positive, Hk.
  - intros k -> Hk. destruct (Z.eqb_spec k 0) as [->|_]; [lia|].
    apply tail_limit_negative, Hk.
  - intros [->| ->]; reflexivity.
  - intros s. apply buffer_of_touch.
Qed.

Lemma filter_ticks_nil limit from_ts to_ts : filter_ticks limit from_ts to_ts [] = [].
Proof.
  unfold filter_ticks.
  destruct (Str.truthy from_ts), (Str.truthy to_ts), limit as [k|];
    cbn [List.filter]; try reflexivity;
    (destruct (k =? 0); [reflexivity|]);
    unfold Py.tail_limit, Py.slice_from; apply skipn_nil.
Qed.

Lemma ohlcv_cache_add_ticks N ticks : forall dm,
  ohlcv_cache (add_ticks N ticks dm) = ohlcv_cache dm.
Proof.
  induction ticks as [|[now t] ticks IH]; intros dm; [reflexivity|].
  change (add_ticks N ((now, t) :: ticks) dm)
    with (add_ticks N ticks (add_tick N now t dm)).
  rewrite IH. reflexivity.
Qed.

Section CacheBehaviour.

Variable to_datetime_utc : string -> option Z.
Variable isoformat : Z -> string.
Variable to_datetime : string -> option Z.

Abbreviation get_ohlcv' := (get_ohlcv to_datetime_utc isoformat).
Abbreviation get_price_series' :=
  (get_price_series to_datetime_utc isoformat to_datetime).
Abbreviation resample' := (resample_to_ohlcv to_datetime_utc isoformat).

(** A non-forced call with the entry present. *)
Lemma get_ohlcv_hit symbol tf limit from_ts to_ts dm df :
  ohlcv_cache dm !! (normalize_symbol symbol, tf) = Some df ->
  get_ohlcv' symbol tf limit from_ts to_ts false dm
  = (Some (filter_candles limit from_ts to_ts df), dm).
Proof. intros H. unfold get_ohlcv. rewrite H. reflexivity. Qed.

(** A call that finds no usable entry, on a non-empty filtered snapshot. *)
Lemma get_ohlcv_miss symbol tf limit from_ts to_ts (force : bool) dm t ticks :
  (if force then None else ohlcv_cache dm !! (normalize_symbol symbol, tf)) = None ->
  filter_ticks None from_ts to_ts (buffer_of dm (normalize_symbol symbol)) = t :: ticks ->
  get_ohlcv' symbol tf limit from_ts to_ts force dm
  = match resample' (t :: ticks) (timeframe_to_pandas_rule tf) with
    | Some df => (Some (filter_candles limit from_ts to_ts df),
                  set_cache (normalize_symbol symbol, tf) df
                    (touch_buffer (normalize_symbol symbol) dm))
    | None => (None, touch_buffer (normalize_symbol symbol) dm)
    end.
Proof.
  intros Hc Ht. unfold get_ohlcv. rewrite Hc. cbn [get_ticks].
  rewrite normalize_symbol_idem, Ht. reflexivity.
Qed.

Lemma get_ohlcv_empty symbol tf limit from_ts to_ts (force : bool) dm :
  (if force then None else ohlcv_cache dm !! (normalize_symbol symbol, tf)) = None ->
  filter_ticks None from_ts to_ts (buffer_of dm (normalize_symbol symbol)) = [] ->
  get_ohlcv' symbol tf limit from_ts to_ts force dm
  = (Some [], touch_buffer (normalize_symbol symbol) dm).
Proof.
  intros Hc Ht. unfold get_ohlcv. rewrite Hc. cbn [get_ticks].
  rewrite normalize_symbol_idem, Ht. reflexivity.
Qed.

(** X6.  New ticks never invalidate a cached frame: once the
    [(symbol, timeframe)] entry exists, a non-forced [get_ohlcv] keeps
    returning that entry (under the caller's filters) however many ticks are
    added afterwards, and does not touch the manager. *)
Theorem get_ohlcv_ignores_new_ticks
    (N : nat) (symbol tf : string) (limit : option Z)
    (from_ts to_ts : option string) (dm : DataManager) (df : list Candle)
    (ticks : list (Z * Tick)) :
  ohlcv_cache dm !! (normalize_symbol symbol, tf) = Some df ->
  get_ohlcv' symbol tf limit from_ts to_ts false (add_ticks N ticks dm)
  = (Some (filter_candles limit from_ts to_ts df), add_ticks N ticks dm).
Proof.
  intros H. apply get_ohlcv_hit. rewrite ohlcv_cache_add_ticks. exact H.
Qed.

(** X7.  The frame a non-forced [get_ohlcv] caches on a miss is the one
    resampled from the time-filtered ticks of that call; every later
    non-forced call for the same symbol and timeframe, whatever its own
    filters, is answered from that frame. *)
Theorem get_ohlcv_caches_the_filtered_frame
    (symbol tf : string) (limit limit' : option Z)
    (from_ts to_ts from_ts' to_ts' : option string) (dm : DataManager)
    (df : list Candle) :
  ohlcv_cache dm !! (normalize_symbol symbol, tf) = None ->
  filter_ticks None from_ts to_ts (buffer_of dm (normalize_symbol symbol)) <> [] ->
  resample' (filter_ticks None from_ts to_ts (buffer_of dm (normalize_symbol symbol)))
    (timeframe_to_pandas_rule tf) = Some df ->
  let dm1 := snd (get_ohlcv' symbol tf limit from_ts to_ts false dm) in
  ohlcv_cache dm1 !! (normalize_symbol symbol, tf) = Some df
  /\ fst (get_ohlcv' symbol tf limit' from_ts' to_ts' false dm1)
     = Some (filter_candles limit' from_ts' to_ts' df).
Proof.
  intros Hc Hne Hres dm1. subst dm1.
  destruct (filter_ticks None from_ts to_ts (buffer_of dm (normalize_symbol symbol)))
    as [|t ticks] eqn:Et; [congruence|].
  rewrite (get_ohlcv_miss symbol tf limit from_ts to_ts false dm t ticks Hc Et), Hres.
  cbn [snd]. split; [apply set_cache_lookup|].
  rewrite (get_ohlcv_hit _ _ _ _ _ _ df) by apply set_cache_lookup. reflexivity.
Qed.

(** X8.  [clear_buffer(S)] takes effect for every reader: afterwards
    [get_ticks(S)] is empty, [get_latest_price(S)] is [None], [get_ohlcv]
    returns no candle (forced or not) and caches nothing, and
    [get_price_series] is empty. *)
Theorem clear_buffer_then_read
    (S tf : string) (limit : option Z) (from_ts to_ts : option string)
    (force : bool) (dm : DataManager) :
  S <> EmptyString ->
  let dm' := clear_buffer (Some S) dm in
  fst (get_ticks S limit from_ts to_ts dm') = []
  /\ fst (get_latest_price S dm') = None
  /\ fst (get_ohlcv' S tf limit from_ts to_ts force dm') = Some []
  /\ ohlcv_cache (snd (get_ohlcv' S tf limit from_ts to_ts force dm'))
       !! (normalize_symbol S, tf) = None
  /\ fst (get_price_series' S tf limit force dm') = Some [].
Proof.
  intros HS dm'.
  assert (Hb : buffer_of dm' (normalize_symbol S) = []).
  { subst dm'. unfold buffer_of, clear_buffer. rewrite (truthy_nonempty S HS).
    cbn [tick_buffers]. rewrite lookup_insert_eq. reflexivity. }
  assert (Hc : ohlcv_cache dm' !! (normalize_symbol S, tf) = None).
  { subst dm'. unfold clear_buffer. rewrite (truthy_nonempty S HS).
    cbn [ohlcv_cache]. apply map_lookup_filter_None. right.
    intros df _ Hne. apply Hne. reflexivity. }
  assert (Hc' : (if force then None
                 else ohlcv_cache dm' !! (normalize_symbol S, tf)) = None)
    by (destruct force; [reflexivity | exact Hc]).
  split; [cbn [get_ticks fst]; rewrite Hb; apply filter_ticks_nil|].
  split; [cbn [get_latest_price fst]; rewrite Hb; reflexivity|].
  rewrite (get_ohlcv_empty S tf limit from_ts to_ts force dm' Hc')
    by (rewrite Hb; apply filter_ticks_nil).
  cbn [fst snd]. split; [reflexivity|]. split; [exact Hc|].
  unfold get_price_series. rewrite Hc', Hb. reflexivity.
Qed.

(** A forced fetch computes its series from the buffer alone. *)
Lemma get_price_series_forced symbol tf limit dm :
  fst (get_price_series' symbol tf limit true dm)
  = price_series_of_ticks to_datetime_utc isoformat to_datetime tf limit
      (buffer_of dm (normalize_symbol symbol)).
Proof.
  unfold get_price_series, price_series_of_ticks.
  destruct (buffer_of dm (normalize_symbol symbol)) as [|t b]; [reflexivity|].
  destruct (resample' (t :: b) (timeframe_to_pandas_rule tf)) as [[|c df]|];
    reflexivity.
Qed.

Lemma set_cache_idem key df dm : set_cache key df (set_cache key df dm) = set_cache key df dm.
Proof. unfold set_cache. cbn. rewrite insert_insert_eq. reflexivity. Qed.

Lemma touch_set_cache s key df dm :
  touch_buffer s (set_cache key df dm) = set_cache key df (touch_buffer s dm).
Proof. reflexivity. Qed.

(** X9.  A forced [get_price_series] depends on the manager only through
    the symbol's buffer, and is repeatable: a second forced call returns the
    same series and leaves the manager as the first left it.  When it
    resamples a non-empty frame it stores that frame, so that a following
    non-forced [get_ohlcv] returns the candles of the whole buffer. *)
Theorem get_price_series_forced_repeatable
    (symbol tf : string) (limit : option Z) (dm : DataManager) :
  let call := get_price_series' symbol tf limit true in
  (forall dm2, buffer_of dm2 (normalize_symbol symbol)
               = buffer_of dm (normalize_symbol symbol) ->
     fst (call dm2) = fst (call dm))
  /\ fst (call (snd (call dm))) = fst (call dm)
  /\ snd (call (snd (call dm))) = snd (call dm)
  /\ (forall c df limit' from_ts to_ts,
        buffer_of dm (normalize_symbol symbol) <> [] ->
        resample' (buffer_of dm (normalize_symbol symbol))
          (timeframe_to_pandas_rule tf) = Some (c :: df) ->
        fst (get_ohlcv' symbol tf limit' from_ts to_ts false (snd (call dm)))
        = Some (filter_candles limit' from_ts to_ts (c :: df))).
Proof.
  cbn zeta.
  assert (Hdep : forall dm1 dm2,
            buffer_of dm2 (normalize_symbol symbol)
            = buffer_of dm1 (normalize_symbol symbol) ->
            fst (get_price_series' symbol tf limit true dm2)
            = fst (get_price_series' symbol tf limit true dm1)).
  { intros dm1 dm2 H. rewrite !get_price_series_forced, H. reflexivity. }
  assert (Hbuf : forall s, buffer_of (snd (get_price_series' symbol tf limit true dm)) s
                           = buffer_of dm s).
  { intros s. apply (read_trace_frame dm _
      (get_price_series_trace to_datetime_utc isoformat to_datetime
         symbol tf limit true dm)). }
  split; [intros dm2 H; apply Hdep, H|].
  split; [apply Hdep, Hbuf|]. split.
  - unfold get_price_series. cbn [snd].
    destruct (buffer_of dm (normalize_symbol symbol)) as [|t b] eqn:Eb.
    + cbn [snd]. rewrite buffer_of_touch, Eb. cbn [snd].
      apply touch_buffer_idem.
    + destruct (resample' (t :: b) (timeframe_to_pandas_rule tf)) as [[|c df]|] eqn:Er;
        cbn [snd].
      * rewrite buffer_of_touch, Eb, Er. cbn [snd]. apply touch_buffer_idem.
      * change (buffer_of (set_cache ?k ?d ?m) ?s) with (buffer_of m s).
        rewrite buffer_of_touch, Eb, Er. cbn [snd].
        rewrite touch_set_cache, touch_buffer_idem. apply set_cache_idem.
      * rewrite buffer_of_touch, Eb, Er. cbn [snd]. apply touch_buffer_idem.
  - intros c df limit' from_ts to_ts Hne Hres.
    rewrite (get_ohlcv_hit symbol tf limit' from_ts to_ts _ (c :: df)); [reflexivity|].
    unfold get_price_series. cbn [snd].
    destruct (buffer_of dm (normalize_symbol symbol)) as [|t b]; [congruence|].
    rewrite Hres. cbn [snd]. apply set_cache_lookup.
Qed.

End CacheBehaviour.

(** ** Timeframes and the periodic resampler                             *)

Lemma lower_upper s : Str.lower (Str.upper s) = Str.lower (Str.lower s).
Proof.
  unfold Str.lower, Str.upper. induction s as [|c s IH]; cbn; [reflexivity|].
  rewrite IH. f_equal. destruct c as [[] [] [] [] [] [] [] []]; reflexivity.
Qed.

Lemma lower_idem s : Str.lower (Str.lower s) = Str.lower s.
Proof.
  unfold Str.lower. induction s as [|c s IH]; cbn; [reflexivity|].
  rewrite IH. f_equal. destruct c as [[] [] [] [] [] [] [] []]; reflexivity.
Qed.

(** Every timeframe string selects a rule of known width. *)
Lemma rule_nanos_of_timeframe (tf : string) :
  rule_nanos (timeframe_to_pandas_rule tf)
  = Some (timeframe_to_seconds tf * 1000000000).
Proof.
  unfold timeframe_to_pandas_rule, timeframe_to_seconds.
  repeat (destruct (String.eqb (Str.lower tf) _); [reflexivity|]).
  reflexivity.
Qed.

(** X10.  The two timeframe tables agree: for every timeframe string, in
    any letter case and including the unknown ones that fall back to one
    minute, the resample rule chosen by [timeframe_to_pandas_rule] has the
    bin width that [timeframe_to_seconds] reports. *)
Theorem timeframe_tables_agree (tf : string) :
  rule_nanos (timeframe_to_pandas_rule tf)
  = Some (timeframe_to_seconds tf * 1000000000)
  /\ timeframe_to_pandas_rule (Str.upper tf) = timeframe_to_pandas_rule (Str.lower tf)
  /\ timeframe_to_seconds (Str.upper tf) = timeframe_to_seconds (Str.lower tf)
  /\ 0 < timeframe_to_seconds tf.
Proof.
  pose proof (lower_upper tf) as Hlow.
  pose proof (lower_idem tf) as Hlow2.
  split; [apply rule_nanos_of_timeframe|]. split; [|split].
  - unfold timeframe_to_pandas_rule. rewrite Hlow, !Hlow2. reflexivity.
  - unfold timeframe_to_seconds. rewrite Hlow, !Hlow2. reflexivity.
  - unfold timeframe_to_seconds.
    repeat (destruct (String.eqb (Str.lower tf) _); [lia|]). lia.
Qed.


Section ResamplerFacts.

Variable to_datetime_utc : string -> option Z.
Variable isoformat : Z -> string.

Abbreviation get_ohlcv' := (get_ohlcv to_datetime_utc isoformat).
Abbreviation resample' := (resample_to_ohlcv to_datetime_utc isoformat).
Abbreviation resample_one' := (resample_one to_datetime_utc isoformat).
Abbreviation resample_pass' := (resample_pass to_datetime_utc isoformat).
Abbreviation fresh_frame' := (fresh_frame to_datetime_utc isoformat).


Lemma touch_present {V} (d : V) k (m : gmap string V) :
  is_Some (m !! k) -> touch d k m = m.
Proof. intros [x Hx]. unfold touch. rewrite Hx. reflexivity. Qed.

Lemma touch_buffer_present s dm :
  is_Some (tick_buffers dm !! s) -> touch_buffer s dm = dm.
Proof.
  intros H. unfold touch_buffer. rewrite (touch_present _ _ _ H).
  destruct dm; reflexivity.
Qed.

(** One forced resample of a registered, normalised symbol. *)
Lemma resample_one_step s tf dm :
  normalize_symbol s = s -> is_Some (tick_buffers dm !! s) ->
  resample_one' s tf dm
  = match fresh_frame' dm s tf with
    | Some df => set_cache (s, tf) df dm
    | None => dm
    end.
Proof.
  intros Hn Hs. unfold resample_one, get_ohlcv, fresh_frame.
  cbn [get_ticks]. rewrite !Hn, filter_ticks_none.
  rewrite (touch_buffer_present s dm Hs).
  destruct (buffer_of dm s) as [|t b]; [reflexivity|].
  destruct (resample' (t :: b) (timeframe_to_pandas_rule tf)); reflexivity.
Qed.

Lemma resample_pass_pairs symbols timeframes dm :
  resample_pass' symbols timeframes dm
  = fold_left (fun st p => resample_one' (fst p) (snd p) st)
      (pairs_of symbols timeframes) dm.
Proof.
  assert (Hinner : forall s tfs st,
            fold_left (fun st' tf => resample_one' s tf st') tfs st
            = fold_left (fun st' p => resample_one' (fst p) (snd p) st')
                (map (pair s) tfs) st).
  { intros s tfs. induction tfs as [|tf tfs IHt]; intros st; [reflexivity|].
    cbn [fold_left map fst snd]. apply IHt. }
  unfold resample_pass, pairs_of. revert dm.
  induction symbols as [|s symbols IH]; intros dm; [reflexivity|].
  cbn [fold_left flat_map]. rewrite fold_left_app, <- IH, Hinner. reflexivity.
Qed.

Lemma fold_resample_one pairs : forall dm,
  (forall p, In p pairs ->
     normalize_symbol (fst p) = fst p /\ is_Some (tick_buffers dm !! fst p)) ->
  let dm' := fold_left (fun st p => resample_one' (fst p) (snd p) st) pairs dm in
  tick_buffers dm' = tick_buffers dm
  /\ tick_counts dm' = tick_counts dm
  /\ last_tick_time dm' = last_tick_time dm
  /\ (forall k df, In k pairs -> fresh_frame' dm (fst k) (snd k) = Some df ->
        ohlcv_cache dm' !! k = Some df)
  /\ (forall k, ~ In k pairs \/ fresh_frame' dm (fst k) (snd k) = None ->
        ohlcv_cache dm' !! k = ohlcv_cache dm !! k).
Proof.
  induction pairs as [|[s tf] pairs IH]; intros dm Hp; cbn zeta.
  - cbn [fold_left]. repeat split; try reflexivity. intros k df [].
  - cbn [fold_left fst snd].
    destruct (Hp (s, tf) (or_introl eq_refl)) as [Hn Hs]. cbn [fst] in Hn, Hs.
    rewrite (resample_one_step s tf dm Hn Hs).
    set (dm1 := match fresh_frame' dm s tf with
                | Some df => set_cache (s, tf) df dm
                | None => dm
                end).
    assert (Htb : tick_buffers dm1 = tick_buffers dm)
      by (subst dm1; destruct (fresh_frame' dm s tf); reflexivity).
    assert (Hfr : forall s' tf', fresh_frame' dm1 s' tf' = fresh_frame' dm s' tf')
      by (intros; unfold fresh_frame, buffer_of; rewrite Htb; reflexivity).
    assert (Hc1 : forall k, ohlcv_cache dm1 !! k
                  = match fresh_frame' dm s tf with
                    | Some df => if decide ((s, tf) = k) then Some df
                                 else ohlcv_cache dm !! k
                    | None => ohlcv_cache dm !! k
                    end).
    { intros k. subst dm1. destruct (fresh_frame' dm s tf); [|reflexivity].
      cbn [set_cache ohlcv_cache]. apply lookup_insert. }
    destruct (IH dm1) as (H1 & H2 & H3 & H4 & H5).
    { intros p Hin. destruct (Hp p (or_intror Hin)) as [Ha Hb].
      split; [exact Ha | rewrite Htb; exact Hb]. }
    cbn zeta in *.
    split; [rewrite H1; exact Htb|].
    split; [rewrite H2; subst dm1; destruct (fresh_frame' dm s tf); reflexivity|].
    split; [rewrite H3; subst dm1; destruct (fresh_frame' dm s tf); reflexivity|].
    split.
    + intros k df Hin Hf.
      destruct (decide (k ∈ pairs)) as [Hk|Hk]; rewrite list_elem_of_In in Hk.
      * apply H4; [exact Hk | rewrite Hfr; exact Hf].
      * rewrite H5 by (left; exact Hk). rewrite Hc1.
        destruct Hin as [<-|Hin]; [|contradiction].
        cbn [fst snd] in Hf. rewrite Hf.
        destruct (decide ((s, tf) = (s, tf))); [reflexivity | congruence].
    + intros k Hk. rewrite H5.
      * rewrite Hc1. destruct (fresh_frame' dm s tf) as [df|] eqn:Ef; [|reflexivity].
        destruct (decide ((s, tf) = k)) as [<-|Hne]; [|reflexivity].
        destruct Hk as [Hk|Hk]; [exfalso; apply Hk; left; reflexivity|].
        cbn [fst snd] in Hk. congruence.
      * destruct Hk as [Hk|Hk]; [left; intros Hin; apply Hk; right; exact Hin|].
        right. rewrite Hfr. exact Hk.
Qed.

(** X12.  One pass of the periodic resampler over the registered symbols
    and the configured timeframes rewrites exactly the entries it can
    recompute: every [(symbol, timeframe)] whose buffer is non-empty and
    resamples gets the frame of the whole buffer; every other entry (other
    keys, symbols with an empty buffer, failed resamples) is left as it was,
    stale or not; buffers, counters and timestamps are untouched. *)
Theorem resample_pass_refreshes_cache
    (symbols timeframes : list string) (dm : DataManager) :
  keys_normalized dm ->
  (forall s, In s symbols -> is_Some (tick_buffers dm !! s)) ->
  let dm' := resample_pass' symbols timeframes dm in
  tick_buffers dm' = tick_buffers dm
  /\ tick_counts dm' = tick_counts dm
  /\ last_tick_time dm' = last_tick_time dm
  /\ (forall s tf df, In s symbols -> In tf timeframes ->
        fresh_frame' dm s tf = Some df -> ohlcv_cache dm' !! (s, tf) = Some df)
  /\ (forall s tf,
        ~ (In s symbols /\ In tf timeframes) \/ fresh_frame' dm s tf = None ->
        ohlcv_cache dm' !! (s, tf) = ohlcv_cache dm !! (s, tf)).
Proof.
  intros (Hk & _) Hs dm'. subst dm'. rewrite resample_pass_pairs.
  assert (Hin : forall s tf, In (s, tf) (pairs_of symbols timeframes)
                             <-> In s symbols /\ In tf timeframes).
  { intros s tf. unfold pairs_of. rewrite in_flat_map. split.
    - intros (s' & Hs' & Hp). apply in_map_iff in Hp.
      destruct Hp as (tf' & E & Htf). injection E as -> ->. split; assumption.
    - intros [H1 H2]. exists s. split; [exact H1|]. apply in_map, H2. }
  destruct (fold_resample_one (pairs_of symbols timeframes) dm)
    as (H1 & H2 & H3 & H4 & H5).
  { intros [s tf] Hp. apply Hin in Hp. cbn [fst].
    split; [apply Hk, Hs, Hp | apply Hs, Hp]. }
  cbn zeta in *.
  split; [exact H1|]. split; [exact H2|]. split; [exact H3|]. split.
  - intros s tf df Hs' Htf Hf. apply (H4 (s, tf) df); [apply Hin; split; assumption|].
    exact Hf.
  - intros s tf Hcase. apply (H5 (s, tf)).
    destruct Hcase as [Hn|Hn]; [left; rewrite Hin; exact Hn | right; exact Hn].
Qed.

End ResamplerFacts.

(** ** More on resampling                                                *)

Section SortedFacts.

Lemma StronglySorted_filter {A} (R : A -> A -> Prop) (p : A -> bool) l :
  StronglySorted R l -> StronglySorted R (List.filter p l).
Proof.
  induction 1 as [|x l Hs IH Hall]; cbn; [constructor|].
  destruct (p x); [|exact IH]. constructor; [exact IH|].
  apply List.Forall_forall. intros y Hy. apply filter_In in Hy.
  apply (proj1 (List.Forall_forall _ _) Hall y (proj1 Hy)).
Qed.

Lemma bucket_edges_sorted w lo hi :
  0 < w -> StronglySorted Z.lt (bucket_edges w lo hi).
Proof.
  intros Hw. unfold bucket_edges.
  generalize (Z.to_nat ((hi - lo) / w + 1)) as n. generalize 0%nat as a.
  intros a n. revert a. induction n as [|n IH]; intros a; cbn; [constructor|].
  constructor; [apply IH|].
  apply List.Forall_forall. intros y Hy. apply in_map_iff in Hy.
  destruct Hy as (k & <- & Hk). apply in_seq in Hk. nia.
Qed.

Lemma StronglySorted_lt_NoDup l : StronglySorted Z.lt l -> List.NoDup l.
Proof.
  induction 1 as [|x l Hs IH Hall]; constructor; [|exact IH].
  intros Hin. pose proof (proj1 (List.Forall_forall _ _) Hall x Hin). lia.
Qed.

Lemma bucket_edges_multiple w lo hi b :
  w <> 0 -> lo mod w = 0 -> In b (bucket_edges w lo hi) -> b mod w = 0.
Proof.
  intros Hw Hlo Hb. unfold bucket_edges in Hb. apply in_map_iff in Hb.
  destruct Hb as (k & <- & _). rewrite Z.add_mod, Z.mod_mul, Hlo by exact Hw.
  cbn. apply Z.mod_0_l, Hw.
Qed.

Lemma bucket_of_multiple w t : w <> 0 -> bucket_of w t mod w = 0.
Proof. intros Hw. unfold bucket_of. apply Z.mod_mul, Hw. Qed.

Lemma bucket_of_mono w a b : 0 < w -> a <= b -> bucket_of w a <= bucket_of w b.
Proof.
  intros Hw Hab. unfold bucket_of.
  apply Z.mul_le_mono_nonneg_r; [lia|]. apply Z.div_le_mono; lia.
Qed.

(** Every bin between the first and the last is among the edges. *)
Lemma bucket_in_edges w lo hi b :
  0 < w -> lo mod w = 0 -> b mod w = 0 -> lo <= b <= hi ->
  In b (bucket_edges w lo hi).
Proof.
  intros Hw Hlo Hb Hrange. unfold bucket_edges. apply in_map_iff.
  exists (Z.to_nat ((b - lo) / w)).
  assert (Hdiv : (b - lo) mod w = 0).
  { rewrite Zminus_mod, Hb, Hlo. cbn. apply Z.mod_0_l. lia. }
  assert (Hq : b - lo = w * ((b - lo) / w))
    by (apply Z_div_exact_full_2; [lia | exact Hdiv]).
  assert (Hq0 : 0 <= (b - lo) / w) by (apply Z.div_pos; lia).
  split; [rewrite Z2Nat.id by exact Hq0; lia|].
  apply in_seq. split; [lia|].
  assert ((b - lo) / w <= (hi - lo) / w) by (apply Z.div_le_mono; lia).
  lia.
Qed.

Lemma min_time_le t0 l :
  min_time t0 l <= t0 /\ forall x, In x l -> min_time t0 l <= pt_time x.
Proof.
  unfold min_time. revert t0. induction l as [|y l IH]; intros t0; cbn.
  - split; [lia | intros x []].
  - destruct (IH (Z.min t0 (pt_time y))) as [H1 H2]. split; [lia|].
    intros x [<-|Hx]; [lia | apply H2, Hx].
Qed.

Lemma max_time_ge t0 l :
  t0 <= max_time t0 l /\ forall x, In x l -> pt_time x <= max_time t0 l.
Proof.
  unfold max_time. revert t0. induction l as [|y l IH]; intros t0; cbn.
  - split; [lia | intros x []].
  - destruct (IH (Z.max t0 (pt_time y))) as [H1 H2]. split; [lia|].
    intros x [<-|Hx]; [lia | apply H2, Hx].
Qed.

Lemma insert_by_time_in_fwd x y l : x = y \/ In x l -> In x (insert_by_time y l).
Proof.
  induction l as [|z l IH]; cbn.
  - intros [->|[]]. left. reflexivity.
  - destruct (pt_time y <? pt_time z).
    + intros [->|H]; [left; reflexivity | right; exact H].
    + intros [->|[->|H]].
      * right. apply IH. left. reflexivity.
      * left. reflexivity.
      * right. apply IH. right. exact H.
Qed.

Lemma sort_by_time_in_fwd x l : In x l -> In x (sort_by_time l).
Proof.
  unfold sort_by_time.
  assert (H : forall acc, In x l \/ In x acc ->
                          In x (fold_left (fun acc y => insert_by_time y acc) l acc)).
  { induction l as [|y l IH]; intros acc Hin; cbn.
    - destruct Hin as [[]|H]. exact H.
    - apply IH. destruct Hin as [[->|H]|H].
      + right. apply insert_by_time_in_fwd. left. reflexivity.
      + left. exact H.
      + right. apply insert_by_time_in_fwd. right. exact H. }
  intros Hin. apply H. left. exact Hin.
Qed.

Lemma rule_nanos_positive rule w : rule_nanos rule = Some w -> 0 < w.
Proof.
  unfold rule_nanos.
  repeat (destruct (String.eqb rule _); [intros H; injection H as <-; lia|]).
  discriminate.
Qed.

Lemma traverse_in_fwd {A B} (f : A -> option B) (l : list A) (r : list B) x y :
  traverse f l = Some r -> In x l -> f x = Some y -> In y r.
Proof.
  revert r. induction l as [|a l IH]; intros r H Hx Hf; [destruct Hx|].
  cbn in H. destruct (f a) as [b|] eqn:E; [|discriminate].
  destruct (traverse f l) as [ys|]; [|discriminate].
  injection H as <-. destruct Hx as [->|Hx].
  - left. congruence.
  - right. apply (IH ys eq_refl Hx Hf).
Qed.

Lemma length_ffill_from prev l : length (Fl.ffill_from prev l) = length l.
Proof.
  revert prev. induction l as [|x l IH]; intros prev; cbn; [reflexivity|].
  rewrite IH. reflexivity.
Qed.

Lemma length_fill_col col : length (fill_col col) = length col.
Proof.
  unfold fill_col, Fl.bfill, Fl.ffill.
  rewrite length_rev, length_ffill_from, length_rev, length_ffill_from, length_map.
  reflexivity.
Qed.

Lemma first_valid_notna l x :
  In x l -> Fl.isnan x = false -> Fl.isnan (Fl.first_valid l) = false.
Proof.
  intros Hin Hx. unfold Fl.first_valid.
  destruct (List.filter Fl.notna l) as [|y r] eqn:E.
  - assert (H : In x (List.filter Fl.notna l)).
    { apply filter_In. split; [exact Hin|]. unfold Fl.notna. rewrite Hx. reflexivity. }
    rewrite E in H. destruct H.
  - assert (H : In y (List.filter Fl.notna l)) by (rewrite E; left; reflexivity).
    apply filter_In in H. destruct H as [_ H]. unfold Fl.notna in H.
    apply negb_true_iff in H. exact H.
Qed.

Lemma fold_fmax2_choice l : forall acc, In (fold_left Fl.fmax2 l acc) (acc :: l).
Proof.
  induction l as [|x l IH]; intros acc; cbn [fold_left]; [left; reflexivity|].
  destruct (IH (Fl.fmax2 acc x)) as [H|H]; [|right; right; exact H].
  rewrite <- H. unfold Fl.fmax2.
  destruct (Fl.isnan x); [left; reflexivity|].
  destruct (Fl.isnan acc); [right; left; reflexivity|].
  destruct (PrimFloat.ltb acc x); [right; left | left]; reflexivity.
Qed.

Lemma fold_fmin2_choice l : forall acc, In (fold_left Fl.fmin2 l acc) (acc :: l).
Proof.
  induction l as [|x l IH]; intros acc; cbn [fold_left]; [left; reflexivity|].
  destruct (IH (Fl.fmin2 acc x)) as [H|H]; [|right; right; exact H].
  rewrite <- H. unfold Fl.fmin2.
  destruct (Fl.isnan x); [left; reflexivity|].
  destruct (Fl.isnan acc); [right; left; reflexivity|].
  destruct (PrimFloat.ltb x acc); [right; left | left]; reflexivity.
Qed.

(** The maximum and minimum of a row with a usable entry are entries. *)
Lemma nanmax_in l x : In x l -> Fl.isnan x = false -> In (Fl.nanmax l) l.
Proof.
  intros Hin Hx. destruct (FlFacts.nanmax_ge l x Hin Hx) as [Hn _].
  destruct (fold_fmax2_choice l Fl.NaN) as [H|H]; [|exact H].
  unfold Fl.nanmax in Hn. rewrite <- H in Hn. discriminate.
Qed.

Lemma nanmin_in l x : In x l -> Fl.isnan x = false -> In (Fl.nanmin l) l.
Proof.
  intros Hin Hx. destruct (FlFacts.nanmin_le l x Hin Hx) as [Hn _].
  destruct (fold_fmin2_choice l Fl.NaN) as [H|H]; [|exact H].
  unfold Fl.nanmin in Hn. rewrite <- H in Hn. discriminate.
Qed.

End SortedFacts.

Section ResampleMore.

Variable to_datetime_utc : string -> option Z.
Variable isoformat : Z -> string.

Abbreviation resample' := (resample_to_ohlcv to_datetime_utc isoformat).

Lemma finish_rows_shape : forall ts o h l cl v,
  length o = length ts -> length h = length ts -> length l = length ts ->
  length cl = length ts -> length v = length ts ->
  map c_ts (finish_rows isoformat ts o h l cl v) = map isoformat ts
  /\ Forall (fun c => Fl.isnan (c_volume c) = false)
       (finish_rows isoformat ts o h l cl v).
Proof.
  induction ts as [|t ts IH]; intros o h l cl v Ho Hh Hl Hc Hv.
  - split; [reflexivity | constructor].
  - destruct o as [|o1 o]; [discriminate|]. destruct h as [|h1 h]; [discriminate|].
    destruct l as [|l1 l]; [discriminate|]. destruct cl as [|c1 cl]; [discriminate|].
    destruct v as [|v1 v]; [discriminate|].
    cbn in Ho, Hh, Hl, Hc, Hv. cbn [finish_rows map].
    destruct (IH o h l cl v) as [H1 H2]; try lia.
    split; [cbn [c_ts]; rewrite H1; reflexivity|].
    constructor; [|exact H2]. cbn [c_volume]. unfold Fl.fillna.
    destruct (Fl.isnan v1) eqn:E; [reflexivity | exact E].
Qed.

Lemma ohlcv_rows_shape w pts :
  map c_ts (ohlcv_rows isoformat w pts) = map isoformat (map r_time (kept_rows w pts))
  /\ Forall (fun c => Fl.isnan (c_volume c) = false) (ohlcv_rows isoformat w pts).
Proof.
  rewrite ohlcv_rows_kept.
  apply finish_rows_shape; rewrite ?length_fill_col, !length_map; reflexivity.
Qed.

Lemma kept_times w pts :
  0 < w ->
  StronglySorted Z.lt (map r_time (kept_rows w pts))
  /\ Forall (fun b => b mod w = 0) (map r_time (kept_rows w pts))
  /\ (length (kept_rows w pts) <= length pts)%nat.
Proof.
  intros Hw. destruct pts as [|p0 pts0] eqn:Ep; [repeat constructor|].
  rewrite <- Ep. unfold kept_rows. rewrite Ep. rewrite <- Ep.
  set (sorted := sort_by_time pts).
  set (edges := bucket_edges w _ _).
  assert (Hmap : map r_time (List.filter not_all_nan (map (raw_row w sorted) edges))
                 = List.filter (fun b => not_all_nan (raw_row w sorted b)) edges).
  { induction edges as [|b es IH]; cbn; [reflexivity|].
    destruct (not_all_nan (raw_row w sorted b)); cbn; rewrite IH; reflexivity. }
  rewrite Hmap.
  assert (Hsorted : StronglySorted Z.lt
                      (List.filter (fun b => not_all_nan (raw_row w sorted b)) edges))
    by (apply StronglySorted_filter, bucket_edges_sorted, Hw).
  split; [exact Hsorted|]. split.
  - apply List.Forall_forall. intros b Hb. apply filter_In in Hb.
    destruct Hb as [Hb _]. subst edges.
    eapply bucket_edges_multiple; [lia | apply bucket_of_multiple; lia | exact Hb].
  - rewrite <- (length_map r_time), Hmap.
    rewrite <- (length_map (fun x => bucket_of w (pt_time x)) pts).
    apply NoDup_incl_length; [apply StronglySorted_lt_NoDup, Hsorted|].
    intros b Hb. apply filter_In in Hb. destruct Hb as [_ Hb].
    unfold raw_row in Hb.
    destruct (List.filter (in_bucket w b) sorted) as [|x inb] eqn:E;
      [discriminate|].
    assert (Hx : In x (List.filter (in_bucket w b) sorted))
      by (rewrite E; left; reflexivity).
    apply filter_In in Hx. destruct Hx as [Hx Hbx].
    apply in_map_iff. exists x. split; [apply Z.eqb_eq, Hbx|].
    apply sort_by_time_in, Hx.
Qed.

(** X13.  The candles of [resample_to_ohlcv] come in strictly increasing
    bin order, each stamped with a multiple of the bin width, so no bin
    appears twice; there are at most as many candles as ticks; and no
    candle has a NaN volume. *)
Theorem resample_candles_ordered
    (ticks : list Tick) (timeframe : string) (candles : list Candle) :
  resample' ticks timeframe = Some candles ->
  exists times,
    map c_ts candles = map isoformat times
    /\ StronglySorted Z.lt times
    /\ (forall w, rule_nanos timeframe = Some w -> Forall (fun b => b mod w = 0) times)
    /\ (length candles <= length ticks)%nat
    /\ Forall (fun c => Fl.isnan (c_volume c) = false) candles.
Proof.
  unfold resample_to_ohlcv. intros H.
  destruct ticks as [|t0 ticks0] eqn:Et.
  { injection H as <-. exists []. repeat split; try constructor. }
  rewrite <- Et in *. clear Et t0 ticks0.
  destruct (traverse (parse_tick to_datetime_utc) ticks) as [pts|] eqn:Ep;
    [|discriminate].
  destruct (rule_nanos timeframe) as [w|] eqn:Ew; [|discriminate].
  injection H as <-.
  pose proof (rule_nanos_positive _ _ Ew) as Hw.
  destruct (ohlcv_rows_shape w pts) as [Hts Hvol].
  destruct (kept_times w pts Hw) as (Hs & Hm & Hl).
  exists (map r_time (kept_rows w pts)).
  split; [exact Hts|]. split; [exact Hs|]. split.
  - intros w' Hw'. injection Hw' as <-. exact Hm.
  - split; [|exact Hvol].
    rewrite <- (length_map c_ts), Hts, !length_map.
    rewrite <- (traverse_length _ _ _ Ep). exact Hl.
Qed.

(** The row of the bin of a priced tick is kept. *)
Lemma kept_rows_cover w pts x :
  0 < w -> In x pts -> Fl.isnan (pt_price x) = false ->
  exists row, In row (kept_rows w pts)
              /\ row = raw_row w (sort_by_time pts) (bucket_of w (pt_time x)).
Proof.
  intros Hw Hx Hp. destruct pts as [|p0 pts0] eqn:Ep; [destruct Hx|].
  rewrite <- Ep in *. unfold kept_rows. rewrite Ep. rewrite <- Ep.
  set (b := bucket_of w (pt_time x)).
  exists (raw_row w (sort_by_time pts) b). split; [|reflexivity].
  apply filter_In. split.
  - apply in_map. apply bucket_in_edges; try exact Hw;
      try (apply bucket_of_multiple; lia).
    destruct (min_time_le (pt_time p0) pts) as [_ Hmin].
    destruct (max_time_ge (pt_time p0) pts) as [_ Hmax].
    split; apply bucket_of_mono; try exact Hw; [apply Hmin | apply Hmax]; exact Hx.
  - unfold not_all_nan, raw_row. cbn [r_open].
    rewrite (first_valid_notna _ (pt_price x)); [reflexivity| |exact Hp].
    apply in_map. apply filter_In. split; [apply sort_by_time_in_fwd, Hx|].
    unfold in_bucket. apply Z.eqb_refl.
Qed.

(** X14.  No priced tick is lost: for every tick whose timestamp parses and
    whose price is not NaN, the frame has a candle stamped with the tick's
    bin. *)
Theorem resample_covers_every_priced_tick
    (ticks : list Tick) (timeframe : string) (candles : list Candle)
    (w : Z) (t : Tick) (i : Z) :
  resample' ticks timeframe = Some candles ->
  rule_nanos timeframe = Some w ->
  In t ticks ->
  to_datetime_utc (tick_ts t) = Some i ->
  Fl.notna (tick_price t) = true ->
  exists c, In c candles /\ c_ts c = isoformat (bucket_of w i).
Proof.
  unfold resample_to_ohlcv. intros H Hw Ht Hi Hp.
  destruct ticks as [|t0 ticks0] eqn:Et; [destruct Ht|].
  rewrite <- Et in *. clear Et t0 ticks0.
  destruct (traverse (parse_tick to_datetime_utc) ticks) as [pts|] eqn:Ep;
    [|discriminate].
  rewrite Hw in H. injection H as <-.
  set (x := {| pt_time := i; pt_price := tick_price t; pt_qty := tick_qty t |}).
  assert (Hx : In x pts).
  { apply (traverse_in_fwd _ _ _ t x Ep Ht). unfold parse_tick. rewrite Hi.
    reflexivity. }
  destruct (kept_rows_cover w pts x (rule_nanos_positive _ _ Hw) Hx) as (row & Hrow & Er).
  { cbn. unfold Fl.notna in Hp. apply negb_true_iff in Hp. exact Hp. }
  destruct (ohlcv_rows_shape w pts) as [Hts _].
  assert (Hin : In (isoformat (bucket_of w i)) (map c_ts (ohlcv_rows isoformat w pts))).
  { rewrite Hts. apply in_map. apply in_map_iff. exists row.
    split; [rewrite Er; reflexivity | exact Hrow]. }
  apply in_map_iff in Hin. destruct Hin as (c & Hc & Hcin).
  exists c. split; [exact Hcin | exact Hc].
Qed.

Lemma finish_rows_map rows :
  finish_rows isoformat (map r_time rows) (map r_open rows) (map r_high rows)
    (map r_low rows) (map r_close rows) (map r_volume rows)
  = map (finish_row isoformat) rows.
Proof. induction rows as [|r rows IH]; cbn; [reflexivity|]. rewrite IH. reflexivity. Qed.

(** With usable prices nothing is filled: each kept row becomes its candle. *)
Lemma ohlcv_rows_valid w pts :
  (forall x, In x pts -> valid_price (pt_price x)) ->
  ohlcv_rows isoformat w pts = map (finish_row isoformat) (kept_rows w pts)
  /\ forall row, In row (kept_rows w pts) ->
       exists inb, inb <> []
         /\ (forall x, In x inb <-> In x pts /\ bucket_of w (pt_time x) = r_time row)
         /\ In (r_open row) (map pt_price inb) /\ In (r_close row) (map pt_price inb)
         /\ r_high row = Fl.nanmax (map pt_price inb)
         /\ r_low row = Fl.nanmin (map pt_price inb).
Proof.
  intros Hvalid.
  assert (Hrows : forall row, In row (kept_rows w pts) ->
            exists inb, inb <> []
              /\ (forall x, In x inb <-> In x pts /\ bucket_of w (pt_time x) = r_time row)
              /\ In (r_open row) (map pt_price inb) /\ In (r_close row) (map pt_price inb)
              /\ r_high row = Fl.nanmax (map pt_price inb)
              /\ r_low row = Fl.nanmin (map pt_price inb)).
  { intros row Hrow. destruct pts as [|p0 pts0] eqn:Ep; [destruct Hrow|].
    rewrite <- Ep in *. unfold kept_rows in Hrow. rewrite Ep in Hrow.
    rewrite <- Ep in Hrow. apply filter_In in Hrow. destruct Hrow as [Hin Hkeep].
    apply in_map_iff in Hin. destruct Hin as (b & <- & _).
    set (inb := List.filter (in_bucket w b) (sort_by_time pts)).
    assert (Hne : inb <> []).
    { intros E. unfold raw_row in Hkeep. fold inb in Hkeep. rewrite E in Hkeep.
      discriminate. }
    assert (Hmem : forall x, In x inb <-> In x pts /\ bucket_of w (pt_time x) = b).
    { intros x. subst inb. rewrite filter_In. unfold in_bucket. rewrite Z.eqb_eq.
      split; intros [H1 H2]; (split; [|exact H2]);
        [apply sort_by_time_in | apply sort_by_time_in_fwd]; exact H1. }
    assert (Hnn : forall p, In p (map pt_price inb) -> Fl.notna p = true).
    { intros p Hp. apply in_map_iff in Hp. destruct Hp as (x & <- & Hx).
      destruct (Hvalid x (proj1 (proj1 (Hmem x) Hx))) as [Hn _].
      unfold Fl.notna. rewrite Hn. reflexivity. }
    assert (Hne' : map pt_price inb <> []) by (destruct inb; [congruence | discriminate]).
    exists inb. split; [exact Hne|]. split; [exact Hmem|].
    split; [apply first_valid_in; assumption|].
    split; [apply last_valid_in; assumption|]. split; reflexivity. }
  split; [|exact Hrows].
  assert (Hcol : forall sel : Row -> float,
            (forall row inb, In (sel row) (map pt_price inb) \/ True) ->
            (forall row, In row (kept_rows w pts) ->
               exists inb, (forall x, In x inb -> In x pts)
                           /\ In (sel row) (map pt_price inb)) ->
            fill_col (map sel (kept_rows w pts)) = map sel (kept_rows w pts)).
  { intros sel _ Hsel. apply fill_col_id. intros v Hv. apply in_map_iff in Hv.
    destruct Hv as (row & <- & Hrow). destruct (Hsel row Hrow) as (inb & Hinb & Hp).
    apply in_map_iff in Hp. destruct Hp as (x & <- & Hx). apply Hvalid, Hinb, Hx. }
  rewrite ohlcv_rows_kept.
  rewrite (Hcol r_open), (Hcol r_high), (Hcol r_low), (Hcol r_close);
    try (intros; right; exact I); try apply finish_rows_map;
    intros row Hrow; destruct (Hrows row Hrow) as (inb & Hne & Hmem & Ho & Hc & Hh & Hl);
    exists inb; (split; [intros x Hx; apply (Hmem x), Hx|]); try assumption.
  - rewrite Hl. destruct (map pt_price inb) as [|p ps] eqn:E; [destruct Ho|].
    apply (nanmin_in (p :: ps) p); [left; reflexivity|].
    assert (Hp : In p (map pt_price inb)) by (rewrite E; left; reflexivity).
    apply in_map_iff in Hp. destruct Hp as (x & <- & Hx).
    apply (Hvalid x), (Hmem x), Hx.
  - rewrite Hh. destruct (map pt_price inb) as [|p ps] eqn:E; [destruct Ho|].
    apply (nanmax_in (p :: ps) p); [left; reflexivity|].
    assert (Hp : In p (map pt_price inb)) by (rewrite E; left; reflexivity).
    apply in_map_iff in Hp. destruct Hp as (x & <- & Hx).
    apply (Hvalid x), (Hmem x), Hx.
Qed.

(** X15.  When every tick has a usable price (not NaN, not zero), each tick
    whose timestamp parses has a candle stamped with its bin whose low and
    high bracket the tick's price, and whose open and close are prices of
    ticks of that bin. *)
Theorem candle_brackets_its_ticks
    (ticks : list Tick) (timeframe : string) (candles : list Candle)
    (w : Z) (t : Tick) (i : Z) :
  resample' ticks timeframe = Some candles ->
  rule_nanos timeframe = Some w ->
  (forall t', In t' ticks -> valid_price (tick_price t')) ->
  In t ticks ->
  to_datetime_utc (tick_ts t) = Some i ->
  exists c,
    In c candles
    /\ c_ts c = isoformat (bucket_of w i)
    /\ fle (c_low c) (tick_price t) /\ fle (tick_price t) (c_high c)
    /\ (exists t1 i1, In t1 ticks /\ to_datetime_utc (tick_ts t1) = Some i1
                      /\ bucket_of w i1 = bucket_of w i
                      /\ c_open c = tick_price t1)
    /\ (exists t2 i2, In t2 ticks /\ to_datetime_utc (tick_ts t2) = Some i2
                      /\ bucket_of w i2 = bucket_of w i
                      /\ c_close c = tick_price t2).
Proof.
  unfold resample_to_ohlcv. intros H Hw Hvalid Ht Hi.
  destruct ticks as [|t0 ticks0] eqn:Et; [destruct Ht|].
  rewrite <- Et in *. clear Et t0 ticks0.
  destruct (traverse (parse_tick to_datetime_utc) ticks) as [pts|] eqn:Ep;
    [|discriminate].
  rewrite Hw in H. injection H as <-.
  pose proof (rule_nanos_positive _ _ Hw) as Hwpos.
  assert (Hback : forall y, In y pts ->
            exists t', In t' ticks /\ to_datetime_utc (tick_ts t') = Some (pt_time y)
                       /\ pt_price y = tick_price t').
  { intros y Hy. destruct (traverse_in _ _ _ _ Ep Hy) as (t' & Ht' & Hp).
    unfold parse_tick in Hp. destruct (to_datetime_utc (tick_ts t')) eqn:E;
      [|discriminate].
    injection Hp as <-. exists t'. repeat split; assumption. }
  assert (Hpv : forall y, In y pts -> valid_price (pt_price y)).
  { intros y Hy. destruct (Hback y Hy) as (t' & Ht' & _ & ->). apply Hvalid, Ht'. }
  set (x := {| pt_time := i; pt_price := tick_price t; pt_qty := tick_qty t |}).
  assert (Hx : In x pts).
  { apply (traverse_in_fwd _ _ _ t x Ep Ht). unfold parse_tick. rewrite Hi.
    reflexivity. }
  destruct (kept_rows_cover w pts x Hwpos Hx (proj1 (Hpv x Hx))) as (row & Hrow & Er).
  destruct (ohlcv_rows_valid w pts Hpv) as [Hrows Hshape].
  destruct (Hshape row Hrow) as (inb & Hne & Hmem & Ho & Hc & Hh & Hl).
  assert (Hrt : r_time row = bucket_of w i) by (rewrite Er; reflexivity).
  assert (Hxin : In (tick_price t) (map pt_price inb)).
  { apply in_map_iff. exists x. split; [reflexivity|]. apply Hmem.
    split; [exact Hx | rewrite Hrt; reflexivity]. }
  assert (Hxn : Fl.isnan (tick_price t) = false) by apply (Hvalid t Ht).
  exists (finish_row isoformat row).
  split; [rewrite Hrows; apply in_map, Hrow|].
  split; [cbn [finish_row c_ts]; rewrite Hrt; reflexivity|].
  cbn [finish_row c_low c_high c_open c_close]. unfold fle.
  destruct (FlFacts.nanmax_ge _ _ Hxin Hxn) as [Hmaxn Hmax].
  destruct (FlFacts.nanmin_le _ _ Hxin Hxn) as [Hminn Hmin].
  rewrite <- Hh in Hmaxn, Hmax. rewrite <- Hl in Hminn, Hmin.
  split; [|split; [|split]].
  - eapply FlFacts.leb_trans; [|exact Hmin].
    apply FlFacts.nanmin_le; [cbn; tauto | exact Hminn].
  - eapply FlFacts.leb_trans; [exact Hmax|].
    apply FlFacts.nanmax_ge; [cbn; tauto | exact Hmaxn].
  - apply in_map_iff in Ho. destruct Ho as (y & Hy & Hyin).
    destruct (proj1 (Hmem y) Hyin) as [Hyp Hyb].
    destruct (Hback y Hyp) as (t1 & Ht1 & Hi1 & Hp1).
    exists t1, (pt_time y). repeat split; try assumption; congruence.
  - apply in_map_iff in Hc. destruct Hc as (y & Hy & Hyin).
    destruct (proj1 (Hmem y) Hyin) as [Hyp Hyb].
    destruct (Hback y Hyp) as (t2 & Ht2 & Hi2 & Hp2).
    exists t2, (pt_time y). repeat split; try assumption; congruence.
Qed.

End ResampleMore.

(** ** The analytics engine and the manager                              *)

Lemma read_trace_trans dm1 dm2 dm3 :
  read_trace dm1 dm2 -> read_trace dm2 dm3 -> read_trace dm1 dm3.
Proof.
  intros H12 H23. induction H23 as [dm|dm dm' s _ IH|dm dm' s tf df _ IH].
  - exact H12.
  - apply rt_touch, IH, H12.
  - apply rt_cache, IH, H12.
Qed.

Section ReadOnlyFacts.

Context {A B : Type}.

Lemma reads_only_ret (a : A) : reads_only (ret a).
Proof. intros dm. apply rt_refl. Qed.

Lemma reads_only_lift (o : option A) : reads_only (lift_option o).
Proof. intros dm. apply rt_refl. Qed.

Lemma reads_only_bind (c : M A) (k : A -> M B) :
  reads_only c -> (forall a, reads_only (k a)) -> reads_only (bind c k).
Proof.
  intros Hc Hk dm. unfold bind. pose proof (Hc dm) as H.
  destruct (c dm) as [[a|] dm1]; cbn [snd] in *; [|exact H].
  eapply read_trace_trans; [exact H | apply Hk].
Qed.

Lemma determined_ret S (a : A) : buffer_determined S (ret a).
Proof. intros dm dm' _. reflexivity. Qed.

Lemma determined_lift S (o : option A) : buffer_determined S (lift_option o).
Proof. intros dm dm' _. reflexivity. Qed.

Lemma determined_bind S (c : M A) (k : A -> M B) :
  reads_only c -> buffer_determined S c ->
  (forall a, buffer_determined S (k a)) ->
  buffer_determined S (bind c k).
Proof.
  intros Hr Hc Hk dm dm' H. unfold bind.
  pose proof (Hc dm dm' H) as E.
  pose proof (proj1 (read_trace_frame _ _ (Hr dm))) as F.
  pose proof (proj1 (read_trace_frame _ _ (Hr dm'))) as F'.
  destruct (c dm) as [[a|] d1], (c dm') as [[a'|] d1']; cbn [fst snd] in *;
    try congruence.
  injection E as <-. apply Hk. intros s Hs. rewrite F, F'. apply H, Hs.
Qed.

End ReadOnlyFacts.

Section AnalyticsReads.

Variable to_datetime_utc : string -> option Z.
Variable isoformat : Z -> string.
Variable to_datetime : string -> option Z.
Variable Timestamp : string -> option Z.
Variable OLS_fit_params : list float -> list (list float) -> option (list float).
Variable HuberRegressor_fit_coef : list (list float) -> list float -> option (list float).
Variable TheilSenRegressor_fit_coef : list (list float) -> list float -> option (list float).
Variable rolling_mean : Z -> list float -> option (list float).
Variable rolling_std : Z -> list float -> option (list float).
Variable adfuller : list float -> option (float * float).
Variable rolling_corr : Z -> list float -> list float -> option (list float).

Abbreviation fetch := (get_price_series to_datetime_utc isoformat to_datetime).
Abbreviation compute_hedge_ratio' :=
  (compute_hedge_ratio to_datetime_utc isoformat to_datetime OLS_fit_params
     HuberRegressor_fit_coef TheilSenRegressor_fit_coef).
Abbreviation compute_spread' :=
  (compute_spread to_datetime_utc isoformat to_datetime Timestamp OLS_fit_params
     HuberRegressor_fit_coef TheilSenRegressor_fit_coef).
Abbreviation compute_zscore' :=
  (compute_zscore to_datetime_utc isoformat to_datetime Timestamp OLS_fit_params
     HuberRegressor_fit_coef TheilSenRegressor_fit_coef rolling_mean rolling_std).
Abbreviation compute_adf_test' :=
  (compute_adf_test to_datetime_utc isoformat to_datetime Timestamp OLS_fit_params
     HuberRegressor_fit_coef TheilSenRegressor_fit_coef adfuller).
Abbreviation compute_rolling_correlation' :=
  (compute_rolling_correlation to_datetime_utc isoformat to_datetime rolling_corr).
Abbreviation pair_bundle' :=
  (pair_bundle to_datetime_utc isoformat to_datetime Timestamp OLS_fit_params
     HuberRegressor_fit_coef TheilSenRegressor_fit_coef rolling_mean rolling_std
     adfuller rolling_corr).
Abbreviation compute_pair_analytics' :=
  (compute_pair_analytics to_datetime_utc isoformat to_datetime Timestamp
     OLS_fit_params HuberRegressor_fit_coef TheilSenRegressor_fit_coef
     rolling_mean rolling_std adfuller rolling_corr).

Lemma fetch_reads s tf limit force : reads_only (fetch s tf limit force).
Proof. intros dm. apply get_price_series_trace. Qed.

Lemma fetch_determined S s tf limit :
  In (normalize_symbol s) S -> buffer_determined S (fetch s tf limit true).
Proof.
  intros Hin dm dm' H. rewrite !get_price_series_forced, (H _ Hin). reflexivity.
Qed.

Ltac reads :=
  repeat first
    [ apply reads_only_bind; [|intros ?]
    | apply fetch_reads
    | apply reads_only_ret
    | apply reads_only_lift
    | match goal with |- reads_only (match ?x with _ => _ end) => destruct x end ].

Lemma hedge_reads a b tf w m : reads_only (compute_hedge_ratio' a b tf w m).
Proof. unfold compute_hedge_ratio. reads. Qed.

Lemma spread_reads a b tf w m : reads_only (compute_spread' a b tf w m).
Proof. unfold compute_spread. apply reads_only_bind; [apply hedge_reads|]. intros hr. reads. Qed.

Lemma zscore_reads a b tf w m : reads_only (compute_zscore' a b tf w m).
Proof. unfold compute_zscore. apply reads_only_bind; [apply spread_reads|]. intros. reads. Qed.

Lemma adf_reads a b tf w m : reads_only (compute_adf_test' a b tf w m).
Proof. unfold compute_adf_test. apply reads_only_bind; [apply spread_reads|]. intros. reads. Qed.

Lemma corr_reads a b tf w : reads_only (compute_rolling_correlation' a b tf w).
Proof. unfold compute_rolling_correlation. reads. Qed.

Section Determined.

Variables a b : string.
Abbreviation S := [normalize_symbol a; normalize_symbol b].

Ltac determined :=
  repeat first
    [ apply determined_bind; [| |intros ?]
    | apply fetch_reads
    | apply fetch_determined; cbn; tauto
    | apply determined_ret
    | apply determined_lift
    | match goal with |- buffer_determined _ (match ?x with _ => _ end) => destruct x end ].

Lemma hedge_determined tf w m : buffer_determined S (compute_hedge_ratio' a b tf w m).
Proof. unfold compute_hedge_ratio. determined. Qed.

Lemma spread_determined tf w m : buffer_determined S (compute_spread' a b tf w m).
Proof.
  unfold compute_spread.
  apply determined_bind; [apply hedge_reads | apply hedge_determined|].
  intros hr. determined.
Qed.

Lemma zscore_determined tf w m : buffer_determined S (compute_zscore' a b tf w m).
Proof.
  unfold compute_zscore.
  apply determined_bind; [apply spread_reads | apply spread_determined|].
  intros. determined.
Qed.

Lemma adf_determined tf w m : buffer_determined S (compute_adf_test' a b tf w m).
Proof.
  unfold compute_adf_test.
  apply determined_bind; [apply spread_reads | apply spread_determined|].
  intros. determined.
Qed.

Lemma corr_determined tf w : buffer_determined S (compute_rolling_correlation' a b tf w).
Proof. unfold compute_rolling_correlation. determined. Qed.

Lemma bundle_reads pair tf w m : reads_only (pair_bundle' pair a b tf w m).
Proof.
  unfold pair_bundle.
  apply reads_only_bind; [apply hedge_reads|]. intros.
  apply reads_only_bind; [apply spread_reads|]. intros.
  apply reads_only_bind; [apply zscore_reads|]. intros.
  apply reads_only_bind; [apply corr_reads|]. intros.
  apply reads_only_bind; [apply adf_reads|]. intros.
  apply reads_only_ret.
Qed.

Lemma bundle_determined pair tf w m : buffer_determined S (pair_bundle' pair a b tf w m).
Proof.
  unfold pair_bundle.
  apply determined_bind; [apply hedge_reads | apply hedge_determined|]. intros.
  apply determined_bind; [apply spread_reads | apply spread_determined|]. intros.
  apply determined_bind; [apply zscore_reads | apply zscore_determined|]. intros.
  apply determined_bind; [apply corr_reads | apply corr_determined|]. intros.
  apply determined_bind; [apply adf_reads | apply adf_determined|]. intros.
  apply determined_ret.
Qed.

End Determined.

(** X16.  The analytics read the manager only through the two tick
    buffers: two managers that hold the same ticks for the two symbols give
    the same hedge ratios, spread, z-score, rolling correlation and ADF
    result (or the same failure), whatever their caches, counters and other
    buffers hold. *)
Theorem analytics_depend_on_buffers_only
    (a b tf : string) (w : Z) (m : string) (dm dm' : DataManager) :
  buffer_of dm (normalize_symbol a) = buffer_of dm' (normalize_symbol a) ->
  buffer_of dm (normalize_symbol b) = buffer_of dm' (normalize_symbol b) ->
  fst (compute_hedge_ratio' a b tf w m dm) = fst (compute_hedge_ratio' a b tf w m dm')
  /\ fst (compute_spread' a b tf w m dm) = fst (compute_spread' a b tf w m dm')
  /\ fst (compute_zscore' a b tf w m dm) = fst (compute_zscore' a b tf w m dm')
  /\ fst (compute_rolling_correlation' a b tf w dm)
     = fst (compute_rolling_correlation' a b tf w dm')
  /\ fst (compute_adf_test' a b tf w m dm) = fst (compute_adf_test' a b tf w m dm').
Proof.
  intros Ha Hb.
  assert (H : forall s, In s [normalize_symbol a; normalize_symbol b] ->
                        buffer_of dm s = buffer_of dm' s).
  { intros s [<-|[<-|[]]]; assumption. }
  split; [apply hedge_determined, H|]. split; [apply spread_determined, H|].
  split; [apply zscore_determined, H|]. split; [apply corr_determined, H|].
  apply adf_determined, H.
Qed.

(** A forced fetch made after other reads sees what it would have seen
    before them. *)
Lemma fetch_after_reads s tf limit dm st :
  read_trace dm st ->
  fst (fetch s tf limit true st) = fst (fetch s tf limit true dm).
Proof.
  intros H. rewrite !get_price_series_forced.
  rewrite (proj1 (read_trace_frame _ _ H)). reflexivity.
Qed.

(** [compute_hedge_ratio] in terms of the two series it fetches. *)
Lemma compute_hedge_ratio_fetched a b tf w m dm pa pb :
  fst (fetch a tf (series_limit w) true dm) = Some pa ->
  fst (fetch b tf (series_limit w) true dm) = Some pb ->
  fst (compute_hedge_ratio' a b tf w m dm)
  = Some (hedge_ratio_of_series isoformat OLS_fit_params HuberRegressor_fit_coef
            TheilSenRegressor_fit_coef pa pb w m).
Proof.
  intros Ha Hb. unfold compute_hedge_ratio, bind, ret.
  pose proof (fetch_reads a tf (series_limit w) true dm) as Ra.
  destruct (fetch a tf (series_limit w) true dm) as [oa dm1].
  cbn [fst snd] in *. subst oa.
  pose proof (fetch_after_reads b tf (series_limit w) dm dm1 Ra) as Eb.
  rewrite Hb in Eb.
  destruct (fetch b tf (series_limit w) true dm1) as [ob dm2].
  cbn [fst] in *. subst ob. reflexivity.
Qed.

(** [compute_spread] in terms of the two series: the second pair of
    fetches returns the series the hedge ratios were computed from. *)
Lemma compute_spread_fetched a b tf w m dm pa pb :
  fst (fetch a tf (series_limit w) true dm) = Some pa ->
  fst (fetch b tf (series_limit w) true dm) = Some pb ->
  fst (compute_spread' a b tf w m dm)
  = match hedge_ratio_of_series isoformat OLS_fit_params HuberRegressor_fit_coef
            TheilSenRegressor_fit_coef pa pb w m with
    | [] => Some []
    | hr => spread_points isoformat Timestamp hr pa pb
    end.
Proof.
  intros Ha Hb. unfold compute_spread. unfold bind at 1.
  pose proof (compute_hedge_ratio_fetched a b tf w m dm pa pb Ha Hb) as Hh.
  pose proof (hedge_reads a b tf w m dm) as Rh.
  destruct (compute_hedge_ratio' a b tf w m dm) as [oh dm2].
  cbn [fst snd] in *. subst oh.
  destruct (hedge_ratio_of_series isoformat OLS_fit_params HuberRegressor_fit_coef
              TheilSenRegressor_fit_coef pa pb w m) as [|h hr]; [reflexivity|].
  unfold bind, lift_option.
  pose proof (fetch_after_reads a tf (series_limit w) dm dm2 Rh) as Ea.
  pose proof (fetch_reads a tf (series_limit w) true dm2) as Ra.
  rewrite Ha in Ea.
  destruct (fetch a tf (series_limit w) true dm2) as [oa dm3].
  cbn [fst snd] in *. subst oa.
  pose proof (fetch_after_reads b tf (series_limit w) dm dm3
                (read_trace_trans _ _ _ Rh Ra)) as Eb.
  rewrite Hb in Eb.
  destruct (fetch b tf (series_limit w) true dm3) as [ob dm4].
  cbn [fst] in *. subst ob. reflexivity.
Qed.

Lemma slice_in {X} (i j : Z) (l : list X) x : In x (Py.slice i j l) -> In x l.
Proof.
  unfold Py.slice. intros H.
  rewrite <- (firstn_skipn (Py.clamp (length l) i) l). apply in_or_app. right.
  rewrite <- (firstn_skipn (Py.clamp (length l) j - Py.clamp (length l) i)
                (skipn (Py.clamp (length l) i) l)).
  apply in_or_app. left. exact H.
Qed.

(** Every hedge-ratio point is stamped with the time of an aligned row. *)
Lemma hedge_series_stamps pa pb w m h :
  In h (hedge_ratio_of_series isoformat OLS_fit_params HuberRegressor_fit_coef
          TheilSenRegressor_fit_coef pa pb w m) ->
  exists r, In r (align pa pb) /\ p_ts h = isoformat (ar_time r).
Proof.
  intros H. apply hedge_ratio_points in H. destruct H as (i & Hi).
  unfold hedge_point in Hi.
  destruct (window_ratio _ _ _ _ _) as [ratio|]; [|discriminate].
  destruct (last _) as [r|] eqn:El; [|discriminate].
  injection Hi as <-. exists r. split; [|reflexivity].
  apply last_Some in El. destruct El as [l' El].
  eapply slice_in. rewrite El. apply in_or_app. right. left. reflexivity.
Qed.

Lemma series_lookup_first t v (s : Series) :
  List.NoDup (map fst s) -> In (t, v) s -> series_lookup t s = Some v.
Proof.
  unfold series_lookup. induction s as [|[t0 v0] s IH]; intros Hnd Hin; [destruct Hin|].
  cbn [List.find fst]. cbn [map fst] in Hnd.
  inversion Hnd as [|x l Hnotin Hrest]; subst.
  destruct Hin as [E|Hin].
  - injection E as -> ->. rewrite Z.eqb_refl. reflexivity.
  - destruct (Z.eqb_spec t0 t) as [->|Hne].
    + exfalso. apply Hnotin. apply in_map_iff. exists (t, v). split; [reflexivity|exact Hin].
    + apply IH; assumption.
Qed.

(** An aligned row is found again in both series under its time. *)
Lemma align_row_lookup pa pb r :
  List.NoDup (map fst pa) -> In r (align pa pb) ->
  series_lookup (ar_time r) pa = Some (ar_a r)
  /\ series_lookup (ar_time r) pb = Some (ar_b r).
Proof.
  intros Hnd H. unfold align in H.
  destruct (proj1 (list_elem_of_omap _ pa r) (proj2 (list_elem_of_In _ _) H))
    as ([t v] & Hr & Hf).
  apply list_elem_of_In in Hr. cbn [fst snd] in Hf.
  destruct (series_lookup t pb) as [vb|] eqn:E; [|discriminate].
  destruct (Fl.notna v && Fl.notna vb); [|discriminate].
  injection Hf as <-. cbn [ar_time ar_a ar_b].
  split; [apply series_lookup_first; assumption | exact E].
Qed.

(** The loop of [compute_spread] skips nothing when every hedge point is
    found in both series. *)
Lemma spread_points_total pa pb : forall hr,
  (forall h, In h hr -> exists t va vb,
      Timestamp (p_ts h) = Some t /\ series_lookup t pa = Some va
      /\ series_lookup t pb = Some vb) ->
  exists spreads,
    spread_points isoformat Timestamp hr pa pb = Some spreads
    /\ length spreads = length hr
    /\ forall k h, hr !! k = Some h ->
         exists t va vb,
           Timestamp (p_ts h) = Some t /\ series_lookup t pa = Some va
           /\ series_lookup t pb = Some vb
           /\ spreads !! k = Some {| p_ts := isoformat t;
                                     p_value := PrimFloat.sub va
                                                  (PrimFloat.mul (p_value h) vb) |}.
Proof.
  induction hr as [|h0 hr IH]; intros H.
  - exists []. split; [reflexivity|]. split; [reflexivity|].
    intros k h Hk. destruct k; discriminate.
  - destruct IH as (spreads & Hs & Hlen & Hnth).
    { intros h Hh. apply H. right. exact Hh. }
    destruct (H h0 (or_introl eq_refl)) as (t & va & vb & Ht & Ha & Hb).
    cbn [spread_points]. rewrite Ht, Hs, Ha, Hb.
    eexists. split; [reflexivity|]. split; [cbn; rewrite Hlen; reflexivity|].
    intros [|k] h Hk; cbn in Hk.
    + injection Hk as <-. exists t, va, vb. repeat split; assumption.
    + apply Hnth, Hk.
Qed.

(** X17.  [compute_spread] gives one spread point per hedge-ratio point:
    when the two price series have no duplicate timestamp in the first and
    the timestamps of the aligned rows survive printing and re-parsing, the
    spread series has the length of the hedge-ratio series, and its [k]-th
    point carries the timestamp of the [k]-th hedge ratio and the value
    [a - ratio * b] for the prices [a] and [b] of the aligned row of that
    timestamp.  The second pair of fetches returns the series the ratios
    were fitted on. *)
Theorem compute_spread_one_point_per_ratio
    (a b tf : string) (w : Z) (m : string) (dm : DataManager) (pa pb : Series) :
  fst (fetch a tf (series_limit w) true dm) = Some pa ->
  fst (fetch b tf (series_limit w) true dm) = Some pb ->
  List.NoDup (map fst pa) ->
  (forall r, In r (align pa pb) -> Timestamp (isoformat (ar_time r)) = Some (ar_time r)) ->
  exists hr spreads,
    fst (compute_hedge_ratio' a b tf w m dm) = Some hr
    /\ fst (compute_spread' a b tf w m dm) = Some spreads
    /\ length spreads = length hr
    /\ forall k h, hr !! k = Some h ->
         exists r, In r (align pa pb)
           /\ p_ts h = isoformat (ar_time r)
           /\ spreads !! k
              = Some {| p_ts := p_ts h;
                        p_value := PrimFloat.sub (ar_a r)
                                     (PrimFloat.mul (p_value h) (ar_b r)) |}.
Proof.
  intros Ha Hb Hnd Hrt.
  set (hr := hedge_ratio_of_series isoformat OLS_fit_params HuberRegressor_fit_coef
               TheilSenRegressor_fit_coef pa pb w m).
  assert (Hfound : forall h, In h hr -> exists t va vb,
             Timestamp (p_ts h) = Some t /\ series_lookup t pa = Some va
             /\ series_lookup t pb = Some vb).
  { intros h Hh. destruct (hedge_series_stamps pa pb w m h Hh) as (r & Hr & Hts).
    destruct (align_row_lookup pa pb r Hnd Hr) as [La Lb].
    exists (ar_time r), (ar_a r), (ar_b r). rewrite Hts, (Hrt r Hr).
    repeat split; assumption. }
  destruct (spread_points_total pa pb hr Hfound) as (spreads & Hs & Hlen & Hnth).
  exists hr, spreads.
  split; [apply compute_hedge_ratio_fetched; assumption|].
  split.
  { rewrite (compute_spread_fetched a b tf w m dm pa pb Ha Hb). fold hr.
    destruct hr as [|h0 hr0] eqn:E; [|exact Hs].
    cbn in Hs. injection Hs as <-. reflexivity. }
  split; [exact Hlen|].
  intros k h Hk.
  assert (Hin : In h hr) by (eapply list_elem_of_In, list_elem_of_lookup_2; exact Hk).
  destruct (hedge_series_stamps pa pb w m h Hin) as (r & Hr & Hts).
  destruct (align_row_lookup pa pb r Hnd Hr) as [La Lb].
  destruct (Hnth k h Hk) as (t & va & vb & Ht & Hva & Hvb & Hsp).
  rewrite Hts, (Hrt r Hr) in Ht. injection Ht as <-.
  rewrite La in Hva. injection Hva as <-. rewrite Lb in Hvb. injection Hvb as <-.
  exists r. split; [exact Hr|]. split; [exact Hts|]. rewrite Hts. exact Hsp.
Qed.

Lemma compute_rolling_correlation_fetched a b tf w dm pa pb :
  fst (fetch a tf (series_limit w) true dm) = Some pa ->
  fst (fetch b tf (series_limit w) true dm) = Some pb ->
  fst (compute_rolling_correlation' a b tf w dm)
  = correlation_of_series isoformat rolling_corr pa pb w.
Proof.
  intros Ha Hb. unfold compute_rolling_correlation, bind, lift_option.
  pose proof (fetch_reads a tf (series_limit w) true dm) as Ra.
  destruct (fetch a tf (series_limit w) true dm) as [oa dm1].
  cbn [fst snd] in *. subst oa.
  pose proof (fetch_after_reads b tf (series_limit w) dm dm1 Ra) as Eb.
  rewrite Hb in Eb.
  destruct (fetch b tf (series_limit w) true dm1) as [ob dm2].
  cbn [fst] in *. subst ob. reflexivity.
Qed.

(** A computation chained on another returns what it returns on the
    result of the first. *)
Lemma bind_fst {X Y} (c : M X) (k : X -> M Y) dm x :
  fst (c dm) = Some x -> fst (bind c k dm) = fst (k x (snd (c dm))).
Proof. unfold bind. destruct (c dm) as [[x'|] d]; cbn; congruence. Qed.

Lemma bind_fst_None {X Y} (c : M X) (k : X -> M Y) dm :
  fst (c dm) = None -> fst (bind c k dm) = None.
Proof. unfold bind. destruct (c dm) as [[x'|] d]; cbn; congruence. Qed.

Lemma corr_rows_sublist : forall index corr,
  sublist (map p_ts (corr_rows isoformat index corr)) (map isoformat index)
  /\ Forall (fun p => Fl.isnan (p_value p) = false) (corr_rows isoformat index corr).
Proof.
  induction index as [|i index IH]; intros corr; [split; constructor|].
  destruct corr as [|c corr]; [split; [apply sublist_nil_l | constructor]|].
  destruct (IH corr) as [H1 H2]. cbn [corr_rows map].
  destruct (Fl.notna c) eqn:E.
  - split; [cbn; apply sublist_skip, H1|]. constructor; [|exact H2].
    cbn. unfold Fl.notna in E. apply negb_true_iff in E. exact E.
  - split; [apply sublist_cons, H1 | exact H2].
Qed.

Lemma align_nil_r pa : align pa [] = [].
Proof. unfold align. induction pa as [|r pa IH]; [reflexivity|]. cbn. exact IH. Qed.

(** X18.  [compute_rolling_correlation] never emits a NaN: every point it
    returns has a number as value; the timestamps of the points are, in
    order, timestamps of rows of the aligned frame (at most one point per
    row); and with fewer than two aligned rows the result is empty. *)
Theorem rolling_correlation_points
    (a b tf : string) (w : Z) (dm : DataManager) (pa pb : Series)
    (points : list Point) :
  fst (fetch a tf (series_limit w) true dm) = Some pa ->
  fst (fetch b tf (series_limit w) true dm) = Some pb ->
  fst (compute_rolling_correlation' a b tf w dm) = Some points ->
  Forall (fun p => Fl.isnan (p_value p) = false) points
  /\ sublist (map p_ts points) (map (fun r => isoformat (ar_time r)) (align pa pb))
  /\ (length points <= length (align pa pb))%nat
  /\ ((length (align pa pb) < 2)%nat -> points = []).
Proof.
  intros Ha Hb H.
  rewrite (compute_rolling_correlation_fetched a b tf w dm pa pb Ha Hb) in H.
  unfold correlation_of_series in H.
  destruct (Nat.ltb_spec (length (align pa pb)) 2) as [Hlt|Hge].
  - injection H as <-. split; [constructor|]. split; [apply sublist_nil_l|].
    split; [cbn; lia | reflexivity].
  - destruct (rolling_corr _ _ _) as [corr|]; [|discriminate]. injection H as <-.
    destruct (corr_rows_sublist (map ar_time (align pa pb)) corr) as [H1 H2].
    rewrite map_map in H1.
    split; [exact H2|]. split; [exact H1|]. split; [|lia].
    apply sublist_length in H1. rewrite !length_map in H1. exact H1.
Qed.

(** X19.  Analytics on a pair without data are empty, not an error: when
    the buffer of either symbol is empty (a symbol never seen, or just
    cleared) and the other symbol's series can be fetched, the hedge
    ratios, the spread, the z-score and the rolling correlation are empty
    lists and the ADF result is the neutral default. *)
Theorem analytics_without_data
    (a b tf : string) (w : Z) (m : string) (dm : DataManager) :
  buffer_of dm (normalize_symbol a) = [] \/ buffer_of dm (normalize_symbol b) = [] ->
  fst (fetch a tf (series_limit w) true dm) <> None ->
  fst (fetch b tf (series_limit w) true dm) <> None ->
  fst (compute_hedge_ratio' a b tf w m dm) = Some []
  /\ fst (compute_spread' a b tf w m dm) = Some []
  /\ fst (compute_zscore' a b tf w m dm) = Some []
  /\ fst (compute_rolling_correlation' a b tf w dm) = Some []
  /\ fst (compute_adf_test' a b tf w m dm)
     = Some {| adf_stat := 0%float; adf_pvalue := 1%float |}.
Proof.
  intros Hempty Hfa Hfb.
  destruct (fst (fetch a tf (series_limit w) true dm)) as [pa|] eqn:Ea; [|congruence].
  destruct (fst (fetch b tf (series_limit w) true dm)) as [pb|] eqn:Eb; [|congruence].
  assert (He : pa = [] \/ pb = []).
  { destruct Hempty as [H|H]; [left | right].
    - rewrite get_price_series_forced, H in Ea. cbn in Ea. congruence.
    - rewrite get_price_series_forced, H in Eb. cbn in Eb. congruence. }
  assert (Hh : hedge_ratio_of_series isoformat OLS_fit_params HuberRegressor_fit_coef
                 TheilSenRegressor_fit_coef pa pb w m = []).
  { unfold hedge_ratio_of_series.
    destruct (Nat.ltb_spec (Nat.min (length pa) (length pb)) 2) as [_|Hge];
      [reflexivity|].
    destruct He as [-> | ->]; cbn in Hge; lia. }
  assert (Hal : align pa pb = []).
  { destruct He as [-> | ->]; [reflexivity | apply align_nil_r]. }
  assert (Hs : fst (compute_spread' a b tf w m dm) = Some []).
  { rewrite (compute_spread_fetched a b tf w m dm pa pb Ea Eb), Hh. reflexivity. }
  split; [rewrite (compute_hedge_ratio_fetched a b tf w m dm pa pb Ea Eb), Hh;
          reflexivity|].
  split; [exact Hs|]. split.
  { unfold compute_zscore. rewrite (bind_fst _ _ _ _ Hs). reflexivity. }
  split.
  { rewrite (compute_rolling_correlation_fetched a b tf w dm pa pb Ea Eb).
    unfold correlation_of_series. rewrite Hal. reflexivity. }
  unfold compute_adf_test. rewrite (bind_fst _ _ _ _ Hs). reflexivity.
Qed.

Lemma after_reads {X} S (c : M X) dm st :
  buffer_determined S c -> read_trace dm st -> fst (c st) = fst (c dm).
Proof.
  intros Hc Hr. apply Hc. intros s _. apply (proj1 (read_trace_frame _ _ Hr)).
Qed.

Lemma str_split_length sep s : length (str_split sep s) = S (length
  (List.filter (fun c => Ascii.eqb c sep) (list_ascii_of_string s))).
Proof.
  induction s as [|c s IH]; [reflexivity|]. cbn [str_split list_ascii_of_string List.filter].
  destruct (Ascii.eqb c sep); [cbn; rewrite IH; reflexivity|].
  destruct (str_split sep s) as [|piece pieces]; [discriminate|]. exact IH.
Qed.

(** [compute_pair_analytics] only reads the manager. *)
Lemma pair_analytics_trace pair tf w m dm :
  read_trace dm (snd (compute_pair_analytics' pair tf w m dm)).
Proof.
  unfold compute_pair_analytics.
  destruct (str_split "-" pair) as [|a [|b [|c rest]]]; try apply rt_refl.
  pose proof (bundle_reads a b pair tf w m dm) as Hr.
  destruct (pair_bundle' pair a b tf w m dm) as [[bundle|] d]; exact Hr.
Qed.

(** X20.  [compute_pair_analytics] never raises and bundles consistent
    results.  A pair string with no hyphen or with more than one is answered
    with the empty dict, the manager untouched.  For a pair [A-B] the
    bundle holds exactly what [compute_hedge_ratio], [compute_spread],
    [compute_zscore], [compute_rolling_correlation] and [compute_adf_test]
    return for [(A, B)] on the manager as it was before the call, so the
    five entries are computed from the same ticks; if any of them raises,
    the answer is the error dict.  No buffer, counter or arrival time
    changes. *)
Theorem pair_analytics_bundle
    (pair tf : string) (w : Z) (m : string) (dm : DataManager) :
  let out := fst (compute_pair_analytics' pair tf w m dm) in
  let dm' := snd (compute_pair_analytics' pair tf w m dm) in
  (out = PA_empty <-> hyphens pair <> 1%nat)
  /\ (out = PA_empty -> dm' = dm)
  /\ (forall a b, str_split "-" pair = [a; b] ->
        match fst (compute_hedge_ratio' a b tf w m dm),
              fst (compute_spread' a b tf w m dm),
              fst (compute_zscore' a b tf w m dm),
              fst (compute_rolling_correlation' a b tf w dm),
              fst (compute_adf_test' a b tf w m dm) with
        | Some hr, Some sp, Some z, Some c, Some adf =>
            out = PA_bundle pair hr sp z c adf
        | _, _, _, _, _ => out = PA_error pair
        end)
  /\ (forall s, buffer_of dm' s = buffer_of dm s)
  /\ tick_counts dm' = tick_counts dm
  /\ last_tick_time dm' = last_tick_time dm.
Proof.
  intros out dm'.
  assert (Hbundle : forall a b, str_split "-" pair = [a; b] ->
            read_trace dm dm'
            /\ match fst (compute_hedge_ratio' a b tf w m dm),
                     fst (compute_spread' a b tf w m dm),
                     fst (compute_zscore' a b tf w m dm),
                     fst (compute_rolling_correlation' a b tf w dm),
                     fst (compute_adf_test' a b tf w m dm) with
               | Some hr, Some sp, Some z, Some c, Some adf =>
                   out = PA_bundle pair hr sp z c adf
               | _, _, _, _, _ => out = PA_error pair
               end).
  { intros a b Hsplit. subst out dm'. unfold compute_pair_analytics.
    rewrite Hsplit.
    pose proof (bundle_reads a b pair tf w m dm) as Hr.
    assert (Hfst : fst (pair_bundle' pair a b tf w m dm)
              = match fst (compute_hedge_ratio' a b tf w m dm),
                      fst (compute_spread' a b tf w m dm),
                      fst (compute_zscore' a b tf w m dm),
                      fst (compute_rolling_correlation' a b tf w dm),
                      fst (compute_adf_test' a b tf w m dm) with
                | Some hr, Some sp, Some z, Some c, Some adf =>
                    Some (PA_bundle pair hr sp z c adf)
                | _, _, _, _, _ => None
                end).
    { unfold pair_bundle.
      pose proof (hedge_reads a b tf w m dm) as R1.
      destruct (fst (compute_hedge_ratio' a b tf w m dm)) as [hr|] eqn:E1;
        [|apply bind_fst_None, E1].
      rewrite (bind_fst _ _ _ _ E1).
      set (d1 := snd (compute_hedge_ratio' a b tf w m dm)) in *.
      pose proof (after_reads _ _ dm d1 (spread_determined a b tf w m) R1) as E2.
      pose proof (read_trace_trans _ _ _ R1 (spread_reads a b tf w m d1)) as R2.
      destruct (fst (compute_spread' a b tf w m dm)) as [sp|];
        [|apply bind_fst_None, E2].
      rewrite (bind_fst _ _ _ _ E2).
      set (d2 := snd (compute_spread' a b tf w m d1)) in *.
      pose proof (after_reads _ _ dm d2 (zscore_determined a b tf w m) R2) as E3.
      pose proof (read_trace_trans _ _ _ R2 (zscore_reads a b tf w m d2)) as R3.
      destruct (fst (compute_zscore' a b tf w m dm)) as [z|];
        [|apply bind_fst_None, E3].
      rewrite (bind_fst _ _ _ _ E3).
      set (d3 := snd (compute_zscore' a b tf w m d2)) in *.
      pose proof (after_reads _ _ dm d3 (corr_determined a b tf w) R3) as E4.
      pose proof (read_trace_trans _ _ _ R3 (corr_reads a b tf w d3)) as R4.
      destruct (fst (compute_rolling_correlation' a b tf w dm)) as [c|];
        [|apply bind_fst_None, E4].
      rewrite (bind_fst _ _ _ _ E4).
      set (d4 := snd (compute_rolling_correlation' a b tf w d3)) in *.
      pose proof (after_reads _ _ dm d4 (adf_determined a b tf w m) R4) as E5.
      destruct (fst (compute_adf_test' a b tf w m dm)) as [adf|];
        [|apply bind_fst_None, E5].
      rewrite (bind_fst _ _ _ _ E5). reflexivity. }
    destruct (pair_bundle' pair a b tf w m dm) as [[bundle|] d]; cbn [fst snd] in *.
    - split; [exact Hr|].
      destruct (fst (compute_hedge_ratio' a b tf w m dm)); [|discriminate].
      destruct (fst (compute_spread' a b tf w m dm)); [|discriminate].
      destruct (fst (compute_zscore' a b tf w m dm)); [|discriminate].
      destruct (fst (compute_rolling_correlation' a b tf w dm)); [|discriminate].
      destruct (fst (compute_adf_test' a b tf w m dm)); [|discriminate].
      congruence.
    - split; [exact Hr|].
      destruct (fst (compute_hedge_ratio' a b tf w m dm)); [|reflexivity].
      destruct (fst (compute_spread' a b tf w m dm)); [|reflexivity].
      destruct (fst (compute_zscore' a b tf w m dm)); [|reflexivity].
      destruct (fst (compute_rolling_correlation' a b tf w dm)); [|reflexivity].
      destruct (fst (compute_adf_test' a b tf w m dm)); [discriminate | reflexivity]. }
  assert (Hcases : (exists a b, str_split "-" pair = [a; b] /\ hyphens pair = 1%nat)
                   \/ (out = PA_empty /\ dm' = dm /\ hyphens pair <> 1%nat)).
  { pose proof (str_split_length "-" pair) as Hlen. fold (hyphens pair) in Hlen.
    subst out dm'. unfold compute_pair_analytics.
    destruct (str_split "-" pair) as [|a [|b [|c rest]]] eqn:E; cbn in Hlen.
    - discriminate.
    - right. repeat split. lia.
    - left. exists a, b. split; [reflexivity | lia].
    - right. repeat split. lia. }
  assert (Hne : forall a b, str_split "-" pair = [a; b] -> out <> PA_empty).
  { intros a b Hs. destruct (Hbundle a b Hs) as [_ H].
    destruct (fst (compute_hedge_ratio' a b tf w m dm));
      destruct (fst (compute_spread' a b tf w m dm));
      destruct (fst (compute_zscore' a b tf w m dm));
      destruct (fst (compute_rolling_correlation' a b tf w dm));
      destruct (fst (compute_adf_test' a b tf w m dm));
      rewrite H; discriminate. }
  assert (Hframe : read_trace dm dm').
  { destruct Hcases as [(a & b & Hs & _)|(_ & -> & _)];
      [apply (Hbundle a b Hs) | apply rt_refl]. }
  destruct (read_trace_frame _ _ Hframe) as (F1 & F2 & F3 & _).
  split; [|split; [|split; [|split; [exact F1 | split; [exact F2 | exact F3]]]]].
  - destruct Hcases as [(a & b & Hs & Hh)|(He & _ & Hh)].
    + split; [intros H; exfalso; apply (Hne a b Hs H) | intros H; lia].
    + split; [intros _; exact Hh | intros _; exact He].
  - destruct Hcases as [(a & b & Hs & Hh)|(He & Hd & Hh)].
    + intros H. exfalso. apply (Hne a b Hs H).
    + intros _. exact Hd.
  - intros a b Hs. apply (Hbundle a b Hs).
Qed.

(** *** The cache after an analytics call                                *)

Abbreviation fresh_frame' := (fresh_frame to_datetime_utc isoformat).
Abbreviation refreshes' := (refreshes to_datetime_utc isoformat).
Abbreviation establishes' := (establishes to_datetime_utc isoformat).

Lemma fresh_frame_reads dm st s tf :
  read_trace dm st -> fresh_frame' st s tf = fresh_frame' dm s tf.
Proof.
  intros H. unfold fresh_frame. rewrite (proj1 (read_trace_frame _ _ H)). reflexivity.
Qed.

(** The state a forced fetch leaves. *)
Lemma fetch_state s tf limit dm :
  snd (fetch s tf limit true dm)
  = match fresh_frame' dm (normalize_symbol s) tf with
    | Some (cd :: df) =>
        set_cache (normalize_symbol s, tf) (cd :: df)
          (touch_buffer (normalize_symbol s) dm)
    | _ => touch_buffer (normalize_symbol s) dm
    end.
Proof.
  unfold get_price_series, fresh_frame.
  destruct (buffer_of dm (normalize_symbol s)) as [|t l]; [reflexivity|].
  destruct (resample_to_ohlcv _ _ _ _) as [[|cd df]|]; reflexivity.
Qed.

Lemma refreshes_ret {X} (x : X) : refreshes' (ret x).
Proof. intros dm key. left. reflexivity. Qed.

Lemma refreshes_lift {X} (o : option X) : refreshes' (lift_option o).
Proof. intros dm key. left. reflexivity. Qed.

Lemma refreshes_fetch s tf limit : refreshes' (fetch s tf limit true).
Proof.
  intros dm key. rewrite fetch_state.
  destruct (fresh_frame' dm (normalize_symbol s) tf) as [[|cd df]|] eqn:E;
    try (left; reflexivity).
  cbn [set_cache ohlcv_cache touch_buffer].
  destruct (decide ((normalize_symbol s, tf) = key)) as [<-|Hne].
  - right. exists (cd :: df). split; [exact E | apply lookup_insert_eq].
  - left. apply lookup_insert_ne, Hne.
Qed.

Lemma refreshes_bind {X Y} (c : M X) (k : X -> M Y) :
  reads_only c -> refreshes' c -> (forall x, refreshes' (k x)) ->
  refreshes' (bind c k).
Proof.
  intros Hr Hc Hk dm key. unfold bind.
  specialize (Hr dm). specialize (Hc dm key).
  destruct (c dm) as [[x|] d]; cbn [snd] in *; [|exact Hc].
  destruct (Hk x d key) as [E|(df & Hf & E)].
  - rewrite E. exact Hc.
  - right. exists df. split; [|exact E].
    rewrite <- (fresh_frame_reads dm d _ _ Hr). exact Hf.
Qed.

Lemma establishes_fetch s tf limit :
  establishes' (fun _ => True) (normalize_symbol s, tf) (fetch s tf limit true).
Proof.
  intros dm cd df _ Hf. cbn [fst snd] in Hf. rewrite fetch_state, Hf.
  apply set_cache_lookup.
Qed.

Lemma establishes_bind_l {X Y} Q key (c : M X) (k : X -> M Y) :
  reads_only c -> establishes' Q key c -> (forall x, refreshes' (k x)) ->
  establishes' Q key (bind c k).
Proof.
  intros Hr Hc Hk dm cd df HQ Hf. unfold bind.
  specialize (Hr dm). specialize (Hc dm cd df HQ Hf).
  destruct (c dm) as [[x|] d]; cbn [snd] in *; [|exact Hc].
  destruct (Hk x d key) as [E|(df' & Hf' & E)].
  - rewrite E. exact Hc.
  - rewrite (fresh_frame_reads dm d _ _ Hr), Hf in Hf'. congruence.
Qed.

Lemma establishes_bind_r {X Y} (Q : DataManager -> Prop) key (c : M X) (k : X -> M Y) :
  reads_only c -> (forall dm, Q dm -> fst (c dm) <> None) ->
  (forall x, establishes' (fun _ => True) key (k x)) ->
  establishes' Q key (bind c k).
Proof.
  intros Hr Hok Hk dm cd df HQ Hf. unfold bind.
  specialize (Hr dm). specialize (Hok dm HQ).
  destruct (c dm) as [[x|] d]; cbn [fst snd] in *; [|congruence].
  apply (Hk x d cd df I). rewrite (fresh_frame_reads dm d _ _ Hr). exact Hf.
Qed.

Section Refresh.

Variables (a b tf : string) (w : Z) (m : string).

Abbreviation fetched_a :=
  (fun dm => fst (fetch a tf (series_limit w) true dm) <> None).
Abbreviation key_a := (normalize_symbol a, tf).
Abbreviation key_b := (normalize_symbol b, tf).

Ltac refreshing :=
  repeat first
    [ apply refreshes_bind; [| |intros ?]
    | apply fetch_reads
    | apply refreshes_fetch
    | apply refreshes_ret
    | apply refreshes_lift
    | match goal with |- refreshes _ _ (match ?x with _ => _ end) => destruct x end ].

Lemma hedge_refreshes : refreshes' (compute_hedge_ratio' a b tf w m).
Proof. unfold compute_hedge_ratio. refreshing. Qed.

Lemma spread_refreshes : refreshes' (compute_spread' a b tf w m).
Proof.
  unfold compute_spread.
  apply refreshes_bind; [apply hedge_reads | apply hedge_refreshes|].
  intros hr. refreshing.
Qed.

Lemma zscore_refreshes : refreshes' (compute_zscore' a b tf w m).
Proof.
  unfold compute_zscore.
  apply refreshes_bind; [apply spread_reads | apply spread_refreshes|].
  intros. refreshing.
Qed.

Lemma adf_refreshes : refreshes' (compute_adf_test' a b tf w m).
Proof.
  unfold compute_adf_test.
  apply refreshes_bind; [apply spread_reads | apply spread_refreshes|].
  intros. refreshing.
Qed.

Lemma corr_refreshes : refreshes' (compute_rolling_correlation' a b tf w).
Proof. unfold compute_rolling_correlation. refreshing. Qed.

Lemma hedge_establishes_a : establishes' (fun _ => True) key_a (compute_hedge_ratio' a b tf w m).
Proof.
  unfold compute_hedge_ratio.
  apply establishes_bind_l; [apply fetch_reads | apply establishes_fetch|].
  intros pa. refreshing.
Qed.

Lemma hedge_establishes_b : establishes' fetched_a key_b (compute_hedge_ratio' a b tf w m).
Proof.
  unfold compute_hedge_ratio.
  apply establishes_bind_r; [apply fetch_reads | intros dm H; exact H|].
  intros pa.
  apply establishes_bind_l; [apply fetch_reads | apply establishes_fetch|].
  intros pb. refreshing.
Qed.

Lemma corr_establishes_a :
  establishes' (fun _ => True) key_a (compute_rolling_correlation' a b tf w).
Proof.
  unfold compute_rolling_correlation.
  apply establishes_bind_l; [apply fetch_reads | apply establishes_fetch|].
  intros pa. refreshing.
Qed.

Lemma corr_establishes_b :
  establishes' fetched_a key_b (compute_rolling_correlation' a b tf w).
Proof.
  unfold compute_rolling_correlation.
  apply establishes_bind_r; [apply fetch_reads | intros dm H; exact H|].
  intros pa.
  apply establishes_bind_l; [apply fetch_reads | apply establishes_fetch|].
  intros pb. refreshing.
Qed.

Lemma spread_establishes Q key :
  establishes' Q key (compute_hedge_ratio' a b tf w m) ->
  establishes' Q key (compute_spread' a b tf w m).
Proof.
  intros H. unfold compute_spread.
  apply establishes_bind_l; [apply hedge_reads | exact H|].
  intros hr. refreshing.
Qed.

Lemma zscore_establishes Q key :
  establishes' Q key (compute_hedge_ratio' a b tf w m) ->
  establishes' Q key (compute_zscore' a b tf w m).
Proof.
  intros H. unfold compute_zscore.
  apply establishes_bind_l; [apply spread_reads | apply spread_establishes, H|].
  intros. refreshing.
Qed.

Lemma adf_establishes Q key :
  establishes' Q key (compute_hedge_ratio' a b tf w m) ->
  establishes' Q key (compute_adf_test' a b tf w m).
Proof.
  intros H. unfold compute_adf_test.
  apply establishes_bind_l; [apply spread_reads | apply spread_establishes, H|].
  intros. refreshing.
Qed.

End Refresh.

(** X21.  The analytics only read the ticks but refresh the candle cache.
    After [compute_hedge_ratio], [compute_spread], [compute_zscore],
    [compute_rolling_correlation] or [compute_adf_test] (returning or
    raising): no buffer, counter or arrival time has changed; every cache
    entry is either the one from before the call or the frame resampled
    from the whole buffer of its symbol; the entry of the first symbol at
    the timeframe of the call is that fresh frame whenever it is not empty,
    and so is the entry of the second symbol when the first series could be
    fetched. *)
Theorem analytics_refresh_the_cache
    (a b tf : string) (w : Z) (m : string) (dm dm' : DataManager) :
  In dm' [snd (compute_hedge_ratio' a b tf w m dm);
          snd (compute_spread' a b tf w m dm);
          snd (compute_zscore' a b tf w m dm);
          snd (compute_rolling_correlation' a b tf w dm);
          snd (compute_adf_test' a b tf w m dm)] ->
  (forall s, buffer_of dm' s = buffer_of dm s)
  /\ tick_counts dm' = tick_counts dm
  /\ last_tick_time dm' = last_tick_time dm
  /\ (forall s tf' df, ohlcv_cache dm' !! (s, tf') = Some df ->
        ohlcv_cache dm !! (s, tf') = Some df \/ fresh_frame' dm s tf' = Some df)
  /\ (forall cd df, fresh_frame' dm (normalize_symbol a) tf = Some (cd :: df) ->
        ohlcv_cache dm' !! (normalize_symbol a, tf) = Some (cd :: df))
  /\ (fst (fetch a tf (series_limit w) true dm) <> None ->
      forall cd df, fresh_frame' dm (normalize_symbol b) tf = Some (cd :: df) ->
        ohlcv_cache dm' !! (normalize_symbol b, tf) = Some (cd :: df)).
Proof.
  intros Hin.
  assert (H : read_trace dm dm'
              /\ (forall key,
                    ohlcv_cache dm' !! key = ohlcv_cache dm !! key
                    \/ exists df, fresh_frame' dm (fst key) (snd key) = Some df
                                  /\ ohlcv_cache dm' !! key = Some df)
              /\ (forall cd df,
                    fresh_frame' dm (normalize_symbol a) tf = Some (cd :: df) ->
                    ohlcv_cache dm' !! (normalize_symbol a, tf) = Some (cd :: df))
              /\ (fst (fetch a tf (series_limit w) true dm) <> None ->
                  forall cd df,
                    fresh_frame' dm (normalize_symbol b) tf = Some (cd :: df) ->
                    ohlcv_cache dm' !! (normalize_symbol b, tf) = Some (cd :: df))).
  { destruct Hin as [<-|[<-|[<-|[<-|[<-|[]]]]]].
    - split; [apply hedge_reads|]. split; [apply hedge_refreshes|].
      split; [intros cd df; apply (hedge_establishes_a a b tf w m dm cd df I)|].
      intros Hf cd df. apply (hedge_establishes_b a b tf w m dm cd df Hf).
    - split; [apply spread_reads|]. split; [apply spread_refreshes|].
      split; [intros cd df;
              apply (spread_establishes a b tf w m _ _ (hedge_establishes_a a b tf w m)
                       dm cd df I)|].
      intros Hf cd df.
      apply (spread_establishes a b tf w m _ _ (hedge_establishes_b a b tf w m)
               dm cd df Hf).
    - split; [apply zscore_reads|]. split; [apply zscore_refreshes|].
      split; [intros cd df;
              apply (zscore_establishes a b tf w m _ _ (hedge_establishes_a a b tf w m)
                       dm cd df I)|].
      intros Hf cd df.
      apply (zscore_establishes a b tf w m _ _ (hedge_establishes_b a b tf w m)
               dm cd df Hf).
    - split; [apply corr_reads|]. split; [apply corr_refreshes|].
      split; [intros cd df; apply (corr_establishes_a a b tf w dm cd df I)|].
      intros Hf cd df. apply (corr_establishes_b a b tf w dm cd df Hf).
    - split; [apply adf_reads|]. split; [apply adf_refreshes|].
      split; [intros cd df;
              apply (adf_establishes a b tf w m _ _ (hedge_establishes_a a b tf w m)
                       dm cd df I)|].
      intros Hf cd df.
      apply (adf_establishes a b tf w m _ _ (hedge_establishes_b a b tf w m)
               dm cd df Hf). }
  destruct H as (Hr & Hc & Ha & Hb).
  destruct (read_trace_frame _ _ Hr) as (F1 & F2 & F3 & _).
  split; [exact F1|]. split; [exact F2|]. split; [exact F3|].
  split; [|split; [exact Ha | exact Hb]].
  intros s tf' df Hdf. destruct (Hc (s, tf')) as [E|(df' & Hf & E)].
  - left. rewrite <- E. exact Hdf.
  - right. cbn [fst snd] in Hf. congruence.
Qed.

End AnalyticsReads.

(** ** The alerts engine                                                 *)

(** *** Comparisons with NaN                                             *)

Lemma isnan_SF x : Fl.isnan x = true -> Prim2SF x = S754_nan.
Proof.
  unfold Fl.isnan, PrimFloat.is_nan. rewrite FloatAxioms.eqb_spec.
  unfold SFeqb, SFcompare.
  destruct (Prim2SF x) as [s|s| |s mx ex]; FlFacts.sf_cases.
Qed.

Lemma SF_isnan x : Prim2SF x = S754_nan -> Fl.isnan x = true.
Proof.
  unfold Fl.isnan, PrimFloat.is_nan. rewrite FloatAxioms.eqb_spec.
  intros ->. reflexivity.
Qed.

Lemma ltb_nan x y :
  Fl.isnan x = true \/ Fl.isnan y = true -> PrimFloat.ltb x y = false.
Proof.
  rewrite FloatAxioms.ltb_spec. unfold SFltb, SFcompare.
  intros [H|H]; rewrite (isnan_SF _ H); [reflexivity|].
  destruct (Prim2SF x); reflexivity.
Qed.

Lemma leb_nan x y :
  Fl.isnan x = true \/ Fl.isnan y = true -> PrimFloat.leb x y = false.
Proof.
  rewrite FloatAxioms.leb_spec. unfold SFleb, SFcompare.
  intros [H|H]; rewrite (isnan_SF _ H); [reflexivity|].
  destruct (Prim2SF x); reflexivity.
Qed.

Lemma sub_nan x y :
  Fl.isnan x = true \/ Fl.isnan y = true -> Fl.isnan (PrimFloat.sub x y) = true.
Proof.
  intros H. apply SF_isnan. rewrite FloatAxioms.sub_spec. unfold SF64sub, SFsub.
  destruct H as [H|H]; rewrite (isnan_SF _ H); [reflexivity|].
  destruct (Prim2SF x); reflexivity.
Qed.

Lemma abs_nan x : Fl.isnan x = true -> Fl.isnan (PrimFloat.abs x) = true.
Proof.
  intros H. apply SF_isnan. rewrite FloatAxioms.abs_spec, (isnan_SF _ H). reflexivity.
Qed.

Lemma SFltb_not_leb x y : SFltb y x = true -> SFleb x y = false.
Proof.
  unfold SFleb, SFltb, SFcompare.
  destruct x as [sx|sx| |sx mx ex], y as [sy|sy| |sy my ey]; FlFacts.sf_cases.
Qed.

(** On numbers [<] is the negation of the converse [<=]. *)
Lemma ltb_negb_leb x y :
  Fl.isnan x = false -> Fl.isnan y = false ->
  PrimFloat.ltb y x = negb (PrimFloat.leb x y).
Proof.
  intros Hx Hy. destruct (PrimFloat.ltb y x) eqn:E.
  - rewrite FloatAxioms.ltb_spec in E. rewrite FloatAxioms.leb_spec.
    rewrite (SFltb_not_leb _ _ E). reflexivity.
  - rewrite (FlFacts.nlt_leb y x); auto.
Qed.

(** X22.  An alert condition never holds on a NaN: if the metric value or
    the threshold is NaN, [_evaluate_condition] is false for every
    operator.  An operator string other than [>], [<], [>=], [<=], [==]
    (a misspelt one, or one with a space) is accepted but never holds.  On
    numbers [>] is the negation of [<=] and [<] the negation of [>=]. *)
Theorem evaluate_condition_never_on_nan
    (actual threshold : float) (operator : string) :
  (Fl.isnan actual = true \/ Fl.isnan threshold = true ->
   _evaluate_condition actual operator threshold = false)
  /\ (~ In operator [">"; "<"; ">="; "<="; "=="]%string ->
      _evaluate_condition actual operator threshold = false)
  /\ (Fl.isnan actual = false -> Fl.isnan threshold = false ->
      _evaluate_condition actual ">" threshold
      = negb (_evaluate_condition actual "<=" threshold)
      /\ _evaluate_condition actual "<" threshold
         = negb (_evaluate_condition actual ">=" threshold)).
Proof.
  split; [|split].
  - intros H. unfold _evaluate_condition.
    destruct (String.eqb operator ">"); [apply ltb_nan; tauto|].
    destruct (String.eqb operator "<"); [apply ltb_nan; tauto|].
    destruct (String.eqb operator ">="); [apply leb_nan; tauto|].
    destruct (String.eqb operator "<="); [apply leb_nan; tauto|].
    destruct (String.eqb operator "=="); [|reflexivity].
    apply ltb_nan. left. apply abs_nan, sub_nan, H.
  - intros H. unfold _evaluate_condition.
    destruct (String.eqb_spec operator ">") as [->|_];
      [exfalso; apply H; cbn; tauto|].
    destruct (String.eqb_spec operator "<") as [->|_];
      [exfalso; apply H; cbn; tauto|].
    destruct (String.eqb_spec operator ">=") as [->|_];
      [exfalso; apply H; cbn; tauto|].
    destruct (String.eqb_spec operator "<=") as [->|_];
      [exfalso; apply H; cbn; tauto|].
    destruct (String.eqb_spec operator "==") as [->|_];
      [exfalso; apply H; cbn; tauto|].
    reflexivity.
  - intros Ha Ht. unfold _evaluate_condition. cbn [String.eqb Ascii.eqb Bool.eqb].
    split; apply ltb_negb_leb; assumption.
Qed.

(** *** The dict of alerts                                               *)

Section DictFacts.

Context {V : Type}.
Implicit Types (d : list (string * V)) (k : string) (v : V).

Lemma dict_get_set_eq k v d : Dict.get k (Dict.set k v d) = Some v.
Proof.
  induction d as [|[k' v'] d IH]; cbn; [rewrite String.eqb_refl; reflexivity|].
  destruct (String.eqb k' k) eqn:E; cbn; rewrite E; [reflexivity | exact IH].
Qed.

Lemma dict_get_set_ne k k0 v d : k0 <> k -> Dict.get k0 (Dict.set k v d) = Dict.get k0 d.
Proof.
  intros Hne. induction d as [|[k' v'] d IH]; cbn.
  - destruct (String.eqb_spec k k0); [congruence | reflexivity].
  - destruct (String.eqb_spec k' k) as [->|Hk]; cbn.
    + destruct (String.eqb_spec k k0); [congruence | reflexivity].
    + destruct (String.eqb k' k0); [reflexivity | exact IH].
Qed.

Lemma dict_get_del_eq k d : Dict.get k (Dict.del k d) = None.
Proof.
  unfold Dict.del. induction d as [|[k' v'] d IH]; cbn; [reflexivity|].
  destruct (String.eqb k' k) eqn:E; cbn; [exact IH|]. rewrite E. exact IH.
Qed.

Lemma dict_get_del_ne k k0 d : k0 <> k -> Dict.get k0 (Dict.del k d) = Dict.get k0 d.
Proof.
  intros Hne. unfold Dict.del. induction d as [|[k' v'] d IH]; cbn; [reflexivity|].
  destruct (String.eqb_spec k' k) as [->|Hk]; cbn.
  - destruct (String.eqb_spec k k0); [congruence | exact IH].
  - destruct (String.eqb k' k0); [reflexivity | exact IH].
Qed.

Lemma dict_get_in k v d : Dict.get k d = Some v -> In (k, v) d.
Proof.
  induction d as [|[k' v'] d IH]; cbn; [discriminate|].
  destruct (String.eqb_spec k' k) as [->|_].
  - intros H. injection H as ->. left. reflexivity.
  - intros H. right. apply IH, H.
Qed.

(** Setting a key keeps the other entries and their order. *)
Lemma dict_set_keys k v d :
  map fst (Dict.set k v d)
  = match Dict.get k d with
    | Some _ => map fst d
    | None => map fst d ++ [k]
    end.
Proof.
  induction d as [|[k' v'] d IH]; cbn; [reflexivity|].
  destruct (String.eqb k' k); cbn; [reflexivity|].
  rewrite IH. destruct (Dict.get k d); reflexivity.
Qed.

End DictFacts.

(** X23.  Alert rules round-trip through the engine.  [add_alert] stores
    the new rule under its id with the metric lower-cased and the pair
    upper-cased, active, never triggered; [get_alert] returns it, and it is
    listed among the active alerts; the other rules and the notification
    history are untouched.  [remove_alert] of that id answers [True] and
    makes [get_alert] return [None], leaving the other rules as they were;
    [remove_alert] of an unknown id answers [False] and changes nothing. *)
Theorem alert_rules_round_trip
    (uid now metric pair operator : string) (value : float) (eng : AlertsEngine) :
  let alert := fst (add_alert uid now metric pair operator value eng) in
  let eng1 := snd (add_alert uid now metric pair operator value eng) in
  let eng2 := snd (remove_alert uid eng1) in
  alert = {| a_id := uid; a_metric := Str.lower metric; a_pair := Str.upper pair;
             a_operator := operator; a_value := value; a_active := true;
             a_created_at := now; a_triggered_at := None; a_trigger_count := 0 |}
  /\ get_alert uid eng1 = Some alert
  /\ In alert (get_active_alerts eng1)
  /\ (forall id, id <> uid -> get_alert id eng1 = get_alert id eng)
  /\ triggered_alerts eng1 = triggered_alerts eng
  /\ fst (remove_alert uid eng1) = true
  /\ get_alert uid eng2 = None
  /\ (forall id, id <> uid -> get_alert id eng2 = get_alert id eng)
  /\ triggered_alerts eng2 = triggered_alerts eng
  /\ (forall id, get_alert id eng = None -> remove_alert id eng = (false, eng)).
Proof.
  cbn zeta. unfold add_alert, remove_alert, get_alert, get_active_alerts.
  cbn [fst snd alerts triggered_alerts a_id].
  rewrite dict_get_set_eq. cbn [fst snd alerts triggered_alerts].
  split; [reflexivity|]. split; [reflexivity|]. split.
  { apply filter_In. split; [|reflexivity].
    unfold Dict.values. apply in_map_iff. eexists (uid, _).
    split; [reflexivity|]. apply dict_get_in, dict_get_set_eq. }
  split; [intros id Hid; apply dict_get_set_ne, Hid|].
  split; [reflexivity|]. split; [reflexivity|].
  split; [apply dict_get_del_eq|].
  split; [intros id Hid; rewrite dict_get_del_ne, dict_get_set_ne by exact Hid;
          reflexivity|].
  split; [reflexivity|].
  intros id Hid. rewrite Hid. reflexivity.
Qed.

(** *** Checking an alert                                                *)

Lemma normalize_symbol_upper s : normalize_symbol (Str.upper s) = normalize_symbol s.
Proof. unfold normalize_symbol. rewrite strip_upper, upper_idem. reflexivity. Qed.

Section AlertFacts.

Variable to_datetime_utc : string -> option Z.
Variable isoformat : Z -> string.
Variable to_datetime : string -> option Z.
Variable Timestamp : string -> option Z.
Variable OLS_fit_params : list float -> list (list float) -> option (list float).
Variable HuberRegressor_fit_coef : list (list float) -> list float -> option (list float).
Variable TheilSenRegressor_fit_coef : list (list float) -> list float -> option (list float).
Variable rolling_mean : Z -> list float -> option (list float).
Variable rolling_std : Z -> list float -> option (list float).
Variable adfuller : list float -> option (float * float).
Variable rolling_corr : Z -> list float -> list float -> option (list float).
Variable str_of_float : float -> string.

Abbreviation _get_metric_value' :=
  (_get_metric_value to_datetime_utc isoformat to_datetime Timestamp
     OLS_fit_params HuberRegressor_fit_coef TheilSenRegressor_fit_coef
     rolling_mean rolling_std adfuller rolling_corr).
Abbreviation check_alert' :=
  (check_alert to_datetime_utc isoformat to_datetime Timestamp
     OLS_fit_params HuberRegressor_fit_coef TheilSenRegressor_fit_coef
     rolling_mean rolling_std adfuller rolling_corr str_of_float).
Abbreviation monitor_entries' :=
  (monitor_entries to_datetime_utc isoformat to_datetime Timestamp
     OLS_fit_params HuberRegressor_fit_coef TheilSenRegressor_fit_coef
     rolling_mean rolling_std adfuller rolling_corr str_of_float).
Abbreviation monitor_pass' :=
  (monitor_pass to_datetime_utc isoformat to_datetime Timestamp
     OLS_fit_params HuberRegressor_fit_coef TheilSenRegressor_fit_coef
     rolling_mean rolling_std adfuller rolling_corr str_of_float).
Abbreviation alert_message' := (alert_message str_of_float).

Lemma metric_value_trace metric pair dm :
  read_trace dm (snd (_get_metric_value' metric pair dm)).
Proof.
  unfold _get_metric_value.
  destruct (String.eqb (Str.lower metric) "price"); [apply get_latest_price_trace|].
  destruct (_ || _); [|apply rt_refl].
  pose proof (pair_analytics_trace to_datetime_utc isoformat to_datetime Timestamp
                OLS_fit_params HuberRegressor_fit_coef TheilSenRegressor_fit_coef
                rolling_mean rolling_std adfuller rolling_corr pair "1m" 60 "OLS" dm)
    as H.
  destruct (compute_pair_analytics _ _ _ _ _ _ _ _ _ _ _ _ _ _ _ _) as [an d].
  exact H.
Qed.

(** The value of the metric [price] is the latest buffered price. *)
Lemma metric_value_price metric pair dm :
  Str.lower metric = "price"%string ->
  fst (_get_metric_value' metric pair dm)
  = tick_price <$> last (buffer_of dm (normalize_symbol pair)).
Proof.
  intros H. unfold _get_metric_value. rewrite H. cbn [String.eqb Ascii.eqb Bool.eqb].
  cbn [get_latest_price fst].
  destruct (buffer_of dm (normalize_symbol pair)); reflexivity.
Qed.

(** What [check_alert] does, in terms of the metric value. *)
Lemma check_alert_cases uid now alert dm :
  let actual := fst (_get_metric_value' (a_metric alert) (a_pair alert) dm) in
  let out := fst (check_alert' uid now alert dm) in
  snd (check_alert' uid now alert dm)
  = snd (_get_metric_value' (a_metric alert) (a_pair alert) dm)
  /\ match actual with
     | Some v =>
         if _evaluate_condition v (a_operator alert) (a_value alert)
         then out =
              (Some {| n_id := uid; n_alert_id := a_id alert;
                       n_message := alert_message' alert;
                       n_metric := a_metric alert; n_pair := a_pair alert;
                       n_actual_value := v; n_threshold_value := a_value alert;
                       n_ts := now |},
               {| a_id := a_id alert; a_metric := a_metric alert;
                  a_pair := a_pair alert; a_operator := a_operator alert;
                  a_value := a_value alert; a_active := a_active alert;
                  a_created_at := a_created_at alert;
                  a_triggered_at := Some now;
                  a_trigger_count := a_trigger_count alert + 1 |})
         else out = (None, alert)
     | None => out = (None, alert)
     end.
Proof.
  cbn zeta. unfold check_alert.
  destruct (_get_metric_value' (a_metric alert) (a_pair alert) dm) as [[v|] d];
    cbn [fst snd]; [|split; reflexivity].
  destruct (_evaluate_condition v (a_operator alert) (a_value alert));
    split; reflexivity.
Qed.

(** X24.  A price alert fires on the latest price.  For a rule created by
    [add_alert] with metric [price] (in any letter case), [check_alert]
    returns a notification exactly when the buffer of the normalised pair
    is not empty and its newest tick's price satisfies the condition; the
    notification carries that price, the rule's id, pair and threshold, and
    the rule then has [trigger_count] 1 and [triggered_at] equal to the
    notification's time, and is still active.  Otherwise nothing is
    returned and the rule is unchanged.  No buffer changes. *)
Theorem price_alert_fires_on_latest_price
    (uid now uid' now' metric pair operator : string) (value : float)
    (eng : AlertsEngine) (dm : DataManager) :
  Str.lower metric = "price"%string ->
  let alert := fst (add_alert uid now metric pair operator value eng) in
  let out := fst (check_alert' uid' now' alert dm) in
  let dm' := snd (check_alert' uid' now' alert dm) in
  match last (buffer_of dm (normalize_symbol pair)) with
  | Some t =>
      if _evaluate_condition (tick_price t) operator value
      then fst out
           = Some {| n_id := uid'; n_alert_id := uid;
                     n_message := alert_message' alert;
                     n_metric := "price"; n_pair := Str.upper pair;
                     n_actual_value := tick_price t; n_threshold_value := value;
                     n_ts := now' |}
           /\ snd out
              = {| a_id := uid; a_metric := "price"; a_pair := Str.upper pair;
                   a_operator := operator; a_value := value; a_active := true;
                   a_created_at := now; a_triggered_at := Some now';
                   a_trigger_count := 1 |}
      else out = (None, alert)
  | None => out = (None, alert)
  end
  /\ (forall s, buffer_of dm' s = buffer_of dm s).
Proof.
  intros Hm alert out dm'.
  destruct (check_alert_cases uid' now' alert dm) as [Hst Hout].
  cbn zeta in Hout. fold out in Hout.
  assert (Hlow : Str.lower (a_metric alert) = "price"%string).
  { subst alert. cbn [add_alert fst a_metric]. rewrite lower_idem. exact Hm. }
  rewrite (metric_value_price _ _ _ Hlow) in Hout.
  assert (Hp : a_pair alert = Str.upper pair) by reflexivity.
  assert (Hmt : a_metric alert = "price"%string)
    by (subst alert; cbn [add_alert fst a_metric]; exact Hm).
  rewrite Hp, normalize_symbol_upper in Hout.
  split.
  - destruct (last (buffer_of dm (normalize_symbol pair))) as [t|]; cbn [fmap option_fmap option_map] in Hout;
      [|exact Hout].
    change (a_operator alert) with operator in Hout.
    change (a_value alert) with value in Hout.
    destruct (_evaluate_condition (tick_price t) operator value); [|exact Hout].
    rewrite Hout. cbn [fst snd]. rewrite Hmt.
    split; reflexivity.
  - intros s. subst dm'. rewrite Hst.
    apply (proj1 (read_trace_frame _ _ (metric_value_trace _ _ dm))).
Qed.

(** *** One pass of the monitor                                          *)

Lemma check_alert_trace uid now alert dm :
  read_trace dm (snd (check_alert' uid now alert dm)).
Proof.
  rewrite (proj1 (check_alert_cases uid now alert dm)). apply metric_value_trace.
Qed.

(** One check: the rule is unchanged, or it has fired once and the
    notification reports it. *)
Lemma check_alert_effect uid now alert dm :
  let out := fst (check_alert' uid now alert dm) in
  same_rule alert (snd out)
  /\ match fst out with
     | Some n =>
         notifies alert n /\ n_id n = uid /\ n_ts n = now
         /\ a_trigger_count (snd out) = a_trigger_count alert + 1
         /\ a_triggered_at (snd out) = Some now
     | None => snd out = alert
     end.
Proof.
  cbn zeta. destruct (check_alert_cases uid now alert dm) as [_ H]. cbn zeta in H.
  destruct (fst (_get_metric_value' (a_metric alert) (a_pair alert) dm)) as [v|].
  - destruct (_evaluate_condition v (a_operator alert) (a_value alert)) eqn:E;
      rewrite H; cbn [fst snd].
    + split; [repeat split|]. split; [|repeat split].
      repeat split. exact E.
    + split; [repeat split | reflexivity].
  - rewrite H. cbn [fst snd]. split; [repeat split | reflexivity].
Qed.

Lemma monitor_entries_spec fresh : forall entries i dm,
  let out := monitor_entries' fresh i entries dm in
  let entries' := fst (fst out) in
  let new := snd (fst out) in
  read_trace dm (snd out)
  /\ Forall2 (fun kv kv' =>
                fst kv' = fst kv /\ same_rule (snd kv) (snd kv')
                /\ (a_active (snd kv) = false -> snd kv' = snd kv)
                /\ (snd kv' = snd kv
                    \/ a_trigger_count (snd kv') = a_trigger_count (snd kv) + 1))
       entries entries'
  /\ (length new <= length (List.filter a_active (Dict.values entries)))%nat
  /\ total_triggers entries' = total_triggers entries + Z.of_nat (length new)
  /\ (forall n, In n new ->
        exists alert, In alert (List.filter a_active (Dict.values entries))
                      /\ notifies alert n).
Proof.
  induction entries as [|[k alert] rest IH]; intros i dm.
  - cbn. split; [apply rt_refl|]. split; [constructor|]. split; [lia|].
    split; [reflexivity|]. intros n [].
  - cbn [monitor_entries]. destruct (a_active alert) eqn:Eact.
    + pose proof (check_alert_trace (fst (fresh i)) (snd (fresh i)) alert dm) as Ht.
      pose proof (check_alert_effect (fst (fresh i)) (snd (fresh i)) alert dm) as He.
      cbn zeta in He.
      destruct (check_alert' (fst (fresh i)) (snd (fresh i)) alert dm)
        as [[notification alert'] dm1].
      cbn [fst snd] in Ht, He. destruct He as [Hsame Hn].
      specialize (IH (S i) dm1). cbn zeta in IH.
      destruct (monitor_entries' fresh (S i) rest dm1) as [[rest' ns] dm2].
      cbn [fst snd] in *. destruct IH as (Hr & Hf & Hlen & Htot & Hnew).
      unfold Dict.values in *. cbn [map snd List.filter]. rewrite Eact.
      split; [eapply read_trace_trans; eassumption|].
      split.
      { constructor; [|exact Hf]. cbn [fst snd].
        split; [reflexivity|]. split; [exact Hsame|].
        split; [intros H; congruence|].
        destruct notification as [n|]; [right; apply Hn | left; exact Hn]. }
      destruct notification as [n|].
      * destruct Hn as (Hnot & _ & _ & Hcount & _).
        split; [cbn [length]; lia|].
        split; [cbn [total_triggers fold_right snd length] in *;
                fold (total_triggers rest') (total_triggers rest); lia|].
        intros n' [<-|Hin].
        -- exists alert. split; [left; reflexivity | exact Hnot].
        -- destruct (Hnew n' Hin) as (al & Hal & Hno).
           exists al. split; [right; exact Hal | exact Hno].
      * subst alert'.
        split; [cbn [length]; lia|].
        split; [cbn [total_triggers fold_right snd] in *;
                fold (total_triggers rest') (total_triggers rest); lia|].
        intros n' Hin. destruct (Hnew n' Hin) as (al & Hal & Hno).
        exists al. split; [right; exact Hal | exact Hno].
    + specialize (IH i dm). cbn zeta in IH.
      destruct (monitor_entries' fresh i rest dm) as [[rest' ns] dm2].
      cbn [fst snd] in *. destruct IH as (Hr & Hf & Hlen & Htot & Hnew).
      unfold Dict.values in *. cbn [map snd List.filter]. rewrite Eact.
      split; [exact Hr|]. split.
      { constructor; [|exact Hf]. cbn [fst snd].
        split; [reflexivity|]. split; [repeat split|].
        split; [reflexivity | left; reflexivity]. }
      split; [exact Hlen|].
      split; [cbn [total_triggers fold_right snd] in *;
              fold (total_triggers rest') (total_triggers rest); lia|].
      exact Hnew.
Qed.

(** X25.  One pass of the monitor only appends to the history.  The
    notification list grows by at most one notification per active rule;
    each new notification reports an active rule whose condition held on
    the value it carries.  The rules keep their ids, order and settings, an
    inactive rule is not touched, a rule that fires has its trigger count
    raised by one and stays active, and the trigger counts grow in total
    by the number of new notifications.  The tick buffers are not
    changed. *)
Theorem monitor_pass_effects
    (fresh : nat -> string * string) (eng : AlertsEngine) (dm : DataManager) :
  let eng' := fst (monitor_pass' fresh eng dm) in
  let dm' := snd (monitor_pass' fresh eng dm) in
  exists new,
    triggered_alerts eng' = triggered_alerts eng ++ new
    /\ (length new <= length (get_active_alerts eng))%nat
    /\ (forall n, In n new ->
          exists alert, In alert (get_active_alerts eng) /\ notifies alert n)
    /\ Forall2 (fun kv kv' =>
                  fst kv' = fst kv /\ same_rule (snd kv) (snd kv')
                  /\ (a_active (snd kv) = false -> snd kv' = snd kv)
                  /\ (snd kv' = snd kv
                      \/ a_trigger_count (snd kv') = a_trigger_count (snd kv) + 1))
         (alerts eng) (alerts eng')
    /\ total_triggers (alerts eng')
       = total_triggers (alerts eng) + Z.of_nat (length new)
    /\ (forall s, buffer_of dm' s = buffer_of dm s).
Proof.
  cbn zeta. unfold monitor_pass, get_active_alerts.
  pose proof (monitor_entries_spec fresh (alerts eng) 0 dm) as H. cbn zeta in H.
  destruct (monitor_entries' fresh 0 (alerts eng) dm) as [[entries' new] dm'].
  cbn [fst snd alerts triggered_alerts] in *.
  destruct H as (Hr & Hf & Hlen & Htot & Hnew).
  exists new. split; [reflexivity|]. split; [exact Hlen|]. split; [exact Hnew|].
  split; [exact Hf|]. split; [exact Htot|].
  apply (proj1 (read_trace_frame _ _ Hr)).
Qed.

(** *** Repeated passes                                                  *)

Abbreviation monitor_passes' :=
  (monitor_passes to_datetime_utc isoformat to_datetime Timestamp
     OLS_fit_params HuberRegressor_fit_coef TheilSenRegressor_fit_coef
     rolling_mean rolling_std adfuller rolling_corr str_of_float).

(** A satisfied price rule fires in the pass, wherever it stands. *)
Lemma monitor_entries_price fresh : forall entries i dm p k alert t,
  entries !! p = Some (k, alert) ->
  a_active alert = true ->
  Str.lower (a_metric alert) = "price"%string ->
  last (buffer_of dm (normalize_symbol (a_pair alert))) = Some t ->
  _evaluate_condition (tick_price t) (a_operator alert) (a_value alert) = true ->
  let out := monitor_entries' fresh i entries dm in
  exists alert' n,
    fst (fst out) !! p = Some (k, alert')
    /\ same_rule alert alert'
    /\ a_trigger_count alert' = a_trigger_count alert + 1
    /\ In n (snd (fst out)) /\ notifies alert n /\ n_actual_value n = tick_price t.
Proof.
  induction entries as [|[k0 alert0] rest IH]; intros i dm p k alert t Hp Hact Hm Hl Hc;
    [destruct p; discriminate|].
  cbn zeta. cbn [monitor_entries]. destruct p as [|p]; cbn in Hp.
  - injection Hp as -> ->. rewrite Hact.
    destruct (check_alert_cases (fst (fresh i)) (snd (fresh i)) alert dm) as [_ H].
    cbn zeta in H. rewrite (metric_value_price _ _ _ Hm), Hl in H.
    cbn [fmap option_fmap option_map] in H. rewrite Hc in H.
    destruct (check_alert' (fst (fresh i)) (snd (fresh i)) alert dm)
      as [[notification alert'] dm1].
    cbn [fst] in H. injection H as -> ->.
    destruct (monitor_entries' fresh (S i) rest dm1) as [[rest' ns] dm2].
    cbn [fst snd]. eexists _, _. split; [reflexivity|].
    split; [repeat split|]. split; [reflexivity|].
    split; [left; reflexivity|]. split; [|reflexivity].
    repeat split. exact Hc.
  - destruct (a_active alert0).
    + pose proof (check_alert_trace (fst (fresh i)) (snd (fresh i)) alert0 dm) as Ht.
      destruct (check_alert' (fst (fresh i)) (snd (fresh i)) alert0 dm)
        as [[notification alert0'] dm1].
      cbn [snd] in Ht.
      rewrite <- (proj1 (read_trace_frame _ _ Ht)) in Hl.
      specialize (IH (S i) dm1 p k alert t Hp Hact Hm Hl Hc). cbn zeta in IH.
      destruct (monitor_entries' fresh (S i) rest dm1) as [[rest' ns] dm2].
      cbn [fst snd] in *. destruct IH as (alert' & n & H1 & H2 & H3 & H4 & H5).
      exists alert', n. split; [exact H1|]. split; [exact H2|]. split; [exact H3|].
      split; [|exact H5]. destruct notification; [right|]; exact H4.
    + specialize (IH i dm p k alert t Hp Hact Hm Hl Hc). cbn zeta in IH.
      destruct (monitor_entries' fresh i rest dm) as [[rest' ns] dm2].
      cbn [fst snd] in *. exact IH.
Qed.

Lemma same_rule_trans a1 a2 a3 : same_rule a1 a2 -> same_rule a2 a3 -> same_rule a1 a3.
Proof.
  unfold same_rule. intros (H1 & H2 & H3 & H4 & H5 & H6 & H7)
    (G1 & G2 & G3 & G4 & G5 & G6 & G7).
  repeat split; congruence.
Qed.

(** X26.  Alerts are level-triggered.  A rule that fires stays active and
    is checked again on the next pass: while no tick arrives, an active
    price rule whose condition holds on the latest price fires on every
    pass, so after [n] passes its trigger count has grown by [n] and the
    history by at least [n] notifications. *)
Theorem satisfied_price_alert_fires_every_pass
    (n : nat) (fresh : nat -> nat -> string * string) (eng : AlertsEngine)
    (dm : DataManager) (p : nat) (k : string) (alert : Alert) (t : Tick) :
  alerts eng !! p = Some (k, alert) ->
  a_active alert = true ->
  Str.lower (a_metric alert) = "price"%string ->
  last (buffer_of dm (normalize_symbol (a_pair alert))) = Some t ->
  _evaluate_condition (tick_price t) (a_operator alert) (a_value alert) = true ->
  let eng' := fst (monitor_passes' fresh n eng dm) in
  exists alert',
    alerts eng' !! p = Some (k, alert')
    /\ same_rule alert alert'
    /\ a_trigger_count alert' = a_trigger_count alert + Z.of_nat n
    /\ (length (triggered_alerts eng) + n <= length (triggered_alerts eng'))%nat.
Proof.
  revert fresh eng dm alert.
  induction n as [|n IH]; intros fresh eng dm alert Hp Hact Hm Hl Hc; cbn zeta.
  - cbn [monitor_passes fst]. exists alert. split; [exact Hp|].
    split; [repeat split|]. split; lia.
  - cbn [monitor_passes]. unfold monitor_pass.
    pose proof (monitor_entries_price (fresh 0%nat) (alerts eng) 0 dm p k alert t
                  Hp Hact Hm Hl Hc) as H1. cbn zeta in H1.
    pose proof (monitor_entries_spec (fresh 0%nat) (alerts eng) 0 dm) as H2.
    cbn zeta in H2.
    destruct (monitor_entries' (fresh 0%nat) 0 (alerts eng) dm) as [[entries' new] dm1].
    cbn [fst snd] in H1, H2.
    destruct H1 as (alert1 & n1 & Hp1 & Hs1 & Hc1 & Hin & _).
    destruct H2 as (Hr & _).
    assert (Hnew : (1 <= length new)%nat).
    { destruct new; [destruct Hin | cbn; lia]. }
    destruct Hs1 as (S1 & S2 & S3 & S4 & S5 & S6 & S7).
    destruct (IH (fun j => fresh (S j))
                {| alerts := entries'; triggered_alerts := triggered_alerts eng ++ new |}
                dm1 alert1) as (alert' & Hp' & Hs' & Hc' & Hlen').
    + exact Hp1.
    + congruence.
    + congruence.
    + rewrite S3, (proj1 (read_trace_frame _ _ Hr)). exact Hl.
    + rewrite S4, S5. exact Hc.
    + exists alert'. split; [exact Hp'|].
      split; [eapply same_rule_trans; [|exact Hs']; repeat split; assumption|].
      split; [lia|].
      cbn [triggered_alerts] in Hlen'. rewrite length_app in Hlen'. lia.
Qed.

(** X27.  The notification history is read by suffix and cleared
    separately from the rules.  [get_triggered_alerts] with a positive
    limit returns the newest [limit] notifications, with [None] or [0] all
    of them, and with a negative limit the history without its oldest
    [-limit] notifications.  [clear_triggered_alerts] empties the history
    for every limit but leaves the rules and their trigger counts as they
    were. *)
Theorem triggered_history_limit_and_clear
    (limit : option Z) (eng : AlertsEngine) :
  (forall k, limit = Some k -> 0 < k ->
     get_triggered_alerts limit eng = lastn (Z.to_nat k) (triggered_alerts eng))
  /\ (forall k, limit = Some k -> k < 0 ->
        get_triggered_alerts limit eng = skipn (Z.to_nat (- k)) (triggered_alerts eng))
  /\ (limit = None \/ limit = Some 0 ->
      get_triggered_alerts limit eng = triggered_alerts eng)
  /\ get_triggered_alerts limit (clear_triggered_alerts eng) = []
  /\ alerts (clear_triggered_alerts eng) = alerts eng
  /\ total_triggers (alerts (clear_triggered_alerts eng)) = total_triggers (alerts eng).
Proof.
  unfold get_triggered_alerts, clear_triggered_alerts.
  cbn [alerts triggered_alerts].
  split; [|split; [|split; [|split; [|split; reflexivity]]]].
  - intros k -> Hk. destruct (Z.eqb_spec k 0) as [->|_]; [lia|].
    apply tail_limit_positive, Hk.
  - intros k -> Hk. destruct (Z.eqb_spec k 0) as [->|_]; [lia|].
    apply tail_limit_negative, Hk.
  - intros [->| ->]; reflexivity.
  - destruct limit as [k|]; [|reflexivity].
    destruct (k =? 0); [reflexivity|].
    unfold Py.tail_limit, Py.slice_from. apply skipn_nil.
Qed.

End AlertFacts.

(** ** The z-score series                                                *)

Section ZscoreFacts.

Variable to_datetime_utc : string -> option Z.
Variable isoformat : Z -> string.
Variable to_datetime : string -> option Z.
Variable Timestamp : string -> option Z.
Variable OLS_fit_params : list float -> list (list float) -> option (list float).
Variable HuberRegressor_fit_coef : list (list float) -> list float -> option (list float).
Variable TheilSenRegressor_fit_coef : list (list float) -> list float -> option (list float).
Variable rolling_mean : Z -> list float -> option (list float).
Variable rolling_std : Z -> list float -> option (list float).

Abbreviation compute_spread' :=
  (compute_spread to_datetime_utc isoformat to_datetime Timestamp OLS_fit_params
     HuberRegressor_fit_coef TheilSenRegressor_fit_coef).
Abbreviation compute_zscore' :=
  (compute_zscore to_datetime_utc isoformat to_datetime Timestamp OLS_fit_params
     HuberRegressor_fit_coef TheilSenRegressor_fit_coef rolling_mean rolling_std).



End ZscoreFacts.

(** ** The further properties on concrete inputs                         *)

(** X4 on the flat manager: cleared, then fed the six flat ticks again. *)
Lemma tick_count_since_clear_example :
  "aaa" <> EmptyString
  /\ count_of (add_ticks 100 Scenario.flat_ticks
                 (clear_buffer (Some "aaa") Scenario.flat_manager)) "AAA" = 3.
Proof.
  split; [discriminate|].
  destruct (tick_count_since_clear 100 "aaa" Scenario.flat_manager
              Scenario.flat_ticks) as [H _]; [discriminate|].
  exact H.
Defined.

(** X6: the entry cached before the six ticks arrive again is still what
    is returned afterwards. *)
Lemma get_ohlcv_ignores_new_ticks_example :
  exists df,
    ohlcv_cache Cases.cached_manager !! (normalize_symbol "aaa", "1m") = Some df
    /\ length df = 3%nat
    /\ fst (Scenario.get_ohlcv "aaa" "1m" None None None false
              (add_ticks 100 Scenario.flat_ticks Cases.cached_manager))
       = Some df.
Proof.
  destruct (ohlcv_cache Cases.cached_manager !! (normalize_symbol "aaa", "1m"))
    as [df|] eqn:E; [|vm_compute in E; discriminate].
  exists df. split; [reflexivity|].
  split; [vm_compute in E; injection E as <-; reflexivity|].
  unfold Scenario.get_ohlcv.
  rewrite (get_ohlcv_ignores_new_ticks Ref.to_datetime Ref.isoformat 100 "aaa" "1m"
             None None None Cases.cached_manager df Scenario.flat_ticks E).
  reflexivity.
Defined.

(** X7 on the flat manager: the frame cached by a first request limited
    to the last candle is the whole frame, and answers a later request. *)
Lemma get_ohlcv_caches_the_filtered_frame_example :
  exists df,
    ohlcv_cache Scenario.flat_manager !! (normalize_symbol "aaa", "1m") = None
    /\ Scenario.resample_to_ohlcv
         (filter_ticks None None None
            (buffer_of Scenario.flat_manager (normalize_symbol "aaa")))
         (timeframe_to_pandas_rule "1m") = Some df
    /\ length df = 3%nat
    /\ fst (Scenario.get_ohlcv "aaa" "1m" None None None false
              (snd (Scenario.get_ohlcv "aaa" "1m" (Some 1) None None false
                      Scenario.flat_manager)))
       = Some (filter_candles None None None df).
Proof.
  destruct (Scenario.resample_to_ohlcv
              (filter_ticks None None None
                 (buffer_of Scenario.flat_manager (normalize_symbol "aaa")))
              (timeframe_to_pandas_rule "1m")) as [df|] eqn:E;
    [|vm_compute in E; discriminate].
  exists df. split; [vm_compute; reflexivity|]. split; [reflexivity|].
  split; [vm_compute in E; injection E as <-; reflexivity|].
  apply (get_ohlcv_caches_the_filtered_frame Ref.to_datetime Ref.isoformat
           "aaa" "1m" (Some 1) None None None None None Scenario.flat_manager df).
  - vm_compute. reflexivity.
  - vm_compute. discriminate.
  - exact E.
Defined.

(** X8 on the flat manager: after clearing AAA every reader sees nothing. *)
Lemma clear_buffer_then_read_example :
  "aaa" <> EmptyString
  /\ fst (get_latest_price "aaa" (clear_buffer (Some "aaa") Scenario.flat_manager))
     = None
  /\ fst (Scenario.get_ohlcv "aaa" "1m" None None None true
            (clear_buffer (Some "aaa") Scenario.flat_manager)) = Some [].
Proof.
  assert (H : "aaa" <> EmptyString) by discriminate.
  destruct (clear_buffer_then_read Ref.to_datetime Ref.isoformat Ref.to_datetime
              "aaa" "1m" None None None true Scenario.flat_manager H)
    as (_ & H2 & H3 & _).
  split; [exact H|]. split; [exact H2 | exact H3].
Defined.


(** X12 on the flat manager with the configured timeframes: the pass
    stores the one-minute frame of AAA and leaves the buffers alone. *)
Lemma resample_pass_refreshes_cache_example :
  let dm' := resample_pass Ref.to_datetime Ref.isoformat ["AAA"; "BBB"]
               ["1s"; "1m"; "5m"] Scenario.flat_manager in
  keys_normalized Scenario.flat_manager
  /\ tick_buffers dm' = tick_buffers Scenario.flat_manager
  /\ ohlcv_cache dm' !! ("AAA", "1m")
     = fresh_frame Ref.to_datetime Ref.isoformat Scenario.flat_manager "AAA" "1m".
Proof.
  intros dm'.
  assert (Hk : keys_normalized Scenario.flat_manager).
  { exact (proj2 (proj2 (invariant_run_ops 100 Ref.to_datetime Ref.isoformat
                           Ref.to_datetime Cases.flat_ops))). }
  assert (Hs : forall s, In s ["AAA"; "BBB"] ->
                         is_Some (tick_buffers Scenario.flat_manager !! s)).
  { intros s [<-|[<-|[]]]; apply (bool_decide_unpack _); vm_compute; exact I. }
  destruct (resample_pass_refreshes_cache Ref.to_datetime Ref.isoformat
              ["AAA"; "BBB"] ["1s"; "1m"; "5m"] Scenario.flat_manager Hk Hs)
    as (H1 & _ & _ & H4 & _).
  split; [exact Hk|]. split; [exact H1|].
  destruct (fresh_frame Ref.to_datetime Ref.isoformat Scenario.flat_manager
              "AAA" "1m") as [df|] eqn:E; [|vm_compute in E; discriminate].
  apply (H4 "AAA" "1m" df); [left; reflexivity | right; left; reflexivity | exact E].
Defined.

(** X13 on ticks with two empty minutes. *)
Lemma resample_candles_ordered_example :
  exists candles times,
    Scenario.resample_to_ohlcv Scenario.gap_ticks "1min" = Some candles
    /\ length candles = 3%nat
    /\ map c_ts candles = map Ref.isoformat times
    /\ StronglySorted Z.lt times.
Proof.
  destruct (Scenario.resample_to_ohlcv Scenario.gap_ticks "1min") as [candles|] eqn:E;
    [|vm_compute in E; discriminate].
  destruct (resample_candles_ordered Ref.to_datetime Ref.isoformat
              Scenario.gap_ticks "1min" candles E) as (times & H1 & H2 & _).
  exists candles, times. split; [reflexivity|].
  split; [vm_compute in E; injection E as <-; reflexivity|].
  split; [exact H1 | exact H2].
Defined.

(** X14: the tick of 00:01:20 has its candle, stamped 00:01. *)
Lemma resample_covers_every_priced_tick_example :
  exists candles c,
    Scenario.resample_to_ohlcv Cases.priced_ticks "1min" = Some candles
    /\ rule_nanos "1min" = Some 60000000000
    /\ In (Scenario.tick "X" 6%float "2024-01-01T00:01:20+00:00") Cases.priced_ticks
    /\ Ref.to_datetime "2024-01-01T00:01:20+00:00" = Some 1704067280000000000
    /\ In c candles
    /\ c_ts c = Ref.isoformat (bucket_of 60000000000 1704067280000000000).
Proof.
  destruct (Scenario.resample_to_ohlcv Cases.priced_ticks "1min") as [candles|] eqn:E;
    [|vm_compute in E; discriminate].
  assert (Hw : rule_nanos "1min" = Some 60000000000) by reflexivity.
  assert (Hin : In (Scenario.tick "X" 6%float "2024-01-01T00:01:20+00:00")
                   Cases.priced_ticks) by (right; right; left; reflexivity).
  assert (Hi : Ref.to_datetime "2024-01-01T00:01:20+00:00"
               = Some 1704067280000000000) by (vm_compute; reflexivity).
  destruct (resample_covers_every_priced_tick Ref.to_datetime Ref.isoformat
              Cases.priced_ticks "1min" candles 60000000000
              (Scenario.tick "X" 6%float "2024-01-01T00:01:20+00:00")
              1704067280000000000 E Hw Hin Hi eq_refl) as (c & Hc & Hts).
  exists candles, c.
  split; [reflexivity|]. split; [exact Hw|]. split; [exact Hin|].
  split; [exact Hi|]. split; [exact Hc | exact Hts].
Defined.

(** X15: the candle of 00:00 brackets the tick of price 7. *)
Lemma candle_brackets_its_ticks_example :
  exists candles c,
    Scenario.resample_to_ohlcv Cases.priced_ticks "1min" = Some candles
    /\ (forall t', In t' Cases.priced_ticks -> valid_price (tick_price t'))
    /\ In c candles
    /\ c_ts c = Ref.isoformat (bucket_of 60000000000 1704067220000000000)
    /\ fle (c_low c) 7%float /\ fle 7%float (c_high c).
Proof.
  destruct (Scenario.resample_to_ohlcv Cases.priced_ticks "1min") as [candles|] eqn:E;
    [|vm_compute in E; discriminate].
  assert (Hw : rule_nanos "1min" = Some 60000000000) by reflexivity.
  assert (Hv : forall t', In t' Cases.priced_ticks -> valid_price (tick_price t')).
  { intros t' [<-|[<-|[<-|[]]]]; split; reflexivity. }
  assert (Hin : In (Scenario.tick "X" 7%float "2024-01-01T00:00:20+00:00")
                   Cases.priced_ticks) by (right; left; reflexivity).
  assert (Hi : Ref.to_datetime "2024-01-01T00:00:20+00:00"
               = Some 1704067220000000000) by (vm_compute; reflexivity).
  destruct (candle_brackets_its_ticks Ref.to_datetime Ref.isoformat
              Cases.priced_ticks "1min" candles 60000000000
              (Scenario.tick "X" 7%float "2024-01-01T00:00:20+00:00")
              1704067220000000000 E Hw Hv Hin Hi) as (c & Hc & Hts & Hlo & Hhi & _).
  exists candles, c.
  split; [reflexivity|]. split; [exact Hv|]. split; [exact Hc|].
  split; [exact Hts|]. split; [exact Hlo | exact Hhi].
Defined.

(** X16 on the flat manager before and after a candle request. *)
Lemma analytics_depend_on_buffers_only_example :
  buffer_of Scenario.flat_manager (normalize_symbol "aaa")
  = buffer_of Cases.cached_manager (normalize_symbol "aaa")
  /\ buffer_of Scenario.flat_manager (normalize_symbol "bbb")
     = buffer_of Cases.cached_manager (normalize_symbol "bbb")
  /\ fst (Scenario.compute_zscore "aaa" "bbb" "1m" 2 "none" Scenario.flat_manager)
     = fst (Scenario.compute_zscore "aaa" "bbb" "1m" 2 "none" Cases.cached_manager).
Proof.
  assert (Ha : buffer_of Scenario.flat_manager (normalize_symbol "aaa")
               = buffer_of Cases.cached_manager (normalize_symbol "aaa"))
    by (vm_compute; reflexivity).
  assert (Hb : buffer_of Scenario.flat_manager (normalize_symbol "bbb")
               = buffer_of Cases.cached_manager (normalize_symbol "bbb"))
    by (vm_compute; reflexivity).
  split; [exact Ha|]. split; [exact Hb|].
  exact (proj1 (proj2 (proj2
           (analytics_depend_on_buffers_only Ref.to_datetime Ref.isoformat
              Ref.to_datetime Ref.to_datetime Ref.OLS_fit_params
              Ref.sklearn_fit_coef Ref.sklearn_fit_coef Ref.rolling_mean
              Ref.rolling_std Ref.adfuller Cases.rolling_corr
              "aaa" "bbb" "1m" 2 "none" Scenario.flat_manager Cases.cached_manager
              Ha Hb)))).
Defined.

(** X17 on the trending pair with a constant ratio: two hedge ratios, two
    spread points. *)
Lemma compute_spread_one_point_per_ratio_example :
  exists pa pb hr spreads,
    fst (Cases.fetch "UP" "1m" (series_limit 2) true Cases.trend_manager) = Some pa
    /\ fst (Cases.fetch "DN" "1m" (series_limit 2) true Cases.trend_manager) = Some pb
    /\ List.NoDup (map fst pa)
    /\ fst (Cases.compute_hedge_ratio "UP" "DN" "1m" 2 "none" Cases.trend_manager)
       = Some hr
    /\ fst (Scenario.compute_spread "UP" "DN" "1m" 2 "none" Cases.trend_manager)
       = Some spreads
    /\ length hr = 2%nat /\ length spreads = length hr.
Proof.
  destruct (fst (Cases.fetch "UP" "1m" (series_limit 2) true Cases.trend_manager))
    as [pa|] eqn:Ea; [|vm_compute in Ea; discriminate].
  destruct (fst (Cases.fetch "DN" "1m" (series_limit 2) true Cases.trend_manager))
    as [pb|] eqn:Eb; [|vm_compute in Eb; discriminate].
  assert (Hpa : pa = [(Scenario.t0, 100%float); (Scenario.t0 + Scenario.minute, 101%float);
                      (Scenario.t0 + 2 * Scenario.minute, 103%float)])
    by (vm_compute in Ea; injection Ea as <-; reflexivity).
  assert (Hpb : pb = [(Scenario.t0, 50%float); (Scenario.t0 + Scenario.minute, 51%float);
                      (Scenario.t0 + 2 * Scenario.minute, 52%float)])
    by (vm_compute in Eb; injection Eb as <-; reflexivity).
  assert (Hnd : List.NoDup (map fst pa)).
  { rewrite Hpa. apply NoDup_ListNoDup, (bool_decide_unpack _). vm_compute. exact I. }
  assert (Hrt : forall r, In r (align pa pb) ->
                  Ref.to_datetime (Ref.isoformat (ar_time r)) = Some (ar_time r)).
  { rewrite Hpa, Hpb. intros r Hr. vm_compute in Hr.
    destruct Hr as [<-|[<-|[<-|[]]]]; vm_compute; reflexivity. }
  destruct (compute_spread_one_point_per_ratio Ref.to_datetime Ref.isoformat
              Ref.to_datetime Ref.to_datetime Ref.OLS_fit_params
              Ref.sklearn_fit_coef Ref.sklearn_fit_coef
              "UP" "DN" "1m" 2 "none" Cases.trend_manager pa pb Ea Eb Hnd Hrt)
    as (hr & spreads & Hh & Hs & Hlen & _).
  exists pa, pb, hr, spreads.
  split; [reflexivity|]. split; [reflexivity|]. split; [exact Hnd|].
  split; [exact Hh|]. split; [exact Hs|]. split; [|exact Hlen].
  vm_compute in Hh. injection Hh as <-. reflexivity.
Defined.

(** X18 on the trending pair: the correlation over windows of two rows. *)
Lemma rolling_correlation_points_example :
  exists pa pb points,
    fst (Cases.fetch "UP" "1m" (series_limit 2) true Cases.trend_manager) = Some pa
    /\ fst (Cases.fetch "DN" "1m" (series_limit 2) true Cases.trend_manager) = Some pb
    /\ fst (Cases.compute_rolling_correlation "UP" "DN" "1m" 2 Cases.trend_manager)
       = Some points
    /\ length points = 2%nat
    /\ Forall (fun p => Fl.isnan (p_value p) = false) points.
Proof.
  destruct (fst (Cases.fetch "UP" "1m" (series_limit 2) true Cases.trend_manager))
    as [pa|] eqn:Ea; [|vm_compute in Ea; discriminate].
  destruct (fst (Cases.fetch "DN" "1m" (series_limit 2) true Cases.trend_manager))
    as [pb|] eqn:Eb; [|vm_compute in Eb; discriminate].
  destruct (fst (Cases.compute_rolling_correlation "UP" "DN" "1m" 2
                   Cases.trend_manager))
    as [points|] eqn:Ec; [|vm_compute in Ec; discriminate].
  destruct (rolling_correlation_points Ref.to_datetime Ref.isoformat Ref.to_datetime
              Cases.rolling_corr "UP" "DN" "1m" 2 Cases.trend_manager pa pb points
              Ea Eb Ec) as (Hn & _).
  exists pa, pb, points.
  split; [reflexivity|]. split; [reflexivity|]. split; [reflexivity|].
  split; [|exact Hn]. vm_compute in Ec. injection Ec as <-. reflexivity.
Defined.

(** X19 on the flat manager with a symbol that was never seen. *)
Lemma analytics_without_data_example :
  buffer_of Scenario.flat_manager (normalize_symbol "nope") = []
  /\ fst (Cases.fetch "aaa" "1m" (series_limit 2) true Scenario.flat_manager) <> None
  /\ fst (Scenario.compute_zscore "aaa" "nope" "1m" 2 "OLS" Scenario.flat_manager)
     = Some []
  /\ fst (Scenario.compute_adf_test "aaa" "nope" "1m" 2 "OLS" Scenario.flat_manager)
     = Some {| adf_stat := 0%float; adf_pvalue := 1%float |}.
Proof.
  assert (Hb : buffer_of Scenario.flat_manager (normalize_symbol "nope") = [])
    by (vm_compute; reflexivity).
  assert (Ha : fst (Cases.fetch "aaa" "1m" (series_limit 2) true Scenario.flat_manager)
               <> None) by (vm_compute; discriminate).
  assert (Hn : fst (Cases.fetch "nope" "1m" (series_limit 2) true Scenario.flat_manager)
               <> None) by (vm_compute; discriminate).
  destruct (analytics_without_data Ref.to_datetime Ref.isoformat Ref.to_datetime
              Ref.to_datetime Ref.OLS_fit_params Ref.sklearn_fit_coef
              Ref.sklearn_fit_coef Ref.rolling_mean Ref.rolling_std Ref.adfuller
              Cases.rolling_corr "aaa" "nope" "1m" 2 "OLS" Scenario.flat_manager
              (or_intror Hb) Ha Hn) as (_ & _ & Hz & _ & Hadf).
  split; [exact Hb|]. split; [exact Ha|]. split; [exact Hz | exact Hadf].
Defined.

(** X21 on the flat manager: after the hedge ratios are computed the
    one-minute frame of AAA is in the cache. *)
Lemma analytics_refresh_the_cache_example :
  let dm' := snd (Cases.compute_hedge_ratio "aaa" "bbb" "1m" 2 "OLS"
                    Scenario.flat_manager) in
  (forall s, buffer_of dm' s = buffer_of Scenario.flat_manager s)
  /\ exists cd df,
       fresh_frame Ref.to_datetime Ref.isoformat Scenario.flat_manager
         (normalize_symbol "aaa") "1m" = Some (cd :: df)
       /\ ohlcv_cache dm' !! (normalize_symbol "aaa", "1m") = Some (cd :: df).
Proof.
  intros dm'.
  destruct (analytics_refresh_the_cache Ref.to_datetime Ref.isoformat Ref.to_datetime
              Ref.to_datetime Ref.OLS_fit_params Ref.sklearn_fit_coef
              Ref.sklearn_fit_coef Ref.rolling_mean Ref.rolling_std Ref.adfuller
              Cases.rolling_corr "aaa" "bbb" "1m" 2 "OLS" Scenario.flat_manager dm'
              (or_introl eq_refl)) as (Hb & _ & _ & _ & Ha & _).
  split; [exact Hb|].
  destruct (fresh_frame Ref.to_datetime Ref.isoformat Scenario.flat_manager
              (normalize_symbol "aaa") "1m") as [[|cd df]|] eqn:E;
    try (vm_compute in E; discriminate).
  exists cd, df. split; [reflexivity | apply Ha; reflexivity].
Defined.

(** X24 on the flat manager: AAA last traded at 100, above 99. *)
Lemma price_alert_fires_on_latest_price_example :
  Str.lower "Price" = "price"%string
  /\ exists n,
       fst (fst (Cases.check_alert "n-1" "2024-01-01T00:03:00+00:00"
                   Cases.price_rule Scenario.flat_manager)) = Some n
       /\ n_alert_id n = "rule-1"%string
       /\ n_actual_value n = 100%float.
Proof.
  split; [reflexivity|].
  destruct (price_alert_fires_on_latest_price Ref.to_datetime Ref.isoformat
              Ref.to_datetime Ref.to_datetime Ref.OLS_fit_params
              Ref.sklearn_fit_coef Ref.sklearn_fit_coef Ref.rolling_mean
              Ref.rolling_std Ref.adfuller Cases.rolling_corr Cases.str_of_float
              "rule-1" "2024-01-01T00:00:00+00:00" "n-1" "2024-01-01T00:03:00+00:00"
              "Price" "aaa" ">" 99%float AlertsEngine_init Scenario.flat_manager
              eq_refl) as [H _].
  assert (E : last (buffer_of Scenario.flat_manager (normalize_symbol "aaa"))
              = Some (Scenario.tick "AAA" 100%float "2024-01-01T00:02:10+00:00"))
    by (vm_compute; reflexivity).
  rewrite E in H.
  assert (Ec : _evaluate_condition
                 (tick_price (Scenario.tick "AAA" 100%float "2024-01-01T00:02:10+00:00"))
                 ">" 99%float = true) by (vm_compute; reflexivity).
  rewrite Ec in H. destruct H as [H _].
  eexists. split; [exact H|]. split; reflexivity.
Defined.

(** X26 on the flat manager: three passes, three firings. *)
Lemma satisfied_price_alert_fires_every_pass_example :
  exists alert',
    alerts (fst (Cases.monitor_passes Cases.fresh 3 Cases.price_engine
                   Scenario.flat_manager)) !! 0%nat = Some ("rule-1"%string, alert')
    /\ a_trigger_count alert' = 3
    /\ a_active alert' = true.
Proof.
  destruct (satisfied_price_alert_fires_every_pass Ref.to_datetime Ref.isoformat
              Ref.to_datetime Ref.to_datetime Ref.OLS_fit_params
              Ref.sklearn_fit_coef Ref.sklearn_fit_coef Ref.rolling_mean
              Ref.rolling_std Ref.adfuller Cases.rolling_corr Cases.str_of_float
              3 Cases.fresh Cases.price_engine Scenario.flat_manager 0%nat
              "rule-1" Cases.price_rule
              (Scenario.tick "AAA" 100%float "2024-01-01T00:02:10+00:00"))
    as (alert' & Hp & Hs & Hc & _).
  - reflexivity.
  - reflexivity.
  - reflexivity.
  - vm_compute. reflexivity.
  - vm_compute. reflexivity.
  - exists alert'. split; [exact Hp|]. split; [exact Hc|].
    destruct Hs as (_ & _ & _ & _ & _ & Ha & _). exact Ha.
Defined.

